(** * Browser image utility suite: shallow embedding and verified properties

    The development follows the JavaScript sources, one module per class:

    - [ImageUtils]          validateFile, generateFileName,
                            calculateResizedDimensions, getImageInfo
    - [ImageProcessorApp]   handleFileSelection, removeFile, clearAllFiles
    - [ImageConverter]      convertImage, convertImages, recommendFormat
    - [ImageCompressor]     iterateCompression, compressByResizing,
                            compressImage, compressImages, smartCompress,
                            getCompressionSuggestion
    - [ImageCropper]        the crop computation in exact arithmetic
    - [Rounded]             calculateResizedDimensions and the whole class
                            ImageCropper on doubles: initCrop, initCropBox,
                            moveCropBox, setAspectRatio, applyCrop and the
                            pointer handlers
    - [WatermarkProcessor]  calculatePosition, the two drawing routines and
                            createRepeatingWatermark
    - [GIFProcessor]        extractFrames, getGIFInfo

    Numbers.  A JavaScript Number that holds a pixel count or a byte count is
    an integer and is modelled by [Z].  Where the value a computation returns
    depends on the rounding of a double (the compressor's loop guards, the
    resized dimensions, the crop rectangle, the progress percentage), every
    arithmetic result goes through an explicit rounding function [rnd]:
    [binary64] is IEEE-754 round-to-nearest-even on 53 bits, [exact] is the
    identity, and the theorems hold for every [rnd] that is within 2^-53 of
    its argument.  [Number] adds the infinities and NaN, which a division
    by a canvas side of 0 produces.  [floatSearch] replays the search on the
    kernel's own binary64 floats, as a check of [binary64].  The watermark
    geometry, and the statements about resizing that do not depend on which
    way a tie rounds, are over exact rationals [Q].

    Asynchrony.  Every [await] is sequential; a call either returns, throws,
    or never settles.  [Outcome] records which.  The batch loops read the
    array of selected files again after every [await]; what the user
    removes from it meanwhile is an input of the loop. *)

From Stdlib Require Import ZArith QArith Qround Qabs Qpower Lia Lqa.
From Stdlib Require Import List String Ascii Bool Permutation.
From Stdlib Require Import DecimalString.
From Stdlib Require Import PrimFloat SpecFloat FloatOps.
Import ListNotations.

Open Scope Z_scope.

(** ** JavaScript numeric primitives *)

(** [Math.round]: nearest integer, halves rounded towards +infinity. *)
Definition jsRound (x : Q) : Z := Qfloor (x + (1 # 2)).

(** [Math.ceil]. *)
Definition jsCeil (x : Q) : Z := Qceiling x.

(** [a > b] on Numbers. *)
Definition Qgtb (a b : Q) : bool := negb (Qle_bool a b).

(** [Math.min]. *)
Definition jsMin (a b : Q) : Q := if Qle_bool a b then a else b.

(** Truthiness of an optional pixel bound: [null], [undefined] and [0] are
    falsy, every other number is truthy. *)
Definition truthy (m : option Z) : bool :=
  match m with
  | Some n => negb (n =? 0)
  | None => false
  end.

(** The numeric value of a bound that passed a truthiness test. *)
Definition num (m : option Z) : Q :=
  match m with
  | Some n => inject_Z n
  | None => 0
  end.

(** *** IEEE-754 binary64 rounding on rationals

    Exponent range is not modelled: no overflow, no subnormals.  All values
    the compressor handles lie between 2^-10 and 2^31. *)

Definition pow2 (k : Z) : Q := (2 ^ k)%Q.

(** floor(log2 a) for a positive rational [a]. *)
Definition ilog2 (a : Q) : Z :=
  let k := Z.log2 (Qnum a) - Z.log2 (Zpos (Qden a)) in
  if Qle_bool (pow2 k) a then k else k - 1.

(** Nearest integer, ties to even. *)
Definition roundHalfEven (m : Q) : Z :=
  let f := Qfloor m in
  let d := (m - inject_Z f)%Q in
  if Qle_bool d (1 # 2) then
    if Qle_bool (1 # 2) d then (if Z.even f then f else f + 1) else f
  else f + 1.

(** The double nearest to [x]. *)
Definition binary64 (x : Q) : Q :=
  if Qeq_bool x 0 then 0%Q
  else
    let a := Qabs x in
    let ulp := pow2 (ilog2 a - 52) in
    let y := Qred (inject_Z (roundHalfEven (a / ulp)) * ulp) in
    if Qle_bool 0 x then y else (- y)%Q.

(** Arithmetic without rounding. *)
Definition exact (x : Q) : Q := x.

(** Unit roundoff of binary64, 2^-53. *)
Definition eps64 : Q := 1 # 9007199254740992.

(** ceil(log2 x), clamped at 0 for x <= 1: the least natural k with
    x <= 2^k. *)
Definition ceilLog2 (x : Q) : Z := Z.log2_up (Qceiling x).

(** *** Numbers that need not be finite

    A Number is a finite double, written as the rational it stands for, an
    infinity, or NaN.  The sign of zero is not modelled: where this code
    divides by zero, the zero is the width or height of an image or of a
    canvas, which is +0. *)
Inductive Number :=
| Finite (q : Q)
| PlusInfinity
| MinusInfinity
| NaN.

Module Number.

(** An integer as a Number. *)
Definition int (n : Z) : Number := Finite (inject_Z n).

(** The infinity of a sign. *)
Definition infinity (negative : bool) : Number :=
  if negative then MinusInfinity else PlusInfinity.

(** [a <= b]: false as soon as one side is NaN. *)
Definition leb (a b : Number) : bool :=
  match a, b with
  | NaN, _ => false
  | _, NaN => false
  | Finite x, Finite y => Qle_bool x y
  | MinusInfinity, _ => true
  | _, PlusInfinity => true
  | _, _ => false
  end.

(** [a >= b] *)
Definition geb (a b : Number) : bool := leb b a.

(** [a < b] *)
Definition ltb (a b : Number) : bool := leb a b && negb (leb b a).

(** [a > b] *)
Definition gtb (a b : Number) : bool := ltb b a.

(** [Math.min(a, b)] *)
Definition min (a b : Number) : Number :=
  match a, b with
  | NaN, _ => NaN
  | _, NaN => NaN
  | _, _ => if leb a b then a else b
  end.

(** [Math.round(a)] *)
Definition round (a : Number) : Number :=
  match a with
  | Finite q => int (jsRound q)
  | other => other
  end.

(** The truthiness of a Number. *)
Definition truthy (a : Number) : bool :=
  match a with
  | Finite q => negb (Qeq_bool q 0)
  | NaN => false
  | _ => true
  end.

(** The integer a Number holds, when it is finite; it is used on the
    results of [round]. *)
Definition toInt (a : Number) : option Z :=
  match a with
  | Finite q => Some (Qfloor q)
  | _ => None
  end.

(** The conversion of a Number to an [unsigned long]: NaN and the
    infinities give 0, a finite Number is truncated and taken modulo
    2^32. *)
Definition toUint32 (a : Number) : Z :=
  match a with
  | Finite q => (if Qle_bool 0 q then Qfloor q else Qceiling q) mod 2 ^ 32
  | _ => 0
  end.

Section Arithmetic.

(** Rounding applied to every finite arithmetic result and decimal
    literal. *)
Variable rnd : Q -> Q.

Definition lit (q : Q) : Number := Finite (rnd q).

Definition add (a b : Number) : Number :=
  match a, b with
  | Finite x, Finite y => Finite (rnd (x + y))
  | NaN, _ => NaN
  | _, NaN => NaN
  | PlusInfinity, MinusInfinity => NaN
  | MinusInfinity, PlusInfinity => NaN
  | PlusInfinity, _ => PlusInfinity
  | _, PlusInfinity => PlusInfinity
  | MinusInfinity, _ => MinusInfinity
  | _, MinusInfinity => MinusInfinity
  end.

Definition sub (a b : Number) : Number :=
  match a, b with
  | Finite x, Finite y => Finite (rnd (x - y))
  | NaN, _ => NaN
  | _, NaN => NaN
  | PlusInfinity, PlusInfinity => NaN
  | MinusInfinity, MinusInfinity => NaN
  | PlusInfinity, _ => PlusInfinity
  | _, MinusInfinity => PlusInfinity
  | MinusInfinity, _ => MinusInfinity
  | _, PlusInfinity => MinusInfinity
  end.

Definition mul (a b : Number) : Number :=
  match a, b with
  | Finite x, Finite y => Finite (rnd (x * y))
  | NaN, _ => NaN
  | _, NaN => NaN
  | Finite x, PlusInfinity => if Qeq_bool x 0 then NaN else infinity (Qgtb 0 x)
  | PlusInfinity, Finite x => if Qeq_bool x 0 then NaN else infinity (Qgtb 0 x)
  | Finite x, MinusInfinity => if Qeq_bool x 0 then NaN else infinity (negb (Qgtb 0 x))
  | MinusInfinity, Finite x => if Qeq_bool x 0 then NaN else infinity (negb (Qgtb 0 x))
  | PlusInfinity, PlusInfinity => PlusInfinity
  | MinusInfinity, MinusInfinity => PlusInfinity
  | _, _ => MinusInfinity
  end.

Definition div (a b : Number) : Number :=
  match a, b with
  | Finite x, Finite y =>
      if Qeq_bool y 0 then
        if Qeq_bool x 0 then NaN else infinity (Qgtb 0 x)
      else Finite (rnd (x / y))
  | NaN, _ => NaN
  | _, NaN => NaN
  | Finite _, _ => Finite 0
  | PlusInfinity, Finite y => infinity (Qgtb 0 y)
  | MinusInfinity, Finite y => infinity (negb (Qgtb 0 y))
  | _, _ => NaN
  end.

End Arithmetic.

End Number.

(** What a lookup [table[key]] in an object literal finds: an entry of
    the literal, a member every object inherits ([constructor],
    [toString], ...), or [undefined]. *)
Inductive Lookup (A : Type) :=
| Own (a : A)
| Inherited
| Undefined.

Arguments Own {A} a.
Arguments Inherited {A}.
Arguments Undefined {A}.

(** The names of the members every object inherits from
    [Object.prototype]. *)
Definition objectMembers : list string :=
  ["constructor"; "hasOwnProperty"; "isPrototypeOf"; "propertyIsEnumerable";
   "toLocaleString"; "toString"; "valueOf"; "__defineGetter__";
   "__defineSetter__"; "__lookupGetter__"; "__lookupSetter__"; "__proto__"]%string.

(** ** Platform objects *)

Record File := mkFile {
  file_name : string;
  file_type : string;
  file_size : Z
}.

(** Width and height of a raster, in pixels. *)
Record Dimensions := mkDimensions {
  width : Z;
  height : Z
}.

(** A decoded image element. *)
Record Image := mkImage {
  image_src : File;
  naturalWidth : Z;
  naturalHeight : Z
}.

(** A canvas is known by its size and by what was drawn on it:
    [drawImage(img, 0, 0, w, h)] of a whole image or of another canvas, the
    nine-argument [drawImage] of a source rectangle at its own size, or
    nothing yet. *)
Inductive Canvas :=
| DrawImage (src : Image) (w h : Z)
| DrawCanvas (src : Canvas) (w h : Z)
| DrawRegion (src : Image) (sx sy sw sh : Z) (w h : Z)
| Blank (w h : Z).

Definition canvas_width (c : Canvas) : Z :=
  match c with
  | DrawImage _ w _ => w
  | DrawCanvas _ w _ => w
  | DrawRegion _ _ _ _ _ w _ => w
  | Blank w _ => w
  end.

Definition canvas_height (c : Canvas) : Z :=
  match c with
  | DrawImage _ _ h => h
  | DrawCanvas _ _ h => h
  | DrawRegion _ _ _ _ _ _ h => h
  | Blank _ h => h
  end.

Record Blob := mkBlob {
  blob_size : Z;
  blob_type : string
}.

(** Errors, by the message they carry. *)
Inductive Error :=
| UnsupportedFormat (type : string)
| FileTooLarge (size : Z)
| ImageLoadFailed
| GIFLoadFailed
| NullBlob
| NoImageToCrop
| ConvertFailed (cause : Error)
| CompressFailed (cause : Error)
| CropInitFailed (cause : Error)
| NameOfUndefined.

(** What a call does: it returns, throws, or never settles. *)
Inductive Outcome (A : Type) :=
| Returned (a : A)
| Threw (e : Error)
| Pending.

Arguments Returned {A} a.
Arguments Threw {A} e.
Arguments Pending {A}.

Definition bind {A B : Type} (m : Outcome A) (k : A -> Outcome B) : Outcome B :=
  match m with
  | Returned a => k a
  | Threw e => Threw e
  | Pending => Pending
  end.

Notation "x <- m ;; k" := (bind m (fun x => k))
  (at level 61, m at next level, right associativity).

(** [try { body } catch (error) { throw wrap(error) }] *)
Definition rethrow {A : Type} (wrap : Error -> Error) (body : Outcome A) : Outcome A :=
  match body with
  | Threw e => Threw (wrap e)
  | other => other
  end.

(** [blob.size] on a blob that may be [null]. *)
Definition sizeOf (blob : option Blob) : Outcome Z :=
  match blob with
  | Some b => Returned (blob_size b)
  | None => Threw NullBlob
  end.

(** ** ImageUtils *)

Module ImageUtils.

(** [this.supportedFormats] *)
Definition supportedFormats : list string :=
  ["image/jpeg"; "image/png"; "image/webp"; "image/avif"; "image/gif"]%string.

(** [this.maxFileSize = 50 * 1024 * 1024] *)
Definition maxFileSize : Z := 50 * 1024 * 1024.

(** [Array.prototype.includes] on strings. *)
Definition includes (l : list string) (s : string) : bool :=
  existsb (String.eqb s) l.

(** [getFormatExtension(format)], for a [format] that is not the name of a
    member every object inherits ([objectMembers]): for such a name
    [formatMap[format]] is that member, and the text it is written out as
    is the platform's. *)
Definition getFormatExtension (format : string) : string :=
  if String.eqb format "image/jpeg" then "jpg"
  else if String.eqb format "image/png" then "png"
  else if String.eqb format "image/webp" then "webp"
  else if String.eqb format "image/avif" then "avif"
  else if String.eqb format "image/gif" then "gif"
  else "jpg".

(** Every character differs from '/' and '.'. *)
Fixpoint plainChars (s : string) : bool :=
  match s with
  | EmptyString => true
  | String c rest =>
      negb (Ascii.eqb c "/") && negb (Ascii.eqb c ".") && plainChars rest
  end.

(** The text before the match of the regular expression \.[^/.]+$ when there
    is one. *)
Fixpoint stripExtension (s : string) : option string :=
  match s with
  | EmptyString => None
  | String c rest =>
      match stripExtension rest with
      | Some r => Some (String c r)
      | None =>
          if Ascii.eqb c "." && negb (String.eqb rest "") && plainChars rest
          then Some EmptyString
          else None
      end
  end.

(** [generateFileName(originalName, format, suffix)] *)
Definition generateFileName (originalName format suffix : string) : string :=
  let name := match stripExtension originalName with
              | Some n => n
              | None => originalName
              end in
  let extension := getFormatExtension format in
  (name ++ suffix ++ "." ++ extension)%string.

(** [validateFile(file)] *)
Definition validateFile (file : File) : Outcome bool :=
  if negb (includes supportedFormats (file_type file)) then
    Threw (UnsupportedFormat (file_type file))
  else if file_size file >? maxFileSize then
    Threw (FileTooLarge (file_size file))
  else Returned true.

(** [calculateResizedDimensions(originalWidth, originalHeight, maxWidth,
    maxHeight, keepAspectRatio)] in exact arithmetic: the quotient and the
    product are not rounded before [Math.round].
    [Rounded.calculateResizedDimensions] is the computation on doubles; the
    two differ by a pixel where the exact value is a tie. *)
Definition calculateResizedDimensions
    (originalWidth originalHeight : Z) (maxWidth maxHeight : option Z)
    (keepAspectRatio : bool) : Dimensions :=
  if negb (truthy maxWidth) && negb (truthy maxHeight) then
    mkDimensions originalWidth originalHeight
  else
    let width := inject_Z originalWidth in
    let height := inject_Z originalHeight in
    let '(width, height) :=
      if keepAspectRatio then
        let aspectRatio := (width / height)%Q in
        if truthy maxWidth && truthy maxHeight then
          let '(width, height) :=
            if Qgtb width (num maxWidth)
            then (num maxWidth, (num maxWidth / aspectRatio)%Q)
            else (width, height) in
          if Qgtb height (num maxHeight)
          then ((num maxHeight * aspectRatio)%Q, num maxHeight)
          else (width, height)
        else if truthy maxWidth then
          if Qgtb width (num maxWidth)
          then (num maxWidth, (num maxWidth / aspectRatio)%Q)
          else (width, height)
        else if truthy maxHeight then
          if Qgtb height (num maxHeight)
          then ((num maxHeight * aspectRatio)%Q, num maxHeight)
          else (width, height)
        else (width, height)
      else
        let width :=
          if truthy maxWidth then jsMin width (num maxWidth) else width in
        let height :=
          if truthy maxHeight then jsMin height (num maxHeight) else height in
        (width, height) in
    mkDimensions (jsRound width) (jsRound height).

(** The object [getImageInfo] resolves with. *)
Record ImageInfo := mkImageInfo {
  info_width : Z;
  info_height : Z;
  info_size : Z;
  info_type : string;
  info_name : string
}.

(** [getImageInfo(file)]; [loadImage] is [new Image()] with [src] set. *)
Definition getImageInfo (loadImage : File -> Outcome Image) (file : File)
    : Outcome ImageInfo :=
  img <- loadImage file ;;
  Returned (mkImageInfo (naturalWidth img) (naturalHeight img)
              (file_size file) (file_type file) (file_name file)).

End ImageUtils.

(** ** ImageProcessorApp *)

Module ImageProcessorApp.

(** The selection the application keeps: [this.selectedFiles], and
    [window.selectedFiles], which is undefined until a selection is made.
    Both names are bound to the same array or to two empty ones, and the
    one in-place update ([splice]) is followed by rebinding
    [window.selectedFiles], so each field holds the array's content. *)
Record App := mkApp {
  selectedFiles : list File;
  windowSelectedFiles : option (list File)
}.

(** The constructor's state. *)
Definition newApp : App := mkApp [] None.

(** The callback of [filter] in [handleFileSelection]: [validateFile]
    inside [try], [false] from [catch]. *)
Definition passes (file : File) : bool :=
  match ImageUtils.validateFile file with
  | Returned _ => true
  | _ => false
  end.

(** [handleFileSelection(files)] *)
Definition handleFileSelection (app : App) (files : list File) : App :=
  if (List.length files =? 0)%nat then app
  else
    let validFiles := filter passes files in
    if (List.length validFiles =? 0)%nat then app
    else mkApp validFiles (Some validFiles).

(** [Array.prototype.splice(index, 1)] for an index that is not negative. *)
Definition splice1 {A : Type} (l : list A) (index : nat) : list A :=
  firstn index l ++ skipn (S index) l.

(** [removeFile(index)]; the index is the position of the file's entry in
    the displayed list. *)
Definition removeFile (app : App) (index : nat) : App :=
  let files := splice1 (selectedFiles app) index in
  mkApp files (Some files).

(** [clearAllFiles()] *)
Definition clearAllFiles (app : App) : App := mkApp [] (Some []).

(** What the user does to the selection. *)
Inductive Action :=
| ChooseFiles (files : list File)
| RemoveEntry (index : nat)
| ClearAll.

Definition act (app : App) (a : Action) : App :=
  match a with
  | ChooseFiles files => handleFileSelection app files
  | RemoveEntry index => removeFile app index
  | ClearAll => clearAllFiles app
  end.

End ImageProcessorApp.

(** ** Batch loops

    [convertImages], [compressImages], [addWatermarks] and [processGIFs] are
    the same loop around a different per-file call:

    for (i = 0; i < files.length; i++) {
      try { results.push(await process(files[i]));
            this.updateProgress(i + 1, files.length) }
      catch (error) { errors.push({file: files[i].name, error: error.message}) }
    }
    return {results, errors, total: files.length,
            success: results.length, failed: errors.length}

    The callers pass [window.selectedFiles], the array that [removeFile]
    splices in place, and the loop reads [files.length] and [files[i]] again
    after every [await].  The array is therefore part of the state of the
    loop, and what happens to it while the loop waits is an input. *)

Record ErrorEntry := mkErrorEntry {
  entry_file : string;
  entry_error : Error
}.

Record BatchResult (R : Type) := mkBatchResult {
  results : list R;
  errors : list ErrorEntry;
  total : Z;
  success : Z;
  failed : Z
}.

Arguments mkBatchResult {R}.
Arguments results {R}.
Arguments errors {R}.
Arguments total {R}.
Arguments success {R}.
Arguments failed {R}.

(** What happens to the array during a batch: for each index [i], the
    indices [removeFile] is called with while the call for [files[i]] is
    awaited, in order.  (A new selection and [clearAllFiles] bind the names
    to another array and leave this one alone.) *)
Definition Interference : Type := nat -> list nat.

(** Nobody removes a file during the batch. *)
Definition undisturbed : Interference := fun _ => [].

(** The array after [removeFile(index)] for each of [indices] in turn. *)
Definition spliced (files : list File) (indices : list nat) : list File :=
  fold_left ImageProcessorApp.splice1 indices files.

(** The percentage of [updateProgress(current, total)]:
    [Math.round((current / total) * 100)]. *)
Definition progressPercent (rnd : Q -> Q) (current total : Z) : Number :=
  Number.round
    (Number.mul rnd (Number.div rnd (Number.int current) (Number.int total))
       (Number.int 100)).

(** What the progress element shows: the text [current/total (progress%)]
    of the last [updateProgress], or nothing yet. *)
Record Progress := mkProgress {
  shown_current : Z;
  shown_total : Z;
  shown_percent : Number
}.

(** [updateProgress(current, total)] on a page that has the progress
    element. *)
Definition updateProgress (rnd : Q -> Q) (current total : Z) : option Progress :=
  Some (mkProgress current total (progressPercent rnd current total)).

(** The state of the loop: the array, the two lists, and the progress
    element. *)
Record BatchState (R : Type) := mkBatchState {
  state_files : list File;
  state_results : list R;
  state_errors : list ErrorEntry;
  state_shown : option Progress
}.

Arguments mkBatchState {R}.
Arguments state_files {R}.
Arguments state_results {R}.
Arguments state_errors {R}.
Arguments state_shown {R}.

(** The loop from index [i] on.  [nth_error] is the guard
    [i < files.length] together with the read of [files[i]].  In [catch]
    the array is read again: when it has become too short, [files[i]] is
    [undefined] and reading its [name] throws out of the loop.  The array
    never grows, so the loop runs at most [files.length] times; [fuel]
    counts them. *)
Fixpoint batchLoop {R : Type} (rnd : Q -> Q) (process : File -> Outcome R)
    (interference : Interference) (fuel : nat) (s : BatchState R) (i : nat)
    : Outcome (BatchState R) :=
  match nth_error (state_files s) i with
  | None => Returned s
  | Some file =>
      match fuel with
      | O => Pending
      | S fuel' =>
          match process file with
          | Returned result =>
              let files := spliced (state_files s) (interference i) in
              batchLoop rnd process interference fuel'
                (mkBatchState files (state_results s ++ [result]) (state_errors s)
                   (updateProgress rnd (Z.of_nat i + 1) (Z.of_nat (List.length files))))
                (S i)
          | Threw error =>
              let files := spliced (state_files s) (interference i) in
              match nth_error files i with
              | Some current =>
                  batchLoop rnd process interference fuel'
                    (mkBatchState files (state_results s)
                       (state_errors s ++ [mkErrorEntry (file_name current) error])
                       (state_shown s))
                    (S i)
              | None => Threw NameOfUndefined
              end
          | Pending => Pending
          end
      end
  end.

(** The loop from the start, on a page whose progress element shows
    nothing yet. *)
Definition runBatch {R : Type} (rnd : Q -> Q) (process : File -> Outcome R)
    (interference : Interference) (files : list File) : Outcome (BatchState R) :=
  batchLoop rnd process interference (List.length files)
    (mkBatchState files [] [] None) 0.

(** The object the batch returns. *)
Definition processBatch {R : Type} (rnd : Q -> Q) (process : File -> Outcome R)
    (interference : Interference) (files : list File) : Outcome (BatchResult R) :=
  s <- runBatch rnd process interference files ;;
  Returned (mkBatchResult (state_results s) (state_errors s)
              (Z.of_nat (List.length (state_files s)))
              (Z.of_nat (List.length (state_results s)))
              (Z.of_nat (List.length (state_errors s)))).

(** What the progress element shows when the batch has returned. *)
Definition batchProgress {R : Type} (rnd : Q -> Q) (process : File -> Outcome R)
    (interference : Interference) (files : list File) : Outcome (option Progress) :=
  s <- runBatch rnd process interference files ;;
  Returned (state_shown s).

(** ** ImageConverter *)

Module ImageConverter.

(** [this.supportedFormats[targetFormat]?.quality] *)
Definition formatQuality (targetFormat : string) : option Q :=
  if String.eqb targetFormat "image/jpeg" then Some (85 # 100)
  else if String.eqb targetFormat "image/png" then Some 1%Q
  else if String.eqb targetFormat "image/webp" then Some (85 # 100)
  else if String.eqb targetFormat "image/avif" then Some (85 # 100)
  else None.

(** The options object; [None] is an absent key. *)
Record Options := mkOptions {
  maxWidth : option Z;
  maxHeight : option Z;
  quality : option Q;
  keepAspectRatio : bool
}.

Record Result := mkResult {
  blob : Blob;
  filename : string;
  type : string;
  originalSize : Z;
  newSize : Z;
  resultWidth : Z;
  resultHeight : Z
}.

Section Env.

(** Rounding of the arithmetic of [updateProgress]. *)
Variable rnd : Q -> Q.

(** [imageUtils.createImageElement(URL.createObjectURL(file))] *)
Variable createImageElement : File -> Outcome Image.

(** [imageUtils.canvasToBlob(canvas, format, quality)]; [None] is the
    [null] the platform hands over when it cannot encode. *)
Variable canvasToBlob : Canvas -> string -> Q -> option Blob.

(** [quality = this.supportedFormats[targetFormat]?.quality || 0.85] *)
Definition defaultQuality (targetFormat : string) : Q :=
  match formatQuality targetFormat with
  | Some q => if Qeq_bool q 0 then 85 # 100 else q
  | None => 85 # 100
  end.

(** [convertImage(file, targetFormat, options)] *)
Definition convertImage (file : File) (targetFormat : string)
    (options : Options) : Outcome Result :=
  rethrow ConvertFailed (
    _ <- ImageUtils.validateFile file ;;
    let quality := match quality options with
                   | Some q => q
                   | None => defaultQuality targetFormat
                   end in
    img <- createImageElement file ;;
    let d := ImageUtils.calculateResizedDimensions
               (naturalWidth img) (naturalHeight img)
               (maxWidth options) (maxHeight options)
               (keepAspectRatio options) in
    let canvas := DrawImage img (width d) (height d) in
    let blob := canvasToBlob canvas targetFormat quality in
    let newFileName :=
      ImageUtils.generateFileName (file_name file) targetFormat "_converted" in
    newSize <- sizeOf blob ;;
    match blob with
    | Some b =>
        Returned (mkResult b newFileName targetFormat (file_size file) newSize
                    (width d) (height d))
    | None => Threw NullBlob
    end).

(** [convertImages(files, targetFormat, options)] *)
Definition convertImages (interference : Interference) (files : list File)
    (targetFormat : string) (options : Options) : Outcome (BatchResult Result) :=
  processBatch rnd (fun file => convertImage file targetFormat options)
    interference files.

End Env.

(** The table [recommendations] of [recommendFormat].  The keys of the
    inner objects are MIME types; the properties an object inherits are not
    MIME types, so a lookup of a MIME type misses unless the table lists
    it. *)
Definition recommendations (useCase originalFormat : string) : option string :=
  if String.eqb useCase "web" then
    if String.eqb originalFormat "image/jpeg" then Some "image/webp"%string
    else if String.eqb originalFormat "image/png" then Some "image/webp"%string
    else if String.eqb originalFormat "image/gif" then Some "image/webp"%string
    else None
  else if String.eqb useCase "print" then
    if String.eqb originalFormat "image/jpeg" then Some "image/png"%string
    else if String.eqb originalFormat "image/webp" then Some "image/png"%string
    else if String.eqb originalFormat "image/avif" then Some "image/png"%string
    else None
  else if String.eqb useCase "archive" then
    if String.eqb originalFormat "image/jpeg" then Some "image/jpeg"%string
    else if String.eqb originalFormat "image/png" then Some "image/png"%string
    else if String.eqb originalFormat "image/webp" then Some "image/webp"%string
    else None
  else None.

(** [recommendFormat(originalFormat, useCase)] *)
Definition recommendFormat (originalFormat useCase : string) : string :=
  match recommendations useCase originalFormat with
  | Some format => format
  | None => originalFormat
  end.

End ImageConverter.

(** ** ImageCompressor *)

Module ImageCompressor.

(** The options after destructuring, defaults filled in by the caller:
    quality 0.8, maxWidth null, maxHeight null, maxFileSize 0,
    keepAspectRatio true. *)
Record Options := mkOptions {
  quality : Q;
  maxWidth : option Z;
  maxHeight : option Z;
  maxFileSize : Z;
  keepAspectRatio : bool
}.

(** The result object, without [compressionRatio] (a percentage formatted
    for display). *)
Record Result := mkResult {
  blob : Blob;
  filename : string;
  type : string;
  originalSize : Z;
  newSize : Z;
  originalWidth : Z;
  originalHeight : Z;
  newWidth : Z;
  newHeight : Z
}.

(** The variables of the search loop in [iterateCompression].  [tried] is
    not a variable of the source: it lists, oldest first, the qualities the
    loop has encoded at. *)
Record Search := mkSearch {
  minQuality : Q;
  maxQuality : Q;
  bestBlob : option Blob;
  bestQuality : Q;
  tried : list Q
}.

Section Env.

(** Rounding applied to every arithmetic result and decimal literal. *)
Variable rnd : Q -> Q.

Variable createImageElement : File -> Outcome Image.
Variable canvasToBlob : Canvas -> string -> Q -> option Blob.

Definition lit (q : Q) : Q := rnd q.
Definition add (a b : Q) : Q := rnd (a + b).
Definition sub (a b : Q) : Q := rnd (a - b).
Definition mul (a b : Q) : Q := rnd (a * b).
Definition div (a b : Q) : Q := rnd (a / b).

(** The [while (maxQuality - minQuality > 0.05)] loop of
    [iterateCompression]; [fuel] bounds the number of iterations, and the
    loop is [Pending] when the guard still holds with no fuel left. *)
Fixpoint searchLoop (fuel : nat) (canvas : Canvas) (format : string)
    (targetSize : Z) (s : Search) : Outcome Search :=
  if Qgtb (sub (maxQuality s) (minQuality s)) (lit (1 # 20)) then
    match fuel with
    | O => Pending
    | S fuel' =>
        let quality := div (add (minQuality s) (maxQuality s)) 2 in
        let blob := canvasToBlob canvas format quality in
        size <- sizeOf blob ;;
        if size <=? targetSize then
          searchLoop fuel' canvas format targetSize
            (mkSearch (minQuality s) quality blob quality (tried s ++ [quality]))
        else
          searchLoop fuel' canvas format targetSize
            (mkSearch quality (maxQuality s) (bestBlob s) (bestQuality s)
               (tried s ++ [quality]))
    end
  else Returned s.

(** The loop of [compressByResizing].  It returns the blob together with
    the canvas that blob encodes. *)
Fixpoint resizeLoop (fuel : nat) (format : string) (targetSize : Z)
    (quality : Q) (currentCanvas : Canvas) (scale : Q)
    : Outcome (option Blob * Canvas) :=
  if Qgtb scale (lit (3 # 10)) then
    match fuel with
    | O => Pending
    | S fuel' =>
        let newWidth := jsRound (mul (inject_Z (canvas_width currentCanvas)) scale) in
        let newHeight := jsRound (mul (inject_Z (canvas_height currentCanvas)) scale) in
        let newCanvas := DrawCanvas currentCanvas newWidth newHeight in
        let blob := canvasToBlob newCanvas format quality in
        size <- sizeOf blob ;;
        if size <=? targetSize then Returned (blob, newCanvas)
        else resizeLoop fuel' format targetSize quality newCanvas
               (mul scale (lit (9 # 10)))
    end
  else Returned (canvasToBlob currentCanvas format (lit (1 # 10)), currentCanvas).

(** [compressByResizing(canvas, format, targetSize, quality)] *)
Definition compressByResizing (fuel : nat) (canvas : Canvas) (format : string)
    (targetSize : Z) (quality : Q) : Outcome (option Blob) :=
  r <- resizeLoop fuel format targetSize quality canvas (lit (9 # 10)) ;;
  Returned (fst r).

(** The loop variables as [iterateCompression] initialises them. *)
Definition searchStart (blob : option Blob) (initialQuality : Q) : Search :=
  mkSearch (lit (1 # 10)) initialQuality blob initialQuality [].

(** [iterateCompression(canvas, format, targetSize, initialQuality)] *)
Definition iterateCompression (fuel : nat) (canvas : Canvas) (format : string)
    (targetSize : Z) (initialQuality : Q) : Outcome (option Blob) :=
  let quality := initialQuality in
  let blob := canvasToBlob canvas format quality in
  size <- sizeOf blob ;;
  if size <=? targetSize then Returned blob
  else
    s <- searchLoop fuel canvas format targetSize (searchStart blob quality) ;;
    bestSize <- sizeOf (bestBlob s) ;;
    if bestSize >? targetSize then
      compressByResizing fuel canvas format targetSize (bestQuality s)
    else Returned (bestBlob s).

(** [compressImage(file, options)] *)
Definition compressImage (fuel : nat) (file : File) (options : Options)
    : Outcome Result :=
  rethrow CompressFailed (
    _ <- ImageUtils.validateFile file ;;
    img <- createImageElement file ;;
    let d := ImageUtils.calculateResizedDimensions
               (naturalWidth img) (naturalHeight img)
               (maxWidth options) (maxHeight options)
               (keepAspectRatio options) in
    let canvas := DrawImage img (width d) (height d) in
    let blob := canvasToBlob canvas (file_type file) (quality options) in
    blob <- (if maxFileSize options >? 0 then
               size <- sizeOf blob ;;
               if size >? maxFileSize options * 1024 then
                 iterateCompression fuel canvas (file_type file)
                   (maxFileSize options * 1024) (quality options)
               else Returned blob
             else Returned blob) ;;
    let newFileName :=
      ImageUtils.generateFileName (file_name file) (file_type file) "_compressed" in
    newSize <- sizeOf blob ;;
    match blob with
    | Some b =>
        Returned (mkResult b newFileName (file_type file) (file_size file) newSize
                    (naturalWidth img) (naturalHeight img) (width d) (height d))
    | None => Threw NullBlob
    end).

(** [compressImages(files, options)] *)
Definition compressImages (fuel : nat) (interference : Interference)
    (files : list File) (options : Options) : Outcome (BatchResult Result) :=
  processBatch rnd (fun file => compressImage fuel file options)
    interference files.

End Env.

(** An options object as [smartCompress] builds or borrows it: the three
    properties every such object has, and [maxFileSize], which is absent
    until it is assigned. *)
Record Level := mkLevel {
  level_quality : Q;
  level_maxWidth : Z;
  level_maxHeight : Z;
  level_maxFileSize : option Z
}.

(** [this.compressionLevels] *)
Record Levels := mkLevels {
  low : Level;
  medium : Level;
  high : Level;
  extreme : Level
}.

Inductive LevelName := Low | Medium | High | Extreme.

Definition getLevel (levels : Levels) (name : LevelName) : Level :=
  match name with
  | Low => low levels
  | Medium => medium levels
  | High => high levels
  | Extreme => extreme levels
  end.

Definition setLevel (levels : Levels) (name : LevelName) (l : Level) : Levels :=
  match name with
  | Low => mkLevels l (medium levels) (high levels) (extreme levels)
  | Medium => mkLevels (low levels) l (high levels) (extreme levels)
  | High => mkLevels (low levels) (medium levels) l (extreme levels)
  | Extreme => mkLevels (low levels) (medium levels) (high levels) l
  end.

(** What the variable [options] of [smartCompress] holds: a reference to
    one of the objects of [this.compressionLevels], or an object literal of
    its own. *)
Inductive OptionsRef :=
| Shared (name : LevelName)
| Fresh (o : Level).

(** The object a reference stands for. *)
Definition deref (levels : Levels) (options : OptionsRef) : Level :=
  match options with
  | Shared name => getLevel levels name
  | Fresh o => o
  end.

(** [options.maxFileSize = targetSize]: through a shared reference the
    assignment writes into [this.compressionLevels]. *)
Definition assignMaxFileSize (levels : Levels) (options : OptionsRef) (targetSize : Z)
    : Levels * OptionsRef :=
  match options with
  | Shared name =>
      let l := getLevel levels name in
      (setLevel levels name
         (mkLevel (level_quality l) (level_maxWidth l) (level_maxHeight l)
                  (Some targetSize)),
       Shared name)
  | Fresh o =>
      (levels,
       Fresh (mkLevel (level_quality o) (level_maxWidth o) (level_maxHeight o)
                      (Some targetSize)))
  end.

(** The destructuring at the head of [compressImage], for an object with
    the properties of a [Level]: [maxFileSize] defaults to 0 and
    [keepAspectRatio] to true. *)
Definition destructure (o : Level) : Options :=
  mkOptions (level_quality o) (Some (level_maxWidth o)) (Some (level_maxHeight o))
            (match level_maxFileSize o with Some v => v | None => 0 end) true.

Section Smart.

Variable rnd : Q -> Q.

(** [new Image()] with [src] set, as [getImageInfo] uses it. *)
Variable loadImage : File -> Outcome Image.
Variable createImageElement : File -> Outcome Image.
Variable canvasToBlob : Canvas -> string -> Q -> option Blob.

(** [this.compressionLevels] as the constructor sets it. *)
Definition compressionLevels : Levels :=
  mkLevels (mkLevel (lit rnd (9 # 10)) 1920 1080 None)
           (mkLevel (lit rnd (8 # 10)) 1280 720 None)
           (mkLevel (lit rnd (6 # 10)) 800 600 None)
           (mkLevel (lit rnd (4 # 10)) 640 480 None).

(** The [if] chain of [smartCompress] that picks the options by file
    size. *)
Definition chooseOptions (info : ImageUtils.ImageInfo) : OptionsRef :=
  if ImageUtils.info_size info >? 5 * 1024 * 1024 then Shared High
  else if ImageUtils.info_size info >? 2 * 1024 * 1024 then Shared Medium
  else if ImageUtils.info_size info >? 1024 * 1024 then Shared Low
  else Fresh (mkLevel (lit rnd (95 # 100)) (ImageUtils.info_width info)
                (ImageUtils.info_height info) None).

(** [smartCompress(file, targetSize)]: the compression levels after the
    call, and what the call does. *)
Definition smartCompress (fuel : nat) (levels : Levels) (file : File)
    (targetSize : option Z) : Levels * Outcome Result :=
  match ImageUtils.getImageInfo loadImage file with
  | Returned info =>
      let options := chooseOptions info in
      let '(levels, options) :=
        if truthy targetSize then
          assignMaxFileSize levels options
            (match targetSize with Some t => t | None => 0 end)
        else (levels, options) in
      (levels,
       compressImage rnd createImageElement canvasToBlob fuel file
         (destructure (deref levels options)))
  | Threw e => (levels, Threw e)
  | Pending => (levels, Pending)
  end.

End Smart.

(** The result of [getCompressionSuggestion]. *)
Record Suggestion := mkSuggestion {
  suggested_quality : Q;
  suggested_maxWidth : Z
}.

(** The table [suggestions] of [getCompressionSuggestion]. *)
Definition suggestions (useCase size : string) : option Suggestion :=
  if String.eqb useCase "web" then
    if String.eqb size "small" then Some (mkSuggestion (9 # 10) 800)
    else if String.eqb size "medium" then Some (mkSuggestion (8 # 10) 1200)
    else if String.eqb size "large" then Some (mkSuggestion (7 # 10) 1920)
    else None
  else if String.eqb useCase "mobile" then
    if String.eqb size "small" then Some (mkSuggestion (8 # 10) 400)
    else if String.eqb size "medium" then Some (mkSuggestion (7 # 10) 600)
    else if String.eqb size "large" then Some (mkSuggestion (6 # 10) 800)
    else None
  else if String.eqb useCase "print" then
    if String.eqb size "small" then Some (mkSuggestion (95 # 100) 1200)
    else if String.eqb size "medium" then Some (mkSuggestion (9 # 10) 1800)
    else if String.eqb size "large" then Some (mkSuggestion (85 # 100) 2400)
    else None
  else None.

(** [getCompressionSuggestion(fileSize, useCase)] *)
Definition getCompressionSuggestion (fileSize : Z) (useCase : string) : Suggestion :=
  let size :=
    if fileSize <? 1024 * 1024 then "small"%string
    else if fileSize <? 5 * 1024 * 1024 then "medium"%string
    else "large"%string in
  match suggestions useCase size with
  | Some s => s
  | None => mkSuggestion (8 # 10) 1200
  end.

End ImageCompressor.

(** ** ImageCropper, in exact arithmetic

    The crop computation without rounding, for a canvas whose sides are not
    0.  [Rounded] below has the whole cropper on doubles. *)

Module ImageCropper.

(** [this.cropBox], in display-canvas coordinates. *)
Record CropBox := mkCropBox {
  box_x : Q;
  box_y : Q;
  box_width : Q;
  box_height : Q
}.

(** The fields of the cropper that the crop computation reads. *)
Record Cropper := mkCropper {
  originalImage : option Image;
  cropCanvas : Dimensions;
  cropBox : CropBox;
  aspectRatio : option string
}.

(** The constructor's state. *)
Definition newCropper : Cropper :=
  mkCropper None (mkDimensions 0 0) (mkCropBox 0 0 0 0) None.

(** [initCropBox()]: the box is the middle 80% of the canvas. *)
Definition initCropBox (c : Cropper) : Cropper :=
  let canvasWidth := inject_Z (width (cropCanvas c)) in
  let canvasHeight := inject_Z (height (cropCanvas c)) in
  mkCropper (originalImage c) (cropCanvas c)
    (mkCropBox (canvasWidth * (1 # 10)) (canvasHeight * (1 # 10))
               (canvasWidth * (8 # 10)) (canvasHeight * (8 # 10)))
    (aspectRatio c).

(** [initCrop(file)], for a page that has the crop canvas element. *)
Definition initCrop (createImageElement : File -> Outcome Image)
    (c : Cropper) (file : File) : Outcome Cropper :=
  rethrow CropInitFailed (
    _ <- ImageUtils.validateFile file ;;
    img <- createImageElement file ;;
    let maxWidth := 600 in
    let maxHeight := 400 in
    let d := ImageUtils.calculateResizedDimensions
               (naturalWidth img) (naturalHeight img)
               (Some maxWidth) (Some maxHeight) true in
    Returned (initCropBox (mkCropper (Some img) d (cropBox c) (aspectRatio c)))).

(** [selectAll()] *)
Definition selectAll (c : Cropper) : Cropper :=
  mkCropper (originalImage c) (cropCanvas c)
    (mkCropBox 0 0 (inject_Z (width (cropCanvas c)))
               (inject_Z (height (cropCanvas c))))
    (aspectRatio c).

(** The source rectangle [applyCrop] hands to [drawImage]. *)
Record CropRegion := mkCropRegion {
  cropX : Z;
  cropY : Z;
  cropWidth : Z;
  cropHeight : Z
}.

(** The four constants [cropX], [cropY], [cropWidth], [cropHeight] of
    [applyCrop]. *)
Definition cropRegion (img : Image) (c : Cropper) : CropRegion :=
  let scaleX := (inject_Z (naturalWidth img) / inject_Z (width (cropCanvas c)))%Q in
  let scaleY := (inject_Z (naturalHeight img) / inject_Z (height (cropCanvas c)))%Q in
  mkCropRegion
    (jsRound (box_x (cropBox c) * scaleX))
    (jsRound (box_y (cropBox c) * scaleY))
    (jsRound (box_width (cropBox c) * scaleX))
    (jsRound (box_height (cropBox c) * scaleY)).

Record CropResult := mkCropResult {
  crop_blob : option Blob;
  crop_width : Z;
  crop_height : Z
}.

(** [applyCrop()]; an image element has no [type], so the format is
    'image/jpeg' and the quality the default 0.85. *)
Definition applyCrop (canvasToBlob : Canvas -> string -> Q -> option Blob)
    (c : Cropper) : Outcome CropResult :=
  match originalImage c with
  | None => Threw NoImageToCrop
  | Some img =>
      let r := cropRegion img c in
      let canvas :=
        DrawRegion img (cropX r) (cropY r) (cropWidth r) (cropHeight r)
          (cropWidth r) (cropHeight r) in
      let blob := canvasToBlob canvas "image/jpeg"%string (85 # 100) in
      Returned (mkCropResult blob (cropWidth r) (cropHeight r))
  end.

End ImageCropper.

(** ** The resize computation and the cropper on doubles

    [calculateResizedDimensions] and the class [ImageCropper] with every
    arithmetic result rounded by [rnd] and with the Numbers that are not
    finite: a canvas side of 0 makes a scale factor infinite, and an
    inherited member used as a ratio makes a height NaN. *)

Module Rounded.

(** What [calculateResizedDimensions] returns. *)
Record Size := mkSize {
  size_width : Number;
  size_height : Number
}.

(** [this.cropBox], in display-canvas coordinates. *)
Record CropBox := mkCropBox {
  box_x : Number;
  box_y : Number;
  box_width : Number;
  box_height : Number
}.

(** The cropper: the fields the crop computation and the pointer handlers
    read and write. *)
Record Cropper := mkCropper {
  originalImage : option Image;
  cropCanvas : Dimensions;
  cropBox : CropBox;
  aspectRatio : option string;
  isDragging : bool;
  dragStart : Q * Q
}.

(** The constructor's state. *)
Definition newCropper : Cropper :=
  mkCropper None (mkDimensions 0 0)
    (mkCropBox (Number.int 0) (Number.int 0) (Number.int 0) (Number.int 0))
    None false (0, 0)%Q.

(** The source rectangle [applyCrop] hands to [drawImage]. *)
Record CropRegion := mkCropRegion {
  cropX : Number;
  cropY : Number;
  cropWidth : Number;
  cropHeight : Number
}.

Record CropResult := mkCropResult {
  crop_blob : option Blob;
  crop_width : Number;
  crop_height : Number
}.

(** The events [bindEvents] listens to on the crop canvas; the positions
    are [clientX - rect.left] and [clientY - rect.top], finite doubles.
    [initCrop] registers the listeners once more each time it runs; an
    event then runs its handler once per registration, which is the event
    arriving that many times. *)
Inductive PointerEvent :=
| MouseDown (x y : Q)
| MouseMove (x y : Q)
| MouseUp
| TouchStart (touches : list (Q * Q))
| TouchMove (touches : list (Q * Q))
| TouchEnd.

(** A pixel bound that passed a truthiness test, as a Number. *)
Definition bound (m : option Z) : Number :=
  match m with
  | Some n => Number.int n
  | None => Number.int 0
  end.

(** What the side of a canvas is after [canvas.width = value] (default
    300) or [canvas.height = value] (default 150): the value as an
    [unsigned long] when that is at most 2^31 - 1, the default
    otherwise. *)
Definition canvasSide (default : Z) (value : Number) : Z :=
  let n := Number.toUint32 value in
  if n <=? 2147483647 then n else default.

(** The canvas [applyCrop] encodes: [createCanvas(cropWidth, cropHeight)]
    and the nine-argument [drawImage], which draws nothing when one of its
    arguments is not finite. *)
Definition croppedCanvas (img : Image) (r : CropRegion) : Canvas :=
  let w := canvasSide 300 (cropWidth r) in
  let h := canvasSide 150 (cropHeight r) in
  match Number.toInt (cropX r), Number.toInt (cropY r),
        Number.toInt (cropWidth r), Number.toInt (cropHeight r) with
  | Some sx, Some sy, Some sw, Some sh => DrawRegion img sx sy sw sh w h
  | _, _, _, _ => Blank w h
  end.

Section Arithmetic.

(** Rounding applied to every finite arithmetic result and decimal
    literal. *)
Variable rnd : Q -> Q.

(** [calculateResizedDimensions(originalWidth, originalHeight, maxWidth,
    maxHeight, keepAspectRatio)] *)
Definition calculateResizedDimensions
    (originalWidth originalHeight : Z) (maxWidth maxHeight : option Z)
    (keepAspectRatio : bool) : Size :=
  if negb (truthy maxWidth) && negb (truthy maxHeight) then
    mkSize (Number.int originalWidth) (Number.int originalHeight)
  else
    let width := Number.int originalWidth in
    let height := Number.int originalHeight in
    let '(width, height) :=
      if keepAspectRatio then
        let aspectRatio := Number.div rnd width height in
        if truthy maxWidth && truthy maxHeight then
          let '(width, height) :=
            if Number.gtb width (bound maxWidth)
            then (bound maxWidth, Number.div rnd (bound maxWidth) aspectRatio)
            else (width, height) in
          if Number.gtb height (bound maxHeight)
          then (Number.mul rnd (bound maxHeight) aspectRatio, bound maxHeight)
          else (width, height)
        else if truthy maxWidth then
          if Number.gtb width (bound maxWidth)
          then (bound maxWidth, Number.div rnd (bound maxWidth) aspectRatio)
          else (width, height)
        else if truthy maxHeight then
          if Number.gtb height (bound maxHeight)
          then (Number.mul rnd (bound maxHeight) aspectRatio, bound maxHeight)
          else (width, height)
        else (width, height)
      else
        let width :=
          if truthy maxWidth then Number.min width (bound maxWidth) else width in
        let height :=
          if truthy maxHeight then Number.min height (bound maxHeight) else height in
        (width, height) in
    mkSize (Number.round width) (Number.round height).

(** [initCropBox()]: the box is the middle 80% of the canvas.  It leaves
    [isDragging] and [dragStart] as they are. *)
Definition initCropBox (c : Cropper) : Cropper :=
  let canvasWidth := Number.int (width (cropCanvas c)) in
  let canvasHeight := Number.int (height (cropCanvas c)) in
  mkCropper (originalImage c) (cropCanvas c)
    (mkCropBox (Number.mul rnd canvasWidth (Number.lit rnd (1 # 10)))
               (Number.mul rnd canvasHeight (Number.lit rnd (1 # 10)))
               (Number.mul rnd canvasWidth (Number.lit rnd (8 # 10)))
               (Number.mul rnd canvasHeight (Number.lit rnd (8 # 10))))
    (aspectRatio c) (isDragging c) (dragStart c).

(** [initCrop(file)], for a page that has the crop canvas element.  Every
    error is thrown again with the prefix of the initialisation. *)
Definition initCrop (createImageElement : File -> Outcome Image)
    (c : Cropper) (file : File) : Outcome Cropper :=
  rethrow CropInitFailed (
    _ <- ImageUtils.validateFile file ;;
    img <- createImageElement file ;;
    let maxWidth := 600 in
    let maxHeight := 400 in
    let size := calculateResizedDimensions
                  (naturalWidth img) (naturalHeight img)
                  (Some maxWidth) (Some maxHeight) true in
    let canvas := mkDimensions (canvasSide 300 (size_width size))
                               (canvasSide 150 (size_height size)) in
    Returned (initCropBox (mkCropper (Some img) canvas (cropBox c) (aspectRatio c)
                             (isDragging c) (dragStart c)))).

(** [moveCropBox(deltaX, deltaY)] *)
Definition moveCropBox (c : Cropper) (deltaX deltaY : Number) : Cropper :=
  let b := cropBox c in
  let newX := Number.add rnd (box_x b) deltaX in
  let newY := Number.add rnd (box_y b) deltaY in
  let x :=
    if Number.geb newX (Number.int 0)
       && Number.leb (Number.add rnd newX (box_width b))
                     (Number.int (width (cropCanvas c)))
    then newX else box_x b in
  let y :=
    if Number.geb newY (Number.int 0)
       && Number.leb (Number.add rnd newY (box_height b))
                     (Number.int (height (cropCanvas c)))
    then newY else box_y b in
  mkCropper (originalImage c) (cropCanvas c)
    (mkCropBox x y (box_width b) (box_height b))
    (aspectRatio c) (isDragging c) (dragStart c).

(** [ratios[ratio]] in [setAspectRatio]. *)
Definition ratios (ratio : string) : Lookup Number :=
  if String.eqb ratio "1:1" then Own (Number.int 1)
  else if String.eqb ratio "4:3" then Own (Number.div rnd (Number.int 4) (Number.int 3))
  else if String.eqb ratio "16:9" then Own (Number.div rnd (Number.int 16) (Number.int 9))
  else if String.eqb ratio "3:2" then Own (Number.div rnd (Number.int 3) (Number.int 2))
  else if ImageUtils.includes objectMembers ratio then Inherited
  else Undefined.

(** [setAspectRatio(ratio)].  An inherited member is an object: it is
    truthy, and as a divisor it is NaN. *)
Definition setAspectRatio (c : Cropper) (ratio : string) : Cropper :=
  if String.eqb ratio "free" then
    mkCropper (originalImage c) (cropCanvas c) (cropBox c) None
      (isDragging c) (dragStart c)
  else
    let b := cropBox c in
    let unchanged :=
      mkCropper (originalImage c) (cropCanvas c) b (Some ratio)
        (isDragging c) (dragStart c) in
    let divided (targetRatio : Number) :=
      mkCropper (originalImage c) (cropCanvas c)
        (mkCropBox (box_x b) (box_y b) (box_width b)
                   (Number.div rnd (box_width b) targetRatio))
        (Some ratio) (isDragging c) (dragStart c) in
    match ratios ratio with
    | Own targetRatio =>
        if Number.truthy targetRatio then divided targetRatio else unchanged
    | Inherited => divided NaN
    | Undefined => unchanged
    end.

(** [selectAll()] *)
Definition selectAll (c : Cropper) : Cropper :=
  mkCropper (originalImage c) (cropCanvas c)
    (mkCropBox (Number.int 0) (Number.int 0)
               (Number.int (width (cropCanvas c)))
               (Number.int (height (cropCanvas c))))
    (aspectRatio c) (isDragging c) (dragStart c).

(** [resetCrop()] *)
Definition resetCrop (c : Cropper) : Cropper := initCropBox c.

(** The [change] handler of the four numeric inputs: [value] is
    [parseInt(this.value) || 0], the double nearest to an integer, stored
    without a bounds check. *)
Definition onCropInput (c : Cropper) (id : string) (value : Z) : Cropper :=
  let b := cropBox c in
  let v := Number.lit rnd (inject_Z value) in
  let b' :=
    if String.eqb id "cropX" then mkCropBox v (box_y b) (box_width b) (box_height b)
    else if String.eqb id "cropY" then mkCropBox (box_x b) v (box_width b) (box_height b)
    else if String.eqb id "cropWidth" then mkCropBox (box_x b) (box_y b) v (box_height b)
    else if String.eqb id "cropHeight" then mkCropBox (box_x b) (box_y b) (box_width b) v
    else b in
  mkCropper (originalImage c) (cropCanvas c) b' (aspectRatio c)
    (isDragging c) (dragStart c).

(** The four constants [cropX], [cropY], [cropWidth], [cropHeight] of
    [applyCrop]. *)
Definition cropRegion (img : Image) (c : Cropper) : CropRegion :=
  let scaleX :=
    Number.div rnd (Number.int (naturalWidth img))
      (Number.int (width (cropCanvas c))) in
  let scaleY :=
    Number.div rnd (Number.int (naturalHeight img))
      (Number.int (height (cropCanvas c))) in
  mkCropRegion
    (Number.round (Number.mul rnd (box_x (cropBox c)) scaleX))
    (Number.round (Number.mul rnd (box_y (cropBox c)) scaleY))
    (Number.round (Number.mul rnd (box_width (cropBox c)) scaleX))
    (Number.round (Number.mul rnd (box_height (cropBox c)) scaleY)).

(** [applyCrop()]; an image element has no [type], so the format is
    'image/jpeg' and the quality the default 0.85. *)
Definition applyCrop (canvasToBlob : Canvas -> string -> Q -> option Blob)
    (c : Cropper) : Outcome CropResult :=
  match originalImage c with
  | None => Threw NoImageToCrop
  | Some img =>
      let r := cropRegion img c in
      let canvas := croppedCanvas img r in
      let blob := canvasToBlob canvas "image/jpeg"%string (rnd (85 # 100)) in
      Returned (mkCropResult blob (cropWidth r) (cropHeight r))
  end.

(** [onMouseDown(e)] *)
Definition onMouseDown (c : Cropper) (x y : Q) : Cropper :=
  mkCropper (originalImage c) (cropCanvas c) (cropBox c) (aspectRatio c)
    true (x, y).

(** The body of [onMouseMove] and [onTouchMove] once the position is
    known. *)
Definition dragTo (c : Cropper) (currentX currentY : Q) : Cropper :=
  let deltaX := Number.sub rnd (Finite currentX) (Finite (fst (dragStart c))) in
  let deltaY := Number.sub rnd (Finite currentY) (Finite (snd (dragStart c))) in
  let moved := moveCropBox c deltaX deltaY in
  mkCropper (originalImage moved) (cropCanvas moved) (cropBox moved)
    (aspectRatio moved) (isDragging moved) (currentX, currentY).

(** [onMouseMove(e)] *)
Definition onMouseMove (c : Cropper) (currentX currentY : Q) : Cropper :=
  if negb (isDragging c) then c else dragTo c currentX currentY.

(** [onMouseUp(e)] *)
Definition onMouseUp (c : Cropper) : Cropper :=
  mkCropper (originalImage c) (cropCanvas c) (cropBox c) (aspectRatio c)
    false (dragStart c).

(** [onTouchStart(e)]; [touches] lists the positions of [e.touches]. *)
Definition onTouchStart (c : Cropper) (touches : list (Q * Q)) : Cropper :=
  match touches with
  | [touch] =>
      mkCropper (originalImage c) (cropCanvas c) (cropBox c) (aspectRatio c)
        true touch
  | _ => c
  end.

(** [onTouchMove(e)] *)
Definition onTouchMove (c : Cropper) (touches : list (Q * Q)) : Cropper :=
  if negb (isDragging c) then c
  else
    match touches with
    | [(currentX, currentY)] => dragTo c currentX currentY
    | _ => c
    end.

(** [onTouchEnd(e)] *)
Definition onTouchEnd (c : Cropper) : Cropper :=
  mkCropper (originalImage c) (cropCanvas c) (cropBox c) (aspectRatio c)
    false (dragStart c).

(** The listener [bindEvents] registered for an event. *)
Definition dispatch (c : Cropper) (e : PointerEvent) : Cropper :=
  match e with
  | MouseDown x y => onMouseDown c x y
  | MouseMove x y => onMouseMove c x y
  | MouseUp => onMouseUp c
  | TouchStart touches => onTouchStart c touches
  | TouchMove touches => onTouchMove c touches
  | TouchEnd => onTouchEnd c
  end.

End Arithmetic.

End Rounded.

(** ** WatermarkProcessor *)

Module WatermarkProcessor.

Record Point := mkPoint {
  px : Q;
  py : Q
}.

(** [calculatePosition(canvasWidth, canvasHeight, watermarkWidth,
    watermarkHeight, position, padding)] *)
Definition calculatePosition
    (canvasWidth canvasHeight watermarkWidth watermarkHeight : Q)
    (position : string) (padding : Q) : Point :=
  (if String.eqb position "top-left" then
     mkPoint padding (padding + watermarkHeight)
   else if String.eqb position "top-right" then
     mkPoint (canvasWidth - watermarkWidth - padding) (padding + watermarkHeight)
   else if String.eqb position "bottom-left" then
     mkPoint padding (canvasHeight - padding)
   else if String.eqb position "bottom-right" then
     mkPoint (canvasWidth - watermarkWidth - padding) (canvasHeight - padding)
   else if String.eqb position "center" then
     mkPoint ((canvasWidth - watermarkWidth) / 2) ((canvasHeight + watermarkHeight) / 2)
   else
     mkPoint (canvasWidth - watermarkWidth - padding) (canvasHeight - padding))%Q.







(** The inner loop of [createRepeatingWatermark],
    [for (let x = 0; x < canvas.width; x += spacing)], from [x] on: the
    points the text is stamped at, in row [y].  The loop is [Pending] when
    its guard still holds with no fuel left. *)
Fixpoint stampRow (fuel : nat) (canvasWidth spacing x y : Z) (stamps : list (Z * Z))
    : Outcome (list (Z * Z)) :=
  if x <? canvasWidth then
    match fuel with
    | O => Pending
    | S fuel' =>
        stampRow fuel' canvasWidth spacing (x + spacing) y (stamps ++ [(x, y)])
    end
  else Returned stamps.

(** The outer loop, [for (let y = 0; y < canvas.height; y += spacing)],
    from [y] on; [rowFuel] bounds each run of the inner loop. *)
Fixpoint stampRows (fuel rowFuel : nat) (canvasWidth canvasHeight spacing y : Z)
    (stamps : list (Z * Z)) : Outcome (list (Z * Z)) :=
  if y <? canvasHeight then
    match fuel with
    | O => Pending
    | S fuel' =>
        stamps <- stampRow rowFuel canvasWidth spacing 0 y stamps ;;
        stampRows fuel' rowFuel canvasWidth canvasHeight spacing (y + spacing) stamps
    end
  else Returned stamps.

(** What [createRepeatingWatermark] returns, with the points it stamped
    the text at in place of [blob]: [Canvas] does not record text, so the
    stamped canvas is known by its stamps. *)
Record Repeating := mkRepeating {
  repeating_stamps : list (Z * Z);
  repeating_filename : string;
  repeating_type : string
}.

(** [createRepeatingWatermark(file, options)] for an integer [spacing]. *)
Definition createRepeatingWatermark (createImageElement : File -> Outcome Image)
    (fuel : nat) (file : File) (spacing : Z) : Outcome Repeating :=
  img <- createImageElement file ;;
  let canvas := DrawImage img (naturalWidth img) (naturalHeight img) in
  stamps <- stampRows fuel fuel (canvas_width canvas) (canvas_height canvas) spacing 0 [] ;;
  Returned (mkRepeating stamps
              (ImageUtils.generateFileName (file_name file) (file_type file)
                 "_repeating_watermark")
              (file_type file)).

End WatermarkProcessor.

(** ** GIFProcessor *)

Module GIFProcessor.

Record Frame := mkFrame {
  frame_blob : option Blob;
  frame_filename : string;
  frame_number : Z
}.

Record GIFInfo := mkGIFInfo {
  info_width : Z;
  info_height : Z;
  info_frameCount : Z;
  info_totalHeight : Z;
  info_fileSize : Z;
  info_type : string
}.

(** [Math.ceil(img.naturalHeight / img.naturalWidth)] *)
Definition frameCountOf (img : Image) : Z :=
  jsCeil (inject_Z (naturalHeight img) / inject_Z (naturalWidth img)).

(** Decimal digits of an integer, as in a template literal. *)
Definition decimal (n : Z) : string := NilZero.string_of_int (Z.to_int n).

Section Env.

(** [new Image()] with [src] set: [onload] or [onerror]. *)
Variable loadImage : File -> Outcome Image.
Variable canvasToBlob : Canvas -> string -> Q -> option Blob.

(** The [for (i = 0; i < frameCount; i++)] loop of [extractFrames], from
    index [i] on: it lists the frames the [toBlob] callbacks will push, in
    the order the calls were made. *)
Fixpoint sliceFrames (remaining : nat) (img : Image) (quality : Q) (i : Z)
    : list Frame :=
  match remaining with
  | O => []
  | S remaining' =>
      let canvas :=
        DrawRegion img 0 (i * naturalWidth img) (naturalWidth img) (naturalWidth img)
          (naturalWidth img) (naturalWidth img) in
      let blob := canvasToBlob canvas "image/png"%string quality in
      mkFrame blob ("frame_" ++ decimal (i + 1) ++ ".png")%string (i + 1)
        :: sliceFrames remaining' img quality (i + 1)
  end.

(** The callbacks run one after the other; each pushes its frame and
    resolves the promise when [frames.length === frameCount]. *)
Fixpoint deliver (callbacks : list Frame) (frames : list Frame) (frameCount : Z)
    : Outcome (list Frame) :=
  match callbacks with
  | [] => Pending
  | f :: rest =>
      let frames := frames ++ [f] in
      if Z.of_nat (List.length frames) =? frameCount then Returned frames
      else deliver rest frames frameCount
  end.

(** [extractFrames(file, options)] *)
Definition extractFrames (file : File) (quality : Q) : Outcome (list Frame) :=
  img <- loadImage file ;;
  let frameCount := frameCountOf img in
  deliver (sliceFrames (Z.to_nat frameCount) img quality 0) [] frameCount.

(** [getGIFInfo(file)] *)
Definition getGIFInfo (file : File) : Outcome GIFInfo :=
  img <- loadImage file ;;
  let frameCount := frameCountOf img in
  Returned (mkGIFInfo (naturalWidth img) (naturalWidth img) frameCount
              (naturalHeight img) (file_size file) (file_type file)).

End Env.

End GIFProcessor.

(** ** Specification vocabulary *)

(** The output keeps the ratio [W : H] to within one pixel: the height is
    within one pixel of [width * H / W], or the width within one pixel of
    [height * W / H]. *)
Definition aspectPreserved (W H : Z) (d : Dimensions) : Prop :=
  Z.abs (height d * W - width d * H) <= W \/
  Z.abs (width d * H - height d * W) <= H.

(** What the batch loop records for one file: a result, an error entry, or
    nothing when the call never settles. *)
Definition recorded {R : Type} (process : File -> Outcome R) (file : File)
    : option (R + ErrorEntry) :=
  match process file with
  | Returned result => Some (inl result)
  | Threw error => Some (inr (mkErrorEntry (file_name file) error))
  | Pending => None
  end.

(** The results of the files whose call returned, in input order. *)
Fixpoint successes {R : Type} (process : File -> Outcome R) (files : list File)
    : list R :=
  match files with
  | [] => []
  | file :: rest =>
      match process file with
      | Returned result => result :: successes process rest
      | _ => successes process rest
      end
  end.

(** The entries of the files whose call threw, in input order. *)
Fixpoint failures {R : Type} (process : File -> Outcome R) (files : list File)
    : list ErrorEntry :=
  match files with
  | [] => []
  | file :: rest =>
      match process file with
      | Threw error => mkErrorEntry (file_name file) error :: failures process rest
      | _ => failures process rest
      end
  end.

(** The batch invariant: the counts add up, and the two lists together hold
    exactly one record per input file. *)
Definition batchInvariant {R : Type} (process : File -> Outcome R)
    (files : list File) (r : BatchResult R) : Prop :=
  total r = Z.of_nat (List.length files) /\
  success r = Z.of_nat (List.length (results r)) /\
  failed r = Z.of_nat (List.length (errors r)) /\
  success r + failed r = total r /\
  results r = successes process files /\
  errors r = failures process files /\
  Permutation (map Some (map inl (results r) ++ map inr (errors r)))
              (map (recorded process) files).

(** The search has settled and ran at most [k] more iterations than [s]
    records. *)
Definition settledWithin (k : nat) (s : ImageCompressor.Search)
    (o : Outcome ImageCompressor.Search) : Prop :=
  match o with
  | Returned s' =>
      (List.length (ImageCompressor.tried s')
       <= List.length (ImageCompressor.tried s) + k)%nat
  | Threw _ => True
  | Pending => False
  end.

(** A width of the search interval that the loop is sure to leave within
    [k] iterations. *)
Definition widthBudget (k : nat) : Q :=
  ((48 # 1000) * inject_Z (2 ^ Z.of_nat k) + (1 # 1000))%Q.

(** The candidate encoded at quality [q] fits under the ceiling. *)
Definition fits (canvasToBlob : Canvas -> string -> Q -> option Blob)
    (canvas : Canvas) (format : string) (targetSize : Z) (q : Q) : Prop :=
  exists b, canvasToBlob canvas format q = Some b /\ blob_size b <= targetSize.

(** The widths of the canvases a canvas was drawn from, oldest first. *)
Fixpoint widthHistory (c : Canvas) : list Z :=
  match c with
  | DrawImage _ w _ => [w]
  | DrawCanvas src w _ => widthHistory src ++ [w]
  | DrawRegion _ _ _ _ _ w _ => [w]
  | Blank w _ => [w]
  end.

(** 2^-52, the spacing of the doubles just above 1. *)
Definition ulp64 : Q := 1 # 4503599627370496.

(** What the user can do to the crop box through the operations that check
    or reset its bounds; the distances of a drag are any two Numbers. *)
Inductive Gesture :=
| ResetBox
| SelectWhole
| Drag (deltaX deltaY : Number).

Definition perform (rnd : Q -> Q) (c : Rounded.Cropper) (g : Gesture)
    : Rounded.Cropper :=
  match g with
  | ResetBox => Rounded.resetCrop rnd c
  | SelectWhole => Rounded.selectAll c
  | Drag deltaX deltaY => Rounded.moveCropBox rnd c deltaX deltaY
  end.

(** The cropper after [initCropBox] and a sequence of gestures. *)
Definition session (rnd : Q -> Q) (c : Rounded.Cropper) (gestures : list Gesture)
    : Rounded.Cropper :=
  fold_left (perform rnd) gestures (Rounded.initCropBox rnd c).

(** The cropper after [initCropBox] and a sequence of pointer events. *)
Definition pointerSession (rnd : Q -> Q) (c : Rounded.Cropper)
    (events : list Rounded.PointerEvent) : Rounded.Cropper :=
  fold_left (Rounded.dispatch rnd) events (Rounded.initCropBox rnd c).

(** The crop box is four finite Numbers, its sides are not negative, and
    it lies inside the display canvas up to [slack] parts of the canvas
    side. *)
Definition insideCanvasUpTo (slack : Q) (c : Rounded.Cropper) : Prop :=
  exists x y w h,
    Rounded.cropBox c = Rounded.mkCropBox (Finite x) (Finite y) (Finite w) (Finite h) /\
    (0 <= x /\ 0 <= y /\ 0 <= w /\ 0 <= h /\
     x + w <= inject_Z (width (Rounded.cropCanvas c)) * (1 + slack) /\
     y + h <= inject_Z (height (Rounded.cropCanvas c)) * (1 + slack))%Q.

(** The box lies inside the canvas. *)
Definition insideCanvas (c : Rounded.Cropper) : Prop := insideCanvasUpTo 0 c.

(** The box lies inside the canvas up to the rounding of a sum: by at most
    one part in 2^52 of the canvas side. *)
Definition almostInsideCanvas (c : Rounded.Cropper) : Prop :=
  insideCanvasUpTo ulp64 c.

(** The region is four integers, and the rectangle they describe leaves
    the source image by at most [overshoot] pixels on the right and at the
    bottom. *)
Definition withinSource (overshoot : Z) (img : Image) (r : Rounded.CropRegion) : Prop :=
  exists x y w h,
    r = Rounded.mkCropRegion (Number.int x) (Number.int y) (Number.int w) (Number.int h) /\
    0 <= x /\ 0 <= y /\
    x + w <= naturalWidth img + overshoot /\
    y + h <= naturalHeight img + overshoot.

(** The region lies inside the source image. *)
Definition insideSource (img : Image) (r : Rounded.CropRegion) : Prop :=
  withinSource 0 img r.

(** The box has the size [initCropBox] or [selectAll] gave it and lies
    inside the canvas up to rounding. *)
Definition standardBox (rnd : Q -> Q) (c : Rounded.Cropper) : Prop :=
  almostInsideCanvas c /\
  (Rounded.box_width (Rounded.cropBox c)
   = Number.mul rnd (Number.int (width (Rounded.cropCanvas c))) (Number.lit rnd (8 # 10)) \/
   Rounded.box_width (Rounded.cropBox c) = Number.int (width (Rounded.cropCanvas c))) /\
  (Rounded.box_height (Rounded.cropBox c)
   = Number.mul rnd (Number.int (height (Rounded.cropCanvas c))) (Number.lit rnd (8 # 10)) \/
   Rounded.box_height (Rounded.cropBox c) = Number.int (height (Rounded.cropCanvas c))).

(** What no pointer handler touches: the image, the canvas, the chosen
    ratio and the size of the box. *)
Definition sameFrame (c c' : Rounded.Cropper) : Prop :=
  Rounded.originalImage c' = Rounded.originalImage c /\
  Rounded.cropCanvas c' = Rounded.cropCanvas c /\
  Rounded.aspectRatio c' = Rounded.aspectRatio c /\
  Rounded.box_width (Rounded.cropBox c') = Rounded.box_width (Rounded.cropBox c) /\
  Rounded.box_height (Rounded.cropBox c') = Rounded.box_height (Rounded.cropBox c).

(** The event begins a drag. *)
Definition pressed (e : Rounded.PointerEvent) : bool :=
  match e with
  | Rounded.MouseDown _ _ => true
  | Rounded.TouchStart [_] => true
  | _ => false
  end.

(** The ratios [setAspectRatio] knows by name, as exact fractions. *)
Definition namedRatios : list (string * Q) :=
  [("1:1"%string, 1%Q); ("4:3"%string, 4 # 3); ("16:9"%string, 16 # 9);
   ("3:2"%string, 3 # 2)].

(** The pixel bounds of a resize stay below 2^31 in size: a canvas side is
    at most 2^31 - 1. *)
Definition maxSide : Z := 2 ^ 31.

(** [naturalWidth] and [naturalHeight] are [unsigned long] attributes:
    below 2^32. *)
Definition maxNatural : Z := 2 ^ 32.



(** A scale from which the resize loop is sure to stop within [k] steps. *)
Definition scaleBudget (k : nat) : Q :=
  ((2999 # 10000) * (10000 # 9001) ^ Z.of_nat k)%Q.

(** The resize loop has settled, after at most [k] more canvases than [c]
    was drawn through. *)
Definition resizedWithin (k : nat) (c : Canvas)
    (o : Outcome (option Blob * Canvas)) : Prop :=
  match o with
  | Returned (_, c') =>
      (List.length (widthHistory c') <= List.length (widthHistory c) + k)%nat
  | Threw e => e = NullBlob
  | Pending => False
  end.

(** The canvas a chain of [drawImage(canvas, ...)] calls started from. *)
Fixpoint origin (c : Canvas) : Canvas :=
  match c with
  | DrawCanvas src _ _ => origin src
  | other => other
  end.

(** [final] was drawn, through any number of canvases, from [canvas], and
    is no larger. *)
Definition shrunkFrom (canvas final : Canvas) : Prop :=
  origin final = origin canvas /\
  0 <= canvas_width final <= canvas_width canvas /\
  0 <= canvas_height final <= canvas_height canvas.

(** The blob respects the ceiling. *)
Definition underCeiling (targetSize : Z) (blob : option Blob) : Prop :=
  exists b, blob = Some b /\ blob_size b <= targetSize.

(** What every action keeps: the selected files pass [validateFile], and
    [window.selectedFiles] holds what [this.selectedFiles] does once it is
    defined. *)
Definition selectionValid (app : ImageProcessorApp.App) : Prop :=
  (forall file, In file (ImageProcessorApp.selectedFiles app) ->
     ImageUtils.validateFile file = Returned true) /\
  (ImageProcessorApp.windowSelectedFiles app
   = Some (ImageProcessorApp.selectedFiles app) \/
   ImageProcessorApp.windowSelectedFiles app = None /\
   ImageProcessorApp.selectedFiles app = []).

(** The position, counted from [i + 1], of the last file whose call
    returned; [last] when there is none. *)
Fixpoint lastSuccess {R : Type} (process : File -> Outcome R) (files : list File)
    (i last : Z) : Z :=
  match files with
  | [] => last
  | file :: rest =>
      match process file with
      | Returned _ => lastSuccess process rest (i + 1) (i + 1)
      | _ => lastSuccess process rest (i + 1) last
      end
  end.

(** What the progress element shows once the loop has gone through
    [rest], the files from position [i] on, in an array of [total] files
    that nobody touches. *)
Fixpoint shownAfter {R : Type} (rnd : Q -> Q) (process : File -> Outcome R)
    (rest : list File) (i total : Z) (shown : option Progress) : option Progress :=
  match rest with
  | [] => shown
  | file :: rest' =>
      match process file with
      | Returned _ =>
          shownAfter rnd process rest' (i + 1) total (updateProgress rnd (i + 1) total)
      | _ => shownAfter rnd process rest' (i + 1) total shown
      end
  end.

(** ceil(a / b) for a positive [b]. *)
Definition ceilDiv (a b : Z) : Z := (a + b - 1) / b.

(** The points [(i * spacing, y)] for [i] below [n]. *)
Definition rowPoints (n : nat) (spacing y : Z) : list (Z * Z) :=
  map (fun i => (Z.of_nat i * spacing, y)) (seq 0 n).

(** The grid of [columns] by [rows] points, row by row. *)
Definition gridPoints (columns rows : nat) (spacing : Z) : list (Z * Z) :=
  flat_map (fun j => rowPoints columns spacing (Z.of_nat j * spacing)) (seq 0 rows).

(** The application after a sequence of actions. *)
Definition appSession (actions : list ImageProcessorApp.Action)
    : ImageProcessorApp.App :=
  fold_left ImageProcessorApp.act actions ImageProcessorApp.newApp.

(** ** Sample inputs *)

(** A 1000x1000 picture drawn at full size. *)
Definition pictureFile : File := mkFile "picture.jpg" "image/jpeg" 2097152.
Definition picture : Image := mkImage pictureFile 1000 1000.
Definition pictureCanvas : Canvas := DrawImage picture 1000 1000.

Definition loadPicture (file : File) : Outcome Image := Returned picture.

(** An encoder whose output grows with the quality: a million bytes per
    unit. *)
Definition byQuality (c : Canvas) (format : string) (quality : Q) : option Blob :=
  Some (mkBlob (Qfloor (quality * 1000000)) format).

(** An encoder whose output is always 100 megabytes. *)
Definition tooLarge (c : Canvas) (format : string) (quality : Q) : option Blob :=
  Some (mkBlob 100000000 format).

(** [{quality: 0.8, maxFileSize: 500}]: at most 500 KiB. *)
Definition halfMegabyte : ImageCompressor.Options :=
  ImageCompressor.mkOptions (binary64 (8 # 10)) None None 500 true.

(** A 1200x600 photograph and a 900x300 banner, as the cropper shows them
    after [initCrop]: on a 600x300 and on a 600x200 canvas. *)
Definition photoFile : File := mkFile "photo.jpg" "image/jpeg" 204800.
Definition photo : Image := mkImage photoFile 1200 600.
Definition banner : Image := mkImage photoFile 900 300.

Definition shown (img : Image) : ImageCropper.Cropper :=
  match ImageCropper.initCrop (fun _ => Returned img) ImageCropper.newCropper photoFile with
  | Returned c => c
  | _ => ImageCropper.newCropper
  end.

(** The same on doubles. *)
Definition displayed (img : Image) : Rounded.Cropper :=
  match Rounded.initCrop binary64 (fun _ => Returned img) Rounded.newCropper photoFile with
  | Returned c => c
  | _ => Rounded.newCropper
  end.

(** Choosing the ratio 1:1 on the photograph. *)
Definition squared : Rounded.Cropper :=
  Rounded.setAspectRatio binary64 (displayed photo) "1:1".

(** Typing x = 1 and width = 599 into the inputs for the banner. *)
Definition typed : Rounded.Cropper :=
  Rounded.onCropInput binary64
    (Rounded.onCropInput binary64 (displayed banner) "cropX" 1) "cropWidth" 599.

(** A sliver one pixel wide and a thousand high: its display canvas is
    0 wide. *)
Definition sliver : Image := mkImage photoFile 1 1000.


(** A sprite sheet of three 100x100 frames. *)
Definition spriteFile : File := mkFile "sprite.gif" "image/gif" 30000.
Definition loadSprite (file : File) : Outcome Image := Returned (mkImage file 100 300).

(** Five files, the third a PDF. *)
Definition fiveFiles : list File :=
  [mkFile "one.jpg" "image/jpeg" 1000; mkFile "two.png" "image/png" 2000;
   mkFile "three.pdf" "application/pdf" 3000; mkFile "four.webp" "image/webp" 4000;
   mkFile "five.gif" "image/gif" 5000].

Definition loadSquare (file : File) : Outcome Image := Returned (mkImage file 640 640).

(** Four files that all convert. *)
Definition fourFiles : list File :=
  [mkFile "one.jpg" "image/jpeg" 1000; mkFile "two.png" "image/png" 2000;
   mkFile "four.webp" "image/webp" 4000; mkFile "five.gif" "image/gif" 5000].

(** While the first file is converted the user removes the second entry of
    the list; while the last one is converted, the two entries at the
    top. *)
Definition removals : Interference :=
  fun i =>
    match i with
    | 0%nat => [1%nat]
    | 2%nat => [0%nat; 0%nat]
    | _ => []
    end.

(** A decoder that fails on the file named broken.png. *)
Definition loadUnlessBroken (file : File) : Outcome Image :=
  if String.eqb (file_name file) "broken.png" then Threw ImageLoadFailed
  else Returned (mkImage file 640 640).

Definition plainOptions : ImageConverter.Options :=
  ImageConverter.mkOptions None None None true.

(** Two photographs of 6 MiB and 7 MiB. *)
Definition sixMegabytes : File := mkFile "first.jpg" "image/jpeg" 6291456.
Definition sevenMegabytes : File := mkFile "second.jpg" "image/jpeg" 7340032.

(** ** The search on kernel floats *)

(** The rational a finite kernel float stands for. *)
Definition floatToQ (f : float) : option Q :=
  match Prim2SF f with
  | S754_zero _ => Some 0%Q
  | S754_finite s m e =>
      let v := (inject_Z (Z.pos m) * pow2 e)%Q in
      Some (Qred (if s then - v else v))
  | _ => None
  end.

(** The doubles written 0.1 and 0.05 in the source. *)
Definition float_0_1 : float := 0x1.999999999999ap-4%float.
Definition float_0_05 : float := 0x1.999999999999ap-5%float.

(** The loop of [iterateCompression] on kernel floats, for an encoder
    under which every candidate fits: the qualities it encodes at. *)
Fixpoint floatSearch (fuel : nat) (minQuality maxQuality : float) : list float :=
  match fuel with
  | O => []
  | S fuel' =>
      if PrimFloat.ltb float_0_05 (maxQuality - minQuality)%float then
        let quality := ((minQuality + maxQuality) / 2)%float in
        quality :: floatSearch fuel' minQuality quality
      else []
  end.

(** * Properties *)

(** ** Facts about the numeric primitives *)

Lemma Qgtb_true (a b : Q) : Qgtb a b = true <-> (b < a)%Q.
Proof.
  unfold Qgtb. rewrite negb_true_iff.
  split; intro H.
  - apply Qnot_le_lt. intro Hle. apply Qle_bool_iff in Hle. congruence.
  - destruct (Qle_bool a b) eqn:E; [|reflexivity].
    apply Qle_bool_iff in E. exfalso. apply (Qlt_not_le _ _ H E).
Qed.

Lemma Qgtb_false (a b : Q) : Qgtb a b = false <-> (a <= b)%Q.
Proof.
  unfold Qgtb. rewrite negb_false_iff. apply Qle_bool_iff.
Qed.

Lemma Qle_bool_false (a b : Q) : Qle_bool a b = false <-> (b < a)%Q.
Proof.
  rewrite <- Qgtb_true. unfold Qgtb. now rewrite negb_true_iff.
Qed.

Lemma inject_Z_pos (n : Z) : 0 < n -> (0 < inject_Z n)%Q.
Proof. intro H. change 0%Q with (inject_Z 0). now rewrite <- Zlt_Qlt. Qed.

Lemma jsRound_lower (x : Q) : (x - (1 # 2) < inject_Z (jsRound x))%Q.
Proof.
  unfold jsRound.
  pose proof (Qlt_floor (x + (1 # 2))) as H.
  rewrite inject_Z_plus in H. change (inject_Z 1) with 1%Q in H. lra.
Qed.

Lemma jsRound_upper (x : Q) : (inject_Z (jsRound x) <= x + (1 # 2))%Q.
Proof. unfold jsRound. apply Qfloor_le. Qed.

Lemma jsRound_inject_Z (n : Z) : jsRound (inject_Z n) = n.
Proof.
  unfold jsRound.
  assert (Hlo : n <= Qfloor (inject_Z n + (1 # 2))).
  { rewrite <- (Qfloor_Z n) at 1. apply Qfloor_resp_le. lra. }
  assert (Hhi : Qfloor (inject_Z n + (1 # 2)) < n + 1).
  { rewrite Zlt_Qlt.
    eapply Qle_lt_trans; [apply Qfloor_le|].
    rewrite inject_Z_plus. change (inject_Z 1) with 1%Q. lra. }
  lia.
Qed.


Lemma jsRound_mono (x y : Q) : (x <= y)%Q -> jsRound x <= jsRound y.
Proof. intro H. unfold jsRound. apply Qfloor_resp_le. lra. Qed.

Lemma jsRound_le_Z (x : Q) (n : Z) : (x <= inject_Z n)%Q -> jsRound x <= n.
Proof. intro H. rewrite <- (jsRound_inject_Z n). now apply jsRound_mono. Qed.

Lemma jsRound_ge_Z (x : Q) (n : Z) : (inject_Z n <= x)%Q -> n <= jsRound x.
Proof. intro H. rewrite <- (jsRound_inject_Z n). now apply jsRound_mono. Qed.

(** [Math.round(a / b)] in integer arithmetic. *)
Lemma jsRound_fraction (a b : Z) :
  0 < b -> jsRound (inject_Z a / inject_Z b) = (2 * a + b) / (2 * b).
Proof.
  intro Hb. unfold jsRound. rewrite Zdiv_Qdiv. apply Qfloor_comp.
  pose proof (inject_Z_pos b Hb).
  rewrite inject_Z_plus, !inject_Z_mult. change (inject_Z 2) with 2%Q.
  field. lra.
Qed.

(** Distribute [inject_Z] over sums, differences and products. *)
Ltac push_inject :=
  unfold Z.sub;
  repeat (rewrite inject_Z_plus || rewrite inject_Z_mult || rewrite inject_Z_opp).

(** [jsRound x] is within half a unit of [a / b] when [x * b == a]. *)
Lemma jsRound_ratio (a b : Z) (x : Q) :
  0 < b -> (x * inject_Z b == inject_Z a)%Q ->
  2 * Z.abs (jsRound x * b - a) <= b.
Proof.
  intros Hb Hx.
  pose proof (jsRound_lower x) as Hlo.
  pose proof (jsRound_upper x) as Hhi.
  pose proof (inject_Z_pos b Hb) as Hbq.
  set (r := jsRound x) in *.
  assert (H1 : (inject_Z (r * b - a) <= inject_Z b * (1 # 2))%Q).
  { push_inject. nra. }
  assert (H2 : (- (inject_Z b * (1 # 2)) <= inject_Z (r * b - a))%Q).
  { push_inject. nra. }
  assert (H3 : (inject_Z (2 * (r * b - a)) <= inject_Z b)%Q).
  { rewrite inject_Z_mult. change (inject_Z 2) with 2%Q. lra. }
  assert (H4 : (inject_Z (- b) <= inject_Z (2 * (r * b - a)))%Q).
  { rewrite inject_Z_mult, inject_Z_opp. change (inject_Z 2) with 2%Q. lra. }
  rewrite <- Zle_Qle in H3, H4. lia.
Qed.


Lemma truthy_Some (m : Z) : m <> 0 -> truthy (Some m) = true.
Proof. intro Hm. simpl. now apply negb_true_iff, Z.eqb_neq. Qed.

(** ** Resizing *)

Section AspectRatio.

Variables W H : Z.
Hypothesis HW : 0 < W.
Hypothesis HH : 0 < H.

Let w := inject_Z W.
Let h := inject_Z H.







End AspectRatio.



(** ** Validation *)

Lemma includes_In (l : list string) (s : string) :
  ImageUtils.includes l s = true <-> In s l.
Proof.
  unfold ImageUtils.includes. rewrite existsb_exists. split.
  - intros [x [Hin Heq]]. apply String.eqb_eq in Heq. now subst.
  - intro Hin. exists s. split; [assumption|apply String.eqb_refl].
Qed.

Lemma validateFile_cases (file : File) :
  (ImageUtils.validateFile file = Returned true /\
   In (file_type file) ImageUtils.supportedFormats /\
   file_size file <= ImageUtils.maxFileSize) \/
  (ImageUtils.validateFile file = Threw (UnsupportedFormat (file_type file)) /\
   ~ In (file_type file) ImageUtils.supportedFormats) \/
  (ImageUtils.validateFile file = Threw (FileTooLarge (file_size file)) /\
   In (file_type file) ImageUtils.supportedFormats /\
   ImageUtils.maxFileSize < file_size file).
Proof.
  unfold ImageUtils.validateFile.
  destruct (ImageUtils.includes ImageUtils.supportedFormats (file_type file)) eqn:E.
  - apply includes_In in E. cbn [negb].
    destruct (file_size file >? ImageUtils.maxFileSize) eqn:S.
    + right. right. apply Z.gtb_lt in S. auto.
    + left. rewrite Z.gtb_ltb in S. apply Z.ltb_ge in S. auto.
  - right. left. cbn [negb]. split; [reflexivity|].
    intro Hin. apply includes_In in Hin. congruence.
Qed.


(** ** GIF frames *)

Lemma sliceFrames_length canvasToBlob (n : nat) (img : Image) (quality : Q) (i : Z) :
  List.length (GIFProcessor.sliceFrames canvasToBlob n img quality i) = n.
Proof.
  revert i. induction n as [|n IH]; intro i; cbn; [reflexivity|].
  now rewrite IH.
Qed.

Lemma deliver_all (callbacks frames : list GIFProcessor.Frame) (frameCount : Z) :
  callbacks <> [] ->
  Z.of_nat (List.length frames + List.length callbacks) = frameCount ->
  GIFProcessor.deliver callbacks frames frameCount = Returned (frames ++ callbacks).
Proof.
  revert frames. induction callbacks as [|f rest IH]; intros frames Hne Hlen;
    [congruence|].
  cbn [GIFProcessor.deliver].
  destruct rest as [|g rest'].
  - rewrite length_app. cbn [List.length] in *.
    replace (Z.of_nat (List.length frames + 1) =? frameCount) with true
      by (symmetry; apply Z.eqb_eq; lia).
    reflexivity.
  - replace (Z.of_nat (List.length (frames ++ [f])) =? frameCount) with false.
    + rewrite IH; [now rewrite <- app_assoc|discriminate|].
      rewrite length_app. cbn [List.length] in *. lia.
    + symmetry. apply Z.eqb_neq. rewrite length_app. cbn [List.length] in *. lia.
Qed.

(** [Math.ceil(H / W)] is the least [k] with [H <= k * W]. *)
Lemma frameCountOf_spec (img : Image) :
  0 < naturalWidth img -> 0 < naturalHeight img ->
  let k := GIFProcessor.frameCountOf img in
  1 <= k /\ (k - 1) * naturalWidth img < naturalHeight img <= k * naturalWidth img.
Proof.
  intros HW HH. unfold GIFProcessor.frameCountOf, jsCeil.
  pose proof (inject_Z_pos _ HW) as Hw. pose proof (inject_Z_pos _ HH) as Hh.
  set (x := (inject_Z (naturalHeight img) / inject_Z (naturalWidth img))%Q).
  assert (Ex : (x * inject_Z (naturalWidth img) == inject_Z (naturalHeight img))%Q).
  { unfold x. field. lra. }
  pose proof (Qle_ceiling x) as Hup.
  pose proof (Qceiling_lt x) as Hlo.
  cbv zeta. set (k := Qceiling x) in *.
  assert (H1 : (inject_Z ((k - 1) * naturalWidth img) < inject_Z (naturalHeight img))%Q).
  { rewrite inject_Z_mult. nra. }
  assert (H2 : (inject_Z (naturalHeight img) <= inject_Z (k * naturalWidth img))%Q).
  { rewrite inject_Z_mult. nra. }
  rewrite <- Zlt_Qlt in H1. rewrite <- Zle_Qle in H2.
  split; [nia|lia].
Qed.

(** C8.  For a GIF of natural size W x H the utility computes
    frameCount = ceil(H / W), the least count of W x W squares that cover the
    height; [extractFrames] returns exactly that many frames and
    [getGIFInfo] reports the same count; a 100x300 input gives 3. *)
Theorem gif_frame_count (loadImage : File -> Outcome Image)
    (canvasToBlob : Canvas -> string -> Q -> option Blob)
    (file : File) (quality : Q) (img : Image) :
  loadImage file = Returned img ->
  0 < naturalWidth img -> 0 < naturalHeight img ->
  let frameCount := GIFProcessor.frameCountOf img in
  (frameCount - 1) * naturalWidth img < naturalHeight img <= frameCount * naturalWidth img /\
  (exists frames,
     GIFProcessor.extractFrames loadImage canvasToBlob file quality = Returned frames /\
     Z.of_nat (List.length frames) = frameCount) /\
  (exists info,
     GIFProcessor.getGIFInfo loadImage file = Returned info /\
     GIFProcessor.info_frameCount info = frameCount) /\
  GIFProcessor.frameCountOf (mkImage file 100 300) = 3.
Proof.
  intros Hload HW HH.
  pose proof (frameCountOf_spec img HW HH) as [Hk Hb]. cbv zeta in *.
  split; [exact Hb|]. split; [|split].
  - unfold GIFProcessor.extractFrames. rewrite Hload. cbn [bind].
    set (k := GIFProcessor.frameCountOf img) in *.
    rewrite deliver_all.
    + eexists. split; [reflexivity|]. cbn [app].
      rewrite sliceFrames_length. lia.
    + destruct (Z.to_nat k) eqn:E; [lia|discriminate].
    + rewrite sliceFrames_length. cbn [List.length]. lia.
  - unfold GIFProcessor.getGIFInfo. rewrite Hload. cbn [bind].
    eexists. split; reflexivity.
  - reflexivity.
Qed.


Lemma gif_frame_count_witness :
  let frameCount := GIFProcessor.frameCountOf (mkImage spriteFile 100 300) in
  (frameCount - 1) * 100 < 300 <= frameCount * 100 /\
  (exists frames,
     GIFProcessor.extractFrames loadSprite byQuality spriteFile (3 # 4) = Returned frames /\
     Z.of_nat (List.length frames) = frameCount) /\
  (exists info,
     GIFProcessor.getGIFInfo loadSprite spriteFile = Returned info /\
     GIFProcessor.info_frameCount info = frameCount) /\
  GIFProcessor.frameCountOf (mkImage spriteFile 100 300) = 3.
Proof.
  apply (gif_frame_count loadSprite byQuality spriteFile (3 # 4)
           (mkImage spriteFile 100 300)).
  - reflexivity.
  - reflexivity.
  - reflexivity.
Defined.

(** ** Crop rectangle *)


(** ** Watermark anchors *)




(** ** binary64 rounding *)

Lemma pow2_pos (k : Z) : (0 < pow2 k)%Q.
Proof. unfold pow2. apply Qpower_0_lt. reflexivity. Qed.

Lemma pow2_add (a b : Z) : (pow2 (a + b) == pow2 a * pow2 b)%Q.
Proof. unfold pow2. apply Qpower_plus. discriminate. Qed.

Lemma pow2_inject (k : Z) : 0 <= k -> (pow2 k == inject_Z (2 ^ k))%Q.
Proof. intro Hk. unfold pow2. now rewrite Zpower_Qpower. Qed.

Lemma roundHalfEven_close (m : Q) :
  (m - (1 # 2) <= inject_Z (roundHalfEven m) <= m + (1 # 2))%Q.
Proof.
  unfold roundHalfEven.
  pose proof (Qfloor_le m) as Hlo.
  pose proof (Qlt_floor m) as Hhi.
  rewrite inject_Z_plus in Hhi. change (inject_Z 1) with 1%Q in Hhi.
  set (f := Qfloor m) in *.
  destruct (Qle_bool (m - inject_Z f) (1 # 2)) eqn:E1.
  - apply Qle_bool_iff in E1.
    destruct (Qle_bool (1 # 2) (m - inject_Z f)) eqn:E2.
    + apply Qle_bool_iff in E2.
      destruct (Z.even f).
      * split; lra.
      * rewrite inject_Z_plus. change (inject_Z 1) with 1%Q. split; lra.
    + split; lra.
  - apply Qle_bool_false in E1.
    rewrite inject_Z_plus. change (inject_Z 1) with 1%Q. split; lra.
Qed.

Lemma ilog2_lower (a : Q) : (0 < a)%Q -> (pow2 (ilog2 a) <= a)%Q.
Proof.
  intro Ha. unfold ilog2.
  set (k := Z.log2 (Qnum a) - Z.log2 (Z.pos (Qden a))).
  destruct (Qle_bool (pow2 k) a) eqn:E; [now apply Qle_bool_iff in E|].
  destruct a as [n d]. cbn [Qnum Qden] in *.
  assert (Hn : 0 < n).
  { unfold Qlt in Ha. cbn in Ha. lia. }
  pose proof (Z.log2_spec n Hn) as [Hn1 _].
  pose proof (Z.log2_spec (Z.pos d) (Pos2Z.is_pos d)) as [_ Hd2].
  pose proof (Z.log2_nonneg n) as Ln0.
  pose proof (Z.log2_nonneg (Z.pos d)) as Ld0.
  assert (E1 : (pow2 (k - 1) * pow2 (Z.succ (Z.log2 (Z.pos d))) == pow2 (Z.log2 n))%Q).
  { rewrite <- pow2_add. unfold pow2. apply Qpower_comp; [reflexivity|]. unfold k. lia. }
  rewrite (pow2_inject (Z.log2 n)) in E1 by assumption.
  rewrite (pow2_inject (Z.succ (Z.log2 (Z.pos d)))) in E1 by lia.
  assert (H1 : (inject_Z (2 ^ Z.log2 n) <= inject_Z n)%Q) by now rewrite <- Zle_Qle.
  assert (H2 : (inject_Z (Z.pos d) <= inject_Z (2 ^ Z.succ (Z.log2 (Z.pos d))))%Q).
  { rewrite <- Zle_Qle. lia. }
  pose proof (pow2_pos (k - 1)) as Hp.
  assert (Hd : (0 < inject_Z (Z.pos d))%Q) by (apply inject_Z_pos; lia).
  assert (H3 : (pow2 (k - 1) * inject_Z (Z.pos d) <= inject_Z n)%Q) by nra.
  rewrite (Qmake_Qdiv n d).
  apply Qle_shift_div_l; assumption.
Qed.

Lemma eps64_pow2 : (pow2 (- 52) * (1 # 2) == eps64)%Q.
Proof. reflexivity. Qed.

(** The relative error of rounding to a double is at most 2^-53. *)
Lemma binary64_error (x : Q) : (Qabs (binary64 x - x) <= eps64 * Qabs x)%Q.
Proof.
  unfold binary64.
  destruct (Qeq_bool x 0) eqn:E0.
  - apply Qeq_bool_iff in E0. rewrite E0. apply Qle_bool_iff. reflexivity.
  - assert (Hx : ~ (x == 0)%Q).
    { intro H. apply Qeq_bool_iff in H. congruence. }
    assert (Ha : (0 < Qabs x)%Q).
    { destruct (Qlt_le_dec 0 (Qabs x)) as [H|H]; [assumption|].
      exfalso. apply Hx. apply Qabs_Qle_condition in H. lra. }
    set (a := Qabs x) in *.
    pose proof (ilog2_lower a Ha) as Hlog.
    set (e := ilog2 a) in *.
    pose proof (pow2_pos (e - 52)) as Hulp.
    assert (Eulp : (pow2 (e - 52) == pow2 e * pow2 (- 52))%Q).
    { rewrite <- pow2_add. unfold pow2. apply Qpower_comp; [reflexivity|]. lia. }
    set (ulp := pow2 (e - 52)) in *.
    pose proof (roundHalfEven_close (a / ulp)) as [Hr1 Hr2].
    set (r := inject_Z (roundHalfEven (a / ulp))) in *.
    assert (Em : (a / ulp * ulp == a)%Q) by (field; lra).
    set (m := (a / ulp)%Q) in *.
    pose proof (Qred_correct (r * ulp)) as Ey.
    set (y := Qred (r * ulp)) in *.
    pose proof eps64_pow2 as Eeps.
    pose proof (pow2_pos e) as He.
    set (pe := pow2 e) in *. set (p52 := pow2 (- 52)) in *.
    assert (Hp52 : (0 < p52)%Q) by apply pow2_pos.
    assert (Hy1 : (y - a <= eps64 * a)%Q) by nra.
    assert (Hy2 : (- (eps64 * a) <= y - a)%Q) by nra.
    destruct (Qle_bool 0 x) eqn:S.
    + apply Qle_bool_iff in S.
      assert (Eax : (a == x)%Q) by (unfold a; now apply Qabs_pos).
      apply Qabs_Qle_condition. split; lra.
    + apply Qle_bool_false in S.
      assert (Eax : (a == - x)%Q) by (unfold a; apply Qabs_neg; lra).
      apply Qabs_Qle_condition. split; lra.
Qed.

(** ** Termination of the quality search *)

Lemma widthBudget_succ (k : nat) :
  (widthBudget (S k) * (1 # 2) + (1 # 2000) == widthBudget k)%Q.
Proof.
  unfold widthBudget.
  replace (Z.of_nat (S k)) with (Z.succ (Z.of_nat k)) by lia.
  rewrite Z.pow_succ_r by lia. rewrite inject_Z_mult.
  change (inject_Z 2) with 2%Q. ring.
Qed.

Section Rounding.

Variable rnd : Q -> Q.
Hypothesis rnd_error : forall x, (Qabs (rnd x - x) <= eps64 * Qabs x)%Q.

Lemma rnd_nonneg (x : Q) :
  (0 <= x -> (1 - eps64) * x <= rnd x /\ rnd x <= (1 + eps64) * x)%Q.
Proof.
  intro Hx. pose proof (rnd_error x) as H.
  apply Qabs_Qle_condition in H. rewrite (Qabs_pos x Hx) in H. split; lra.
Qed.

Lemma rnd_nonpos (x : Q) : (x <= 0 -> rnd x <= 0)%Q.
Proof.
  intro Hx. pose proof (rnd_error x) as H.
  apply Qabs_Qle_condition in H. rewrite (Qabs_neg x Hx) in H.
  unfold eps64 in H. lra.
Qed.

Variable canvasToBlob : Canvas -> string -> Q -> option Blob.

Lemma guard_false (lo hi : Q) :
  (hi - lo <= 49 # 1000)%Q ->
  Qgtb (ImageCompressor.sub rnd hi lo) (ImageCompressor.lit rnd (1 # 20)) = false.
Proof.
  intro Hw. apply Qgtb_false. unfold ImageCompressor.sub, ImageCompressor.lit.
  assert (H20 : (0 <= 1 # 20)%Q) by lra.
  pose proof (rnd_nonneg _ H20) as [Hc _].
  destruct (Qlt_le_dec (hi - lo) 0) as [Hneg|Hpos].
  - assert (Hle : (hi - lo <= 0)%Q) by lra.
    pose proof (rnd_nonpos _ Hle). unfold eps64 in *. lra.
  - pose proof (rnd_nonneg _ Hpos) as [_ Hd]. unfold eps64 in *. lra.
Qed.

Lemma guard_true (lo hi : Q) :
  Qgtb (ImageCompressor.sub rnd hi lo) (ImageCompressor.lit rnd (1 # 20)) = true ->
  (499 # 10000 < hi - lo)%Q.
Proof.
  intro Hg. apply Qgtb_true in Hg. unfold ImageCompressor.sub, ImageCompressor.lit in Hg.
  assert (H20 : (0 <= 1 # 20)%Q) by lra.
  pose proof (rnd_nonneg _ H20) as [Hc _].
  destruct (Qlt_le_dec (hi - lo) 0) as [Hneg|Hpos].
  - assert (Hle : (hi - lo <= 0)%Q) by lra.
    pose proof (rnd_nonpos _ Hle). unfold eps64 in *. lra.
  - pose proof (rnd_nonneg _ Hpos) as [_ Hd]. unfold eps64 in *. lra.
Qed.

(** The rounded midpoint stays between the bounds and halves the interval
    up to 1/2000. *)
Lemma midpoint_bounds (lo hi : Q) :
  (0 <= lo -> hi <= 2 -> 499 # 10000 < hi - lo ->
   let q := ImageCompressor.div rnd (ImageCompressor.add rnd lo hi) 2 in
   lo <= q /\ q <= hi /\
   q - lo <= (hi - lo) * (1 # 2) + (1 # 2000) /\
   hi - q <= (hi - lo) * (1 # 2) + (1 # 2000))%Q.
Proof.
  intros Hlo Hhi Hw. unfold ImageCompressor.div, ImageCompressor.add.
  assert (Hsum : (0 <= lo + hi)%Q) by lra.
  pose proof (rnd_nonneg _ Hsum) as [Hs1 Hs2].
  set (s := rnd (lo + hi)) in *.
  assert (Hhalf : (0 <= s / 2)%Q).
  { unfold Qdiv. change (/ 2)%Q with (1 # 2). unfold eps64 in *. lra. }
  pose proof (rnd_nonneg _ Hhalf) as [Hq1 Hq2].
  unfold Qdiv in *. change (/ 2)%Q with (1 # 2) in *.
  cbv zeta. set (q := rnd (s * (1 # 2))) in *.
  unfold eps64 in *. repeat split; lra.
Qed.

Lemma settledWithin_step (k : nat) (s s' : ImageCompressor.Search) o :
  List.length (ImageCompressor.tried s')
  = S (List.length (ImageCompressor.tried s)) ->
  settledWithin k s' o -> settledWithin (S k) s o.
Proof.
  intros Hlen. destruct o; cbn; auto. lia.
Qed.

Lemma searchLoop_settles (canvas : Canvas) (format : string) (targetSize : Z) (k : nat) :
  forall fuel s,
    (k <= fuel)%nat ->
    (0 <= ImageCompressor.minQuality s)%Q ->
    (ImageCompressor.maxQuality s <= 2)%Q ->
    (ImageCompressor.maxQuality s - ImageCompressor.minQuality s <= widthBudget k)%Q ->
    settledWithin k s
      (ImageCompressor.searchLoop rnd canvasToBlob fuel canvas format targetSize s).
Proof.
  induction k as [|k IH]; intros fuel s Hfuel Hlo Hhi Hw.
  - assert (H0 : (widthBudget 0 == 49 # 1000)%Q) by reflexivity.
    assert (Hw' : (ImageCompressor.maxQuality s - ImageCompressor.minQuality s
                   <= 49 # 1000)%Q) by lra.
    assert (Hg := guard_false _ _ Hw').
    destruct fuel; cbn [ImageCompressor.searchLoop]; rewrite Hg; cbn; lia.
  - destruct fuel as [|fuel]; [lia|].
    cbn [ImageCompressor.searchLoop].
    destruct (Qgtb (ImageCompressor.sub rnd (ImageCompressor.maxQuality s)
                      (ImageCompressor.minQuality s))
                   (ImageCompressor.lit rnd (1 # 20))) eqn:Hg; [|cbn; lia].
    apply guard_true in Hg.
    pose proof (midpoint_bounds _ _ Hlo Hhi Hg) as (Q1 & Q2 & Q3 & Q4).
    cbv zeta in Q1, Q2, Q3, Q4.
    set (q := ImageCompressor.div rnd
                (ImageCompressor.add rnd (ImageCompressor.minQuality s)
                   (ImageCompressor.maxQuality s)) 2) in *.
    pose proof (widthBudget_succ k) as HB.
    destruct (canvasToBlob canvas format q) as [b|]; cbn [sizeOf bind]; [|exact I].
    destruct (blob_size b <=? targetSize).
    + eapply settledWithin_step; [|apply IH]; cbn [ImageCompressor.tried
        ImageCompressor.minQuality ImageCompressor.maxQuality].
      * rewrite length_app. cbn. lia.
      * lia.
      * assumption.
      * lra.
      * lra.
    + eapply settledWithin_step; [|apply IH]; cbn [ImageCompressor.tried
        ImageCompressor.minQuality ImageCompressor.maxQuality].
      * rewrite length_app. cbn. lia.
      * lia.
      * lra.
      * assumption.
      * lra.
Qed.

End Rounding.

Lemma log2_up_upper (a : Z) : a <= 2 ^ Z.log2_up a.
Proof.
  destruct (Z_lt_le_dec 1 a) as [H|H].
  - apply Z.log2_up_spec. assumption.
  - rewrite Z.log2_up_eqn0 by assumption. cbn. lia.
Qed.

(** [x <= 2 ^ ceilLog2 x]. *)
Lemma ceilLog2_upper (x : Q) : (x <= inject_Z (2 ^ ceilLog2 x))%Q.
Proof.
  unfold ceilLog2. eapply Qle_trans; [apply Qle_ceiling|].
  rewrite <- Zle_Qle. apply log2_up_upper.
Qed.

(** C4, as amended.  For every initial quality Q0 in [0.1, 1], every
    encoder and every arithmetic that rounds with a relative error of at
    most 2^-53 (IEEE doubles, or no rounding at all), the search loop of
    [iterateCompression] settles: it runs at most 5 iterations, and at most
    ceil(log2((Q0 - 0.1) / 0.05)) + 1. *)
Theorem search_iterations_bounded
    (rnd : Q -> Q) (canvasToBlob : Canvas -> string -> Q -> option Blob)
    (canvas : Canvas) (format : string) (targetSize : Z)
    (blob : option Blob) (initialQuality : Q) (fuel : nat) :
  (forall x, (Qabs (rnd x - x) <= eps64 * Qabs x)%Q) ->
  (1 # 10 <= initialQuality)%Q -> (initialQuality <= 1)%Q ->
  (5 <= fuel)%nat ->
  match ImageCompressor.searchLoop rnd canvasToBlob fuel canvas format targetSize
          (ImageCompressor.searchStart rnd blob initialQuality) with
  | Returned s =>
      (List.length (ImageCompressor.tried s) <= 5)%nat /\
      Z.of_nat (List.length (ImageCompressor.tried s))
      <= ceilLog2 ((initialQuality - (1 # 10)) / (1 # 20)) + 1
  | Threw _ => True
  | Pending => False
  end.
Proof.
  intros Hrnd Hlo Hhi Hfuel.
  set (s0 := ImageCompressor.searchStart rnd blob initialQuality).
  assert (H10 : (0 <= 1 # 10)%Q) by lra.
  pose proof (rnd_nonneg rnd Hrnd _ H10) as [Hc1 Hc2].
  assert (Hmin : ImageCompressor.minQuality s0 = rnd (1 # 10)) by reflexivity.
  assert (Hmax : ImageCompressor.maxQuality s0 = initialQuality) by reflexivity.
  assert (Htried : ImageCompressor.tried s0 = []) by reflexivity.
  assert (Hmin0 : (0 <= ImageCompressor.minQuality s0)%Q).
  { rewrite Hmin. unfold eps64 in *. lra. }
  assert (Hmax2 : (ImageCompressor.maxQuality s0 <= 2)%Q).
  { rewrite Hmax. lra. }
  assert (H5 : (ImageCompressor.maxQuality s0 - ImageCompressor.minQuality s0
                <= widthBudget 5)%Q).
  { rewrite Hmin, Hmax.
    assert (E5 : (widthBudget 5 == 1537 # 1000)%Q) by reflexivity.
    unfold eps64 in *. lra. }
  pose proof (searchLoop_settles rnd Hrnd canvasToBlob canvas format targetSize
                5 fuel s0 Hfuel Hmin0 Hmax2 H5) as S5.
  set (K := ceilLog2 ((initialQuality - (1 # 10)) / (1 # 20))).
  assert (HK0 : 0 <= K) by apply Z.log2_up_nonneg.
  assert (SK : (Z.to_nat (K + 1) <= fuel)%nat ->
               settledWithin (Z.to_nat (K + 1)) s0
                 (ImageCompressor.searchLoop rnd canvasToBlob fuel canvas format
                    targetSize s0)).
  { intro HKf.
    apply (searchLoop_settles rnd Hrnd); try assumption.
    rewrite Hmin, Hmax.
    pose proof (ceilLog2_upper ((initialQuality - (1 # 10)) / (1 # 20))) as HU.
    fold K in HU.
    assert (Ex : ((initialQuality - (1 # 10)) / (1 # 20)
                  == (initialQuality - (1 # 10)) * 20)%Q) by (field).
    rewrite Ex in HU.
    unfold widthBudget. rewrite Z2Nat.id by lia.
    rewrite Z.pow_add_r by lia. rewrite inject_Z_mult.
    change (inject_Z (2 ^ 1)) with 2%Q.
    assert (Hp : (1 <= inject_Z (2 ^ K))%Q).
    { change 1%Q with (inject_Z 1). rewrite <- Zle_Qle.
      change 1 with (2 ^ 0) at 1. apply Z.pow_le_mono_r; lia. }
    unfold eps64 in *. lra. }
  destruct (ImageCompressor.searchLoop rnd canvasToBlob fuel canvas format
              targetSize s0) as [s| |]; cbn [settledWithin] in *.
  - rewrite Htried in *. cbn [List.length] in *. split; [lia|].
    destruct (Z_le_gt_dec (K + 1) 5) as [Hle|Hgt].
    + assert (HKf : (Z.to_nat (K + 1) <= fuel)%nat) by lia.
      specialize (SK HKf). lia.
    + lia.
  - exact I.
  - exact S5.
Qed.

(** The search on doubles from quality 0.5. *)
Lemma search_iterations_bounded_witness :
  match ImageCompressor.searchLoop binary64 byQuality 5 pictureCanvas "image/jpeg" 409600
          (ImageCompressor.searchStart binary64
             (byQuality pictureCanvas "image/jpeg" (1 # 2)) (1 # 2)) with
  | Returned s =>
      (List.length (ImageCompressor.tried s) <= 5)%nat /\
      Z.of_nat (List.length (ImageCompressor.tried s))
      <= ceilLog2 (((1 # 2) - (1 # 10)) / (1 # 20)) + 1
  | Threw _ => True
  | Pending => False
  end.
Proof.
  apply (search_iterations_bounded binary64 byQuality pictureCanvas "image/jpeg" 409600
           (byQuality pictureCanvas "image/jpeg" (1 # 2)) (1 # 2) 5).
  - exact binary64_error.
  - apply Qle_bool_iff. reflexivity.
  - apply Qle_bool_iff. reflexivity.
  - lia.
Defined.

(** C4 fails as stated.  From Q0 = 0.5 the bound is
    ceil(log2(0.4 / 0.05)) = 3.  With a ceiling of 400 KiB and an encoder
    that yields a million bytes per unit of quality every candidate fits,
    and on doubles the loop runs 4 times, at 0.3, 0.2, 0.15000000000000002
    and 0.125: 0.15000000000000002 - 0.1 = 0.05000000000000002 > 0.05. *)
Lemma search_on_doubles_exceeds_log2 :
  exists s,
    ImageCompressor.searchLoop binary64 byQuality 5 pictureCanvas "image/jpeg" 409600
      (ImageCompressor.searchStart binary64
         (byQuality pictureCanvas "image/jpeg" (1 # 2)) (1 # 2)) = Returned s /\
    ImageCompressor.tried s =
      [5404319552844595 # 18014398509481984;
       3602879701896397 # 18014398509481984;
       1351079888211149 # 9007199254740992;
       1 # 8] /\
    ceilLog2 (((1 # 2) - (1 # 10)) / (1 # 20)) = 3 /\
    ~ Z.of_nat (List.length (ImageCompressor.tried s))
      <= ceilLog2 (((1 # 2) - (1 # 10)) / (1 # 20)).
Proof.
  eexists. split; [vm_compute; reflexivity|].
  split; [reflexivity|]. split; [reflexivity|].
  vm_compute. intro H. now apply H.
Qed.

(** Without rounding the same search stops after 3 iterations. *)
Lemma search_exact_half :
  exists s,
    ImageCompressor.searchLoop exact byQuality 5 pictureCanvas "image/jpeg" 409600
      (ImageCompressor.searchStart exact
         (byQuality pictureCanvas "image/jpeg" (1 # 2)) (1 # 2)) = Returned s /\
    List.length (ImageCompressor.tried s) = 3%nat.
Proof. eexists. split; [vm_compute; reflexivity|reflexivity]. Qed.

(** The kernel's binary64 arithmetic runs the same four iterations at the
    same four qualities. *)
Lemma search_on_kernel_floats :
  floatToQ float_0_1 = Some (binary64 (1 # 10)) /\
  floatToQ float_0_05 = Some (binary64 (1 # 20)) /\
  map floatToQ (floatSearch 5 float_0_1 0.5%float) =
    [Some (5404319552844595 # 18014398509481984);
     Some (3602879701896397 # 18014398509481984);
     Some (1351079888211149 # 9007199254740992);
     Some (1 # 8)].
Proof. repeat split; vm_compute; reflexivity. Qed.

(** ** Which candidate the search returns *)

Section LowestFit.

Variable rnd : Q -> Q.
Hypothesis rnd_error : forall x, (Qabs (rnd x - x) <= eps64 * Qabs x)%Q.
Variable canvasToBlob : Canvas -> string -> Q -> option Blob.
Variables (canvas : Canvas) (format : string) (targetSize : Z).

(** Every fit moves the upper bound down to the fitting quality, so the
    candidate the search ends with is the last fit, and no fitting candidate
    it met had a lower quality. *)
Lemma searchLoop_ends_on_lowest_fit (fuel : nat) :
  forall s s',
    (0 <= ImageCompressor.minQuality s)%Q ->
    (ImageCompressor.maxQuality s <= 2)%Q ->
    ImageCompressor.bestQuality s = ImageCompressor.maxQuality s ->
    ImageCompressor.searchLoop rnd canvasToBlob fuel canvas format targetSize s
    = Returned s' ->
    ImageCompressor.bestQuality s' = ImageCompressor.maxQuality s' /\
    (ImageCompressor.maxQuality s' <= ImageCompressor.maxQuality s)%Q /\
    exists new,
      ImageCompressor.tried s' = ImageCompressor.tried s ++ new /\
      forall q, In q new -> fits canvasToBlob canvas format targetSize q ->
                (ImageCompressor.bestQuality s' <= q)%Q.
Proof.
  induction fuel as [|fuel IH]; intros s s' Hlo Hhi Hbest Hrun;
    cbn [ImageCompressor.searchLoop] in Hrun;
    destruct (Qgtb (ImageCompressor.sub rnd (ImageCompressor.maxQuality s)
                      (ImageCompressor.minQuality s))
                   (ImageCompressor.lit rnd (1 # 20))) eqn:Hg;
    try discriminate;
    try (injection Hrun as <-; split; [assumption|]; split; [lra|];
         exists []; split; [now rewrite app_nil_r|intros q []]).
  apply (guard_true rnd rnd_error) in Hg.
  pose proof (midpoint_bounds rnd rnd_error _ _ Hlo Hhi Hg) as (Q1 & Q2 & _ & _).
  cbv zeta in Q1, Q2.
  set (q := ImageCompressor.div rnd
              (ImageCompressor.add rnd (ImageCompressor.minQuality s)
                 (ImageCompressor.maxQuality s)) 2) in *.
  destruct (canvasToBlob canvas format q) as [b|] eqn:Eb;
    cbn [sizeOf bind] in Hrun; [|discriminate].
  destruct (blob_size b <=? targetSize) eqn:Efit.
  - apply IH in Hrun; cbn [ImageCompressor.minQuality ImageCompressor.maxQuality
                           ImageCompressor.bestQuality ImageCompressor.tried] in *;
      try assumption; try reflexivity; try lra.
    destruct Hrun as (B & M & new & T & F).
    split; [assumption|]. split; [lra|].
    exists (q :: new). split; [now rewrite T, <- app_assoc|].
    intros q' [<-|Hin] Hf; [rewrite B; lra|now apply F].
  - apply IH in Hrun; cbn [ImageCompressor.minQuality ImageCompressor.maxQuality
                           ImageCompressor.bestQuality ImageCompressor.tried] in *;
      try assumption; try lra.
    destruct Hrun as (B & M & new & T & F).
    split; [assumption|]. split; [lra|].
    exists (q :: new). split; [now rewrite T, <- app_assoc|].
    intros q' [<-|Hin] Hf; [|now apply F].
    destruct Hf as (b' & Eb' & Hsz). rewrite Eb in Eb'. injection Eb' as <-.
    apply Z.leb_gt in Efit. lia.
Qed.

End LowestFit.

(** C1 against the code.  [compressImage(file, {quality: 0.8, maxFileSize:
    500})] with an encoder that yields a million bytes per unit of quality:
    the first encode has 800000 bytes, over the ceiling of 512000.  The
    search encodes at 0.45, 0.275, 0.1875 and 0.14375; all four fit (450000,
    275000, 187500 and 143749 bytes), and the blob returned is the one of
    143749 bytes at quality 0.14375, the lowest quality the search met, not
    the one of 450000 bytes at 0.45. *)
Lemma iterateCompression_keeps_lowest_fit :
  exists s,
    ImageCompressor.searchLoop binary64 byQuality 5 pictureCanvas "image/jpeg" 512000
      (ImageCompressor.searchStart binary64
         (byQuality pictureCanvas "image/jpeg" (binary64 (8 # 10)))
         (binary64 (8 # 10))) = Returned s /\
    ImageCompressor.tried s =
      [8106479329266893 # 18014398509481984;
       2476979795053773 # 9007199254740992;
       3 # 16;
       2589569785738035 # 18014398509481984] /\
    map (fun q => byQuality pictureCanvas "image/jpeg" q) (ImageCompressor.tried s) =
      [Some (mkBlob 450000 "image/jpeg"); Some (mkBlob 275000 "image/jpeg");
       Some (mkBlob 187500 "image/jpeg"); Some (mkBlob 143749 "image/jpeg")] /\
    ImageCompressor.bestQuality s = 2589569785738035 # 18014398509481984 /\
    ImageCompressor.iterateCompression binary64 byQuality 5 pictureCanvas
      "image/jpeg" 512000 (binary64 (8 # 10))
    = Returned (Some (mkBlob 143749 "image/jpeg")) /\
    ImageCompressor.compressImage binary64 loadPicture byQuality 5 pictureFile
      halfMegabyte
    = Returned (ImageCompressor.mkResult (mkBlob 143749 "image/jpeg")
                  "picture_compressed.jpg" "image/jpeg" 2097152 143749
                  1000 1000 1000 1000).
Proof.
  eexists. split; [vm_compute; reflexivity|].
  repeat split; vm_compute; reflexivity.
Qed.

(** C2 against the code.  With a ceiling of 512000 bytes and an encoder
    that never fits, a 1000-pixel canvas is resized to 900, 729, 531, 348,
    205, 109, 52, 22, 9, 3 and 1 pixel: step k shrinks the previous canvas
    by 0.9^k, not by 0.9, and the last canvas has 0.001 of the original
    width.  The blob returned is that canvas encoded at quality 0.1. *)
Lemma compressByResizing_compounds_scale :
  exists final,
    ImageCompressor.resizeLoop binary64 tooLarge 11 "image/jpeg" 512000
      (binary64 (8 # 10)) pictureCanvas (ImageCompressor.lit binary64 (9 # 10))
    = Returned (tooLarge final "image/jpeg" (binary64 (1 # 10)), final) /\
    widthHistory final = [1000; 900; 729; 531; 348; 205; 109; 52; 22; 9; 3; 1] /\
    ImageCompressor.compressByResizing binary64 tooLarge 11 pictureCanvas
      "image/jpeg" 512000 (binary64 (8 # 10))
    = Returned (tooLarge final "image/jpeg" (binary64 (1 # 10))) /\
    ImageCompressor.iterateCompression binary64 tooLarge 11 pictureCanvas
      "image/jpeg" 512000 (binary64 (8 # 10))
    = Returned (tooLarge final "image/jpeg" (binary64 (1 # 10))).
Proof.
  eexists. split; [vm_compute; reflexivity|].
  repeat split; vm_compute; reflexivity.
Qed.

(** ** File names *)

Lemma plainChars_no_extension (s : string) :
  ImageUtils.plainChars s = true -> ImageUtils.stripExtension s = None.
Proof.
  induction s as [|c rest IH]; intro Hp; [reflexivity|].
  cbn [ImageUtils.plainChars] in Hp.
  apply andb_true_iff in Hp. destruct Hp as [Hc Hrest].
  apply andb_true_iff in Hc. destruct Hc as [_ Hdot].
  cbn [ImageUtils.stripExtension]. rewrite (IH Hrest).
  apply negb_true_iff in Hdot. now rewrite Hdot.
Qed.

(** The regular expression matches the last dot and what follows it, when
    that is not empty and holds no slash. *)
Lemma stripExtension_app (stem ext : string) :
  ext <> ""%string -> ImageUtils.plainChars ext = true ->
  ImageUtils.stripExtension (stem ++ "." ++ ext) = Some stem.
Proof.
  intros Hne Hp. induction stem as [|c stem IH].
  - cbn [String.append ImageUtils.stripExtension].
    rewrite (plainChars_no_extension ext Hp), Hp.
    replace (String.eqb ext "") with false; [reflexivity|].
    symmetry. now apply String.eqb_neq.
  - cbn [String.append ImageUtils.stripExtension] in *. now rewrite IH.
Qed.

Lemma stripExtension_Some (s n : string) :
  ImageUtils.stripExtension s = Some n ->
  exists ext, s = (n ++ "." ++ ext)%string /\ ext <> ""%string /\
              ImageUtils.plainChars ext = true.
Proof.
  revert n. induction s as [|c rest IH]; intros n H; [discriminate|].
  cbn [ImageUtils.stripExtension] in H.
  destruct (ImageUtils.stripExtension rest) as [r|] eqn:E.
  - injection H as <-. destruct (IH r eq_refl) as (ext & -> & Hne & Hp).
    exists ext. repeat split; assumption.
  - destruct (Ascii.eqb c ".") eqn:Ec; cbn [andb] in H; [|discriminate].
    destruct (String.eqb rest "") eqn:Er; cbn [negb andb] in H; [discriminate|].
    destruct (ImageUtils.plainChars rest) eqn:Ep; [|discriminate].
    injection H as <-. apply Ascii.eqb_eq in Ec. subst c.
    exists rest. repeat split; [|assumption].
    now apply String.eqb_neq.
Qed.

Lemma getFormatExtension_plain (format : string) :
  ImageUtils.getFormatExtension format <> ""%string /\
  ImageUtils.plainChars (ImageUtils.getFormatExtension format) = true.
Proof.
  unfold ImageUtils.getFormatExtension.
  repeat match goal with
  | |- context [if ?b then _ else _] => destruct b
  end; split; (discriminate || reflexivity).
Qed.

Lemma string_append_assoc (a b c : string) : ((a ++ b) ++ c = a ++ b ++ c)%string.
Proof. induction a as [|x a IH]; cbn; [reflexivity|now rewrite IH]. Qed.

Lemma stripExtension_None (name : string) :
  ImageUtils.stripExtension name = None ->
  forall stem ext, name = (stem ++ "." ++ ext)%string ->
    ext = ""%string \/ ImageUtils.plainChars ext = false.
Proof.
  intros E stem ext ->.
  destruct ext as [|c ext]; [now left|].
  destruct (ImageUtils.plainChars (String c ext)) eqn:P; [|now right].
  rewrite stripExtension_app in E; [discriminate|discriminate|assumption].
Qed.

(** X1.  [generateFileName] replaces the last extension of the original
    name and nothing else, for a target format that is not the name of an
    inherited member.  For a name [stem.ext] whose extension is not empty
    and holds neither a dot nor a slash, the result is [stem], the suffix,
    a dot and the extension of the target format.  A name with no such
    extension (no dot, a dot at the very end, a slash after the last dot)
    is kept whole, and the suffix and the new extension are appended to
    it. *)
Theorem generateFileName_replaces_last_extension :
  (forall stem ext format suffix,
     ImageUtils.includes objectMembers format = false ->
     ext <> ""%string -> ImageUtils.plainChars ext = true ->
     ImageUtils.generateFileName (stem ++ "." ++ ext) format suffix
     = (stem ++ suffix ++ "." ++ ImageUtils.getFormatExtension format)%string) /\
  (forall name format suffix,
     ImageUtils.includes objectMembers format = false ->
     (forall stem ext, name = (stem ++ "." ++ ext)%string ->
        ext = ""%string \/ ImageUtils.plainChars ext = false) ->
     ImageUtils.generateFileName name format suffix
     = (name ++ suffix ++ "." ++ ImageUtils.getFormatExtension format)%string).
Proof.
  split.
  - intros stem ext format suffix _ Hne Hp. unfold ImageUtils.generateFileName.
    now rewrite stripExtension_app.
  - intros name format suffix _ Hno. unfold ImageUtils.generateFileName.
    destruct (ImageUtils.stripExtension name) as [n|] eqn:E; [|reflexivity].
    apply stripExtension_Some in E. destruct E as (ext & Hs & Hne & Hp).
    destruct (Hno n ext Hs) as [H|H]; congruence.
Qed.

(** Only the last of two extensions goes; a name that ends in a dot and a
    name whose last dot is in a directory part are kept whole. *)
Lemma generateFileName_replaces_last_extension_witness :
  ImageUtils.generateFileName "archive.tar.gz" "image/png" "_converted"
  = "archive.tar_converted.png"%string /\
  ImageUtils.generateFileName "photo." "image/webp" "_compressed"
  = "photo._compressed.webp"%string /\
  ImageUtils.generateFileName "scans.2024/page" "image/jpeg" "_cropped"
  = "scans.2024/page_cropped.jpg"%string.
Proof.
  split; [|split].
  - apply (proj1 generateFileName_replaces_last_extension "archive.tar" "gz"
             "image/png" "_converted")%string.
    + reflexivity.
    + discriminate.
    + reflexivity.
  - apply (proj2 generateFileName_replaces_last_extension "photo." "image/webp"
             "_compressed")%string.
    + reflexivity.
    + apply stripExtension_None. reflexivity.
  - apply (proj2 generateFileName_replaces_last_extension "scans.2024/page"
             "image/jpeg" "_cropped")%string.
    + reflexivity.
    + apply stripExtension_None. reflexivity.
Defined.

(** X2.  File names chain: naming the output of one operation after the
    output of another keeps the stem and both suffixes and carries only the
    last extension, as in photo_compressed_converted.png, for formats that
    are not names of inherited members. *)
Theorem generateFileName_chains (name format1 suffix1 format2 suffix2 : string) :
  ImageUtils.includes objectMembers format1 = false ->
  ImageUtils.includes objectMembers format2 = false ->
  exists stem,
    ImageUtils.generateFileName name format1 suffix1
    = (stem ++ suffix1 ++ "." ++ ImageUtils.getFormatExtension format1)%string /\
    ImageUtils.generateFileName
      (ImageUtils.generateFileName name format1 suffix1) format2 suffix2
    = (stem ++ suffix1 ++ suffix2 ++ "." ++ ImageUtils.getFormatExtension format2)%string.
Proof.
  intros _ _.
  exists (match ImageUtils.stripExtension name with Some n => n | None => name end).
  split; [reflexivity|].
  unfold ImageUtils.generateFileName at 2.
  set (stem := match ImageUtils.stripExtension name with Some n => n | None => name end).
  destruct (getFormatExtension_plain format1) as [Hne Hp].
  unfold ImageUtils.generateFileName.
  fold stem.
  replace (stem ++ suffix1 ++ "." ++ ImageUtils.getFormatExtension format1)%string
    with ((stem ++ suffix1) ++ "." ++ ImageUtils.getFormatExtension format1)%string
    by apply string_append_assoc.
  rewrite stripExtension_app by assumption.
  apply string_append_assoc.
Qed.

(** A JPEG that is compressed and then converted to PNG. *)
Lemma generateFileName_chains_witness :
  exists stem,
    ImageUtils.generateFileName "photo.jpeg" "image/jpeg" "_compressed"
    = (stem ++ "_compressed" ++ "." ++ ImageUtils.getFormatExtension "image/jpeg")%string /\
    ImageUtils.generateFileName
      (ImageUtils.generateFileName "photo.jpeg" "image/jpeg" "_compressed")
      "image/png" "_converted"
    = (stem ++ "_compressed" ++ "_converted" ++ "."
       ++ ImageUtils.getFormatExtension "image/png")%string.
Proof.
  apply (generateFileName_chains "photo.jpeg" "image/jpeg" "_compressed"
           "image/png" "_converted")%string.
  - reflexivity.
  - reflexivity.
Defined.

Example generateFileName_twice :
  ImageUtils.generateFileName
    (ImageUtils.generateFileName "photo.jpeg" "image/jpeg" "_compressed")
    "image/png" "_converted"
  = "photo_compressed_converted.png"%string.
Proof. reflexivity. Qed.

(** ** Resizing: what the result is *)





(** [a > b] on integers. *)
Lemma Qgtb_inject (a b : Z) : Qgtb (inject_Z a) (inject_Z b) = (b <? a).
Proof.
  destruct (b <? a) eqn:E.
  - apply Qgtb_true. rewrite <- Zlt_Qlt. now apply Z.ltb_lt.
  - apply Qgtb_false. rewrite <- Zle_Qle. now apply Z.ltb_ge.
Qed.


(** [m / (W / H) > b] decided in integers. *)
Lemma Qgtb_div_ratio (W H m b : Z) :
  0 < W -> 0 < H ->
  Qgtb (inject_Z m / (inject_Z W / inject_Z H)) (inject_Z b) = (b * W <? m * H).
Proof.
  intros HW HH.
  pose proof (inject_Z_pos _ HW) as Hw. pose proof (inject_Z_pos _ HH) as Hh.
  assert (E : (inject_Z m / (inject_Z W / inject_Z H) * inject_Z W
               == inject_Z m * inject_Z H)%Q) by (field; split; lra).
  set (t := (inject_Z m / (inject_Z W / inject_Z H))%Q) in *.
  destruct (b * W <? m * H) eqn:C.
  - apply Z.ltb_lt in C. apply Qgtb_true.
    rewrite Zlt_Qlt, !inject_Z_mult in C. nra.
  - apply Z.ltb_ge in C. apply Qgtb_false.
    rewrite Zle_Qle, !inject_Z_mult in C. nra.
Qed.







(** ** Termination of the resize loop *)

Lemma scaleBudget_succ (k : nat) :
  (scaleBudget (S k) * (9001 # 10000) == scaleBudget k)%Q.
Proof.
  unfold scaleBudget.
  replace (Z.of_nat (S k)) with (Z.of_nat k + 1) by lia.
  rewrite Qpower_plus by discriminate.
  change ((10000 # 9001) ^ 1)%Q with (10000 # 9001)%Q. field.
Qed.

Lemma widthHistory_length_DrawCanvas (c : Canvas) (w h : Z) :
  List.length (widthHistory (DrawCanvas c w h)) = S (List.length (widthHistory c)).
Proof. cbn [widthHistory]. rewrite length_app. cbn. lia. Qed.

Lemma resizedWithin_step (k : nat) (c : Canvas) (w h : Z) o :
  resizedWithin k (DrawCanvas c w h) o -> resizedWithin (S k) c o.
Proof.
  destruct o as [[b c']| |]; cbn [resizedWithin]; auto.
  rewrite widthHistory_length_DrawCanvas. lia.
Qed.

Lemma shrunkFrom_refl (canvas : Canvas) :
  0 <= canvas_width canvas -> 0 <= canvas_height canvas -> shrunkFrom canvas canvas.
Proof. intros. repeat split; lia. Qed.

Section Resizing.

Variable rnd : Q -> Q.
Hypothesis rnd_error : forall x, (Qabs (rnd x - x) <= eps64 * Qabs x)%Q.
Variable canvasToBlob : Canvas -> string -> Q -> option Blob.
Variables (format : string) (targetSize : Z).

Lemma scale_guard_false (scale : Q) :
  (scale <= 2999 # 10000)%Q ->
  Qgtb scale (ImageCompressor.lit rnd (3 # 10)) = false.
Proof.
  intro H. apply Qgtb_false. unfold ImageCompressor.lit.
  assert (H3 : (0 <= 3 # 10)%Q) by lra.
  pose proof (rnd_nonneg rnd rnd_error _ H3) as [Hc _]. unfold eps64 in *. lra.
Qed.

Lemma scale_guard_true (scale : Q) :
  Qgtb scale (ImageCompressor.lit rnd (3 # 10)) = true -> (2999 # 10000 < scale)%Q.
Proof.
  intro H. apply Qgtb_true in H. unfold ImageCompressor.lit in H.
  assert (H3 : (0 <= 3 # 10)%Q) by lra.
  pose proof (rnd_nonneg rnd rnd_error _ H3) as [Hc _]. unfold eps64 in *. lra.
Qed.

(** [scale *= 0.9] shrinks the scale by at least 0.9001. *)
Lemma scale_step (scale : Q) :
  (0 <= scale)%Q ->
  (0 <= ImageCompressor.mul rnd scale (ImageCompressor.lit rnd (9 # 10))
   <= scale * (9001 # 10000))%Q.
Proof.
  intro H0. unfold ImageCompressor.mul, ImageCompressor.lit.
  assert (H9 : (0 <= 9 # 10)%Q) by lra.
  pose proof (rnd_nonneg rnd rnd_error _ H9) as [Hc1 Hc2].
  set (c := rnd (9 # 10)) in *.
  assert (Hp : (0 <= scale * c)%Q) by (unfold eps64 in *; nra).
  pose proof (rnd_nonneg rnd rnd_error _ Hp) as [Hm1 Hm2].
  unfold eps64 in *. split; nra.
Qed.

Lemma initial_scale_budget : (ImageCompressor.lit rnd (9 # 10) <= scaleBudget 11)%Q.
Proof.
  unfold ImageCompressor.lit.
  assert (H9 : (0 <= 9 # 10)%Q) by lra.
  pose proof (rnd_nonneg rnd rnd_error _ H9) as [_ Hc].
  assert (E : (95 # 100 <= scaleBudget 11)%Q).
  { apply Qle_bool_iff. vm_compute. reflexivity. }
  unfold eps64 in *. lra.
Qed.

Lemma initial_scale_small : (ImageCompressor.lit rnd (9 # 10) <= 91 # 100)%Q.
Proof.
  unfold ImageCompressor.lit.
  assert (H9 : (0 <= 9 # 10)%Q) by lra.
  pose proof (rnd_nonneg rnd rnd_error _ H9) as [_ Hc]. unfold eps64 in *. lra.
Qed.

Lemma resizeLoop_settles (quality : Q) (k : nat) :
  forall fuel canvas scale,
    (k <= fuel)%nat -> (scale <= scaleBudget k)%Q ->
    resizedWithin k canvas
      (ImageCompressor.resizeLoop rnd canvasToBlob fuel format targetSize quality
         canvas scale).
Proof.
  induction k as [|k IH]; intros fuel canvas scale Hfuel Hs.
  - assert (H0 : (scaleBudget 0 == 2999 # 10000)%Q) by reflexivity.
    assert (Hs' : (scale <= 2999 # 10000)%Q) by lra.
    pose proof (scale_guard_false _ Hs') as Hg.
    destruct fuel; cbn [ImageCompressor.resizeLoop]; rewrite Hg; cbn; lia.
  - destruct fuel as [|fuel]; [lia|].
    cbn [ImageCompressor.resizeLoop].
    destruct (Qgtb scale (ImageCompressor.lit rnd (3 # 10))) eqn:Hg; [|cbn; lia].
    apply scale_guard_true in Hg.
    assert (H0 : (0 <= scale)%Q) by lra.
    pose proof (scale_step _ H0) as [S1 S2].
    pose proof (scaleBudget_succ k) as HB.
    match goal with
    | |- context [canvasToBlob ?c format quality] =>
        destruct (canvasToBlob c format quality) as [b|]
    end; cbn [sizeOf bind]; [|reflexivity].
    destruct (blob_size b <=? targetSize).
    + cbn [resizedWithin]. rewrite widthHistory_length_DrawCanvas. lia.
    + eapply resizedWithin_step. apply IH; [lia|].
      set (s' := ImageCompressor.mul rnd scale (ImageCompressor.lit rnd (9 # 10))) in *.
      nra.
Qed.

(** A side scaled by at most 0.91 and rounded does not grow. *)
Lemma scaled_side (n : Z) (scale : Q) :
  0 <= n -> (0 <= scale <= 91 # 100)%Q ->
  0 <= jsRound (ImageCompressor.mul rnd (inject_Z n) scale) <= n.
Proof.
  intros Hn [H0 H1]. unfold ImageCompressor.mul.
  assert (Hnq : (0 <= inject_Z n)%Q).
  { change 0%Q with (inject_Z 0). now rewrite <- Zle_Qle. }
  assert (Hp : (0 <= inject_Z n * scale)%Q) by nra.
  pose proof (rnd_nonneg rnd rnd_error _ Hp) as [R1 R2].
  set (x := rnd (inject_Z n * scale)) in *.
  split.
  - apply jsRound_ge_Z. change (inject_Z 0) with 0%Q. unfold eps64 in *. nra.
  - pose proof (jsRound_upper x) as U.
    assert (L : (inject_Z (jsRound x) < inject_Z (n + 1))%Q).
    { rewrite inject_Z_plus. change (inject_Z 1) with 1%Q. unfold eps64 in *. nra. }
    rewrite <- Zlt_Qlt in L. lia.
Qed.

(** What the resize loop returns: a blob under the ceiling, or the last
    canvas encoded at quality 0.1. *)
Lemma resizeLoop_result (quality : Q) (fuel : nat) :
  forall canvas scale blob final,
    0 <= canvas_width canvas -> 0 <= canvas_height canvas ->
    (scale <= 91 # 100)%Q ->
    ImageCompressor.resizeLoop rnd canvasToBlob fuel format targetSize quality
      canvas scale = Returned (blob, final) ->
    shrunkFrom canvas final /\
    (underCeiling targetSize blob \/
     blob = canvasToBlob final format (ImageCompressor.lit rnd (1 # 10))).
Proof.
  induction fuel as [|fuel IH]; intros canvas scale blob final Hw Hh Hs Hrun;
    cbn [ImageCompressor.resizeLoop] in Hrun;
    destruct (Qgtb scale (ImageCompressor.lit rnd (3 # 10))) eqn:Hg;
    try discriminate;
    try (injection Hrun as <- <-; split; [now apply shrunkFrom_refl|now right]).
  apply scale_guard_true in Hg.
  assert (H0 : (0 <= scale)%Q) by lra.
  pose proof (scaled_side _ _ Hw (conj H0 Hs)) as Sw.
  pose proof (scaled_side _ _ Hh (conj H0 Hs)) as Sh.
  pose proof (scale_step _ H0) as [S1 S2].
  set (newCanvas := DrawCanvas canvas
         (jsRound (ImageCompressor.mul rnd (inject_Z (canvas_width canvas)) scale))
         (jsRound (ImageCompressor.mul rnd (inject_Z (canvas_height canvas)) scale))) in *.
  destruct (canvasToBlob newCanvas format quality) as [b|] eqn:Eb;
    cbn [sizeOf bind] in Hrun; [|discriminate].
  destruct (blob_size b <=? targetSize) eqn:Efit.
  - injection Hrun as <- <-. apply Z.leb_le in Efit. split.
    + unfold shrunkFrom, newCanvas. cbn [origin canvas_width canvas_height].
      repeat split; lia.
    + left. exists b. now split.
  - apply IH in Hrun; try (unfold newCanvas; cbn [canvas_width canvas_height]; lia).
    + destruct Hrun as [(O & Wd & Ht) R]. split; [|exact R].
      unfold shrunkFrom. unfold newCanvas in O, Wd, Ht.
      cbn [origin canvas_width canvas_height] in O, Wd, Ht.
      repeat split; try lia. exact O.
    + set (s' := ImageCompressor.mul rnd scale (ImageCompressor.lit rnd (9 # 10))) in *.
      nra.
Qed.

Lemma iterateCompression_result (fuel : nat) (canvas : Canvas) (initialQuality : Q)
    (blob : option Blob) :
  0 <= canvas_width canvas -> 0 <= canvas_height canvas ->
  ImageCompressor.iterateCompression rnd canvasToBlob fuel canvas format targetSize
    initialQuality = Returned blob ->
  underCeiling targetSize blob \/
  (exists final,
     shrunkFrom canvas final /\
     blob = canvasToBlob final format (ImageCompressor.lit rnd (1 # 10))).
Proof.
  intros Hw Hh Hrun. unfold ImageCompressor.iterateCompression in Hrun.
  destruct (canvasToBlob canvas format initialQuality) as [b0|] eqn:E0;
    cbn [sizeOf bind] in Hrun; [|discriminate].
  destruct (blob_size b0 <=? targetSize) eqn:F0.
  - injection Hrun as <-. apply Z.leb_le in F0. left. exists b0. now split.
  - destruct (ImageCompressor.searchLoop rnd canvasToBlob fuel canvas format targetSize
                (ImageCompressor.searchStart rnd (Some b0) initialQuality)) as [s| |];
      cbn [bind] in Hrun; try discriminate.
    destruct (ImageCompressor.bestBlob s) as [b|] eqn:Eb;
      cbn [sizeOf bind] in Hrun; [|discriminate].
    destruct (blob_size b >? targetSize) eqn:Fb.
    + unfold ImageCompressor.compressByResizing in Hrun.
      destruct (ImageCompressor.resizeLoop rnd canvasToBlob fuel format targetSize
                  (ImageCompressor.bestQuality s) canvas
                  (ImageCompressor.lit rnd (9 # 10))) as [[ob final]| |] eqn:Er;
        cbn [bind fst] in Hrun; try discriminate.
      injection Hrun as <-.
      apply resizeLoop_result in Er; try assumption; [|apply initial_scale_small].
      destruct Er as [Sh [R|R]]; [left; exact R|right; eauto].
    + injection Hrun as <-. left. exists b. split; [reflexivity|].
      rewrite Z.gtb_ltb in Fb. now apply Z.ltb_ge in Fb.
Qed.

Lemma iterateCompression_settles (fuel : nat) (canvas : Canvas) (initialQuality : Q) :
  (11 <= fuel)%nat -> (initialQuality <= 1)%Q ->
  ImageCompressor.iterateCompression rnd canvasToBlob fuel canvas format targetSize
    initialQuality <> Pending.
Proof.
  intros Hfuel Hq. unfold ImageCompressor.iterateCompression.
  destruct (canvasToBlob canvas format initialQuality) as [b0|];
    cbn [sizeOf bind]; [|discriminate].
  destruct (blob_size b0 <=? targetSize); [discriminate|].
  set (s0 := ImageCompressor.searchStart rnd (Some b0) initialQuality).
  assert (H10 : (0 <= 1 # 10)%Q) by lra.
  pose proof (rnd_nonneg rnd rnd_error _ H10) as [Hc1 Hc2].
  assert (S5 : settledWithin 5 s0
                 (ImageCompressor.searchLoop rnd canvasToBlob fuel canvas format
                    targetSize s0)).
  { apply (searchLoop_settles rnd rnd_error); [lia| | |];
      cbn [s0 ImageCompressor.searchStart ImageCompressor.minQuality
           ImageCompressor.maxQuality]; unfold ImageCompressor.lit.
    - unfold eps64 in *. lra.
    - lra.
    - assert (E5 : (widthBudget 5 == 1537 # 1000)%Q) by reflexivity.
      unfold eps64 in *. lra. }
  destruct (ImageCompressor.searchLoop rnd canvasToBlob fuel canvas format targetSize s0)
    as [s| |]; cbn [bind settledWithin] in *; [|discriminate|contradiction].
  destruct (ImageCompressor.bestBlob s) as [b|]; cbn [sizeOf bind]; [|discriminate].
  destruct (blob_size b >? targetSize); [|discriminate].
  pose proof (resizeLoop_settles (ImageCompressor.bestQuality s) 11 fuel canvas _
                Hfuel initial_scale_budget) as R.
  unfold ImageCompressor.compressByResizing.
  destruct (ImageCompressor.resizeLoop rnd canvasToBlob fuel format targetSize
              (ImageCompressor.bestQuality s) canvas (ImageCompressor.lit rnd (9 # 10)))
    as [[ob final]| |]; cbn [resizedWithin bind] in *;
    [discriminate|discriminate|contradiction].
Qed.

End Resizing.

(** X7.  [compressByResizing] settles for every encoder and every canvas:
    on any arithmetic that rounds with a relative error of at most 2^-53 its
    loop runs at most 11 times ([scale] falls from 0.9 by a factor 0.9 per
    step until it is no more than 0.3), so the canvas it ends on was drawn
    through at most 11 canvases; the only error it can throw is the one for
    a blob that is null. *)
Theorem compressByResizing_settles
    (rnd : Q -> Q) (canvasToBlob : Canvas -> string -> Q -> option Blob)
    (fuel : nat) (canvas : Canvas) (format : string) (targetSize : Z) (quality : Q) :
  (forall x, (Qabs (rnd x - x) <= eps64 * Qabs x)%Q) ->
  (11 <= fuel)%nat ->
  match ImageCompressor.resizeLoop rnd canvasToBlob fuel format targetSize quality
          canvas (ImageCompressor.lit rnd (9 # 10)) with
  | Returned (blob, final) =>
      (List.length (widthHistory final) <= List.length (widthHistory canvas) + 11)%nat /\
      ImageCompressor.compressByResizing rnd canvasToBlob fuel canvas format
        targetSize quality = Returned blob
  | Threw e =>
      e = NullBlob /\
      ImageCompressor.compressByResizing rnd canvasToBlob fuel canvas format
        targetSize quality = Threw NullBlob
  | Pending => False
  end.
Proof.
  intros Hrnd Hfuel.
  pose proof (resizeLoop_settles rnd Hrnd canvasToBlob format targetSize quality 11
                fuel canvas _ Hfuel (initial_scale_budget rnd Hrnd)) as H.
  unfold ImageCompressor.compressByResizing.
  destruct (ImageCompressor.resizeLoop rnd canvasToBlob fuel format targetSize quality
              canvas (ImageCompressor.lit rnd (9 # 10))) as [[b c]| |];
    cbn [resizedWithin bind fst] in *.
  - split; [assumption|reflexivity].
  - subst. split; reflexivity.
  - assumption.
Qed.

(** On doubles, with an encoder that never fits. *)
Lemma compressByResizing_settles_witness :
  match ImageCompressor.resizeLoop binary64 tooLarge 11 "image/jpeg" 512000
          (binary64 (8 # 10)) pictureCanvas (ImageCompressor.lit binary64 (9 # 10)) with
  | Returned (blob, final) =>
      (List.length (widthHistory final) <= List.length (widthHistory pictureCanvas) + 11)%nat /\
      ImageCompressor.compressByResizing binary64 tooLarge 11 pictureCanvas "image/jpeg"
        512000 (binary64 (8 # 10)) = Returned blob
  | Threw e =>
      e = NullBlob /\
      ImageCompressor.compressByResizing binary64 tooLarge 11 pictureCanvas "image/jpeg"
        512000 (binary64 (8 # 10)) = Threw NullBlob
  | Pending => False
  end.
Proof.
  apply (compressByResizing_settles binary64 tooLarge 11 pictureCanvas "image/jpeg"
           512000 (binary64 (8 # 10))).
  - exact binary64_error.
  - lia.
Defined.

(** X8.  [compressImage] settles whenever the decoder does: for a quality
    of at most 1 and any encoder, ceiling and bounds, the quality search
    (at most 5 steps) and the resize loop (at most 11) both end, so the call
    returns or throws. *)
Theorem compressImage_settles
    (rnd : Q -> Q) (createImageElement : File -> Outcome Image)
    (canvasToBlob : Canvas -> string -> Q -> option Blob)
    (fuel : nat) (file : File) (options : ImageCompressor.Options) :
  (forall x, (Qabs (rnd x - x) <= eps64 * Qabs x)%Q) ->
  (ImageCompressor.quality options <= 1)%Q ->
  (11 <= fuel)%nat ->
  createImageElement file <> Pending ->
  ImageCompressor.compressImage rnd createImageElement canvasToBlob fuel file options
  <> Pending.
Proof.
  intros Hrnd Hq Hfuel Hload. unfold ImageCompressor.compressImage.
  destruct (validateFile_cases file) as [[E _]|[[E _]|[E _]]]; rewrite E;
    cbn [bind rethrow]; try discriminate.
  destruct (createImageElement file) as [img| |]; cbn [bind rethrow];
    [|discriminate|contradiction].
  set (d := ImageUtils.calculateResizedDimensions _ _ _ _ _).
  set (canvas := DrawImage img (width d) (height d)).
  pose proof (iterateCompression_settles rnd Hrnd canvasToBlob (file_type file)
                (ImageCompressor.maxFileSize options * 1024) fuel canvas
                (ImageCompressor.quality options) Hfuel Hq) as Hit.
  destruct (ImageCompressor.maxFileSize options >? 0).
  - destruct (canvasToBlob canvas (file_type file) (ImageCompressor.quality options))
      as [b|] eqn:Eb; cbn [sizeOf bind rethrow]; [|discriminate].
    destruct (blob_size b >? ImageCompressor.maxFileSize options * 1024).
    + destruct (ImageCompressor.iterateCompression rnd canvasToBlob fuel canvas
                  (file_type file) (ImageCompressor.maxFileSize options * 1024)
                  (ImageCompressor.quality options)) as [[b'|]| |];
        cbn [sizeOf bind rethrow]; try discriminate. contradiction.
    + cbn [bind sizeOf rethrow]. discriminate.
  - cbn [bind].
    destruct (canvasToBlob canvas (file_type file) (ImageCompressor.quality options));
      cbn [sizeOf bind rethrow]; discriminate.
Qed.

Lemma compressImage_settles_witness :
  ImageCompressor.compressImage binary64 loadPicture tooLarge 11 pictureFile halfMegabyte
  <> Pending.
Proof.
  apply (compressImage_settles binary64 loadPicture tooLarge 11 pictureFile halfMegabyte).
  - exact binary64_error.
  - apply Qle_bool_iff. reflexivity.
  - lia.
  - discriminate.
Defined.

(** X9.  The blob [iterateCompression] returns respects the ceiling, with
    one exception: the last resort of [compressByResizing], the encoding at
    quality 0.1 of a canvas that was drawn from the given one and is no
    larger.  No other blob over the ceiling is ever handed back. *)
Theorem iterateCompression_respects_ceiling
    (rnd : Q -> Q) (canvasToBlob : Canvas -> string -> Q -> option Blob)
    (fuel : nat) (canvas : Canvas) (format : string) (targetSize : Z)
    (initialQuality : Q) (blob : option Blob) :
  (forall x, (Qabs (rnd x - x) <= eps64 * Qabs x)%Q) ->
  0 <= canvas_width canvas -> 0 <= canvas_height canvas ->
  ImageCompressor.iterateCompression rnd canvasToBlob fuel canvas format targetSize
    initialQuality = Returned blob ->
  underCeiling targetSize blob \/
  (exists final,
     shrunkFrom canvas final /\
     blob = canvasToBlob final format (ImageCompressor.lit rnd (1 # 10))).
Proof.
  intros Hrnd Hw Hh Hrun.
  now apply (iterateCompression_result rnd Hrnd canvasToBlob format targetSize fuel
               canvas initialQuality).
Qed.

Lemma iterateCompression_respects_ceiling_witness :
  underCeiling 512000 (Some (mkBlob 143749 "image/jpeg")) \/
  (exists final,
     shrunkFrom pictureCanvas final /\
     Some (mkBlob 143749 "image/jpeg")
     = byQuality final "image/jpeg" (ImageCompressor.lit binary64 (1 # 10))).
Proof.
  apply (iterateCompression_respects_ceiling binary64 byQuality 11 pictureCanvas
           "image/jpeg" 512000 (binary64 (8 # 10))).
  - exact binary64_error.
  - vm_compute. discriminate.
  - vm_compute. discriminate.
  - vm_compute. reflexivity.
Defined.

(** ** Compression levels *)

Lemma getLevel_setLevel (levels : ImageCompressor.Levels)
    (name : ImageCompressor.LevelName) (l : ImageCompressor.Level) :
  ImageCompressor.getLevel (ImageCompressor.setLevel levels name l) name = l.
Proof. destruct name; reflexivity. Qed.

(** X10.  A target size given to [smartCompress] stays on the compression
    level it was given for.  The options of a file over 1 MiB are one of the
    objects of [this.compressionLevels] itself, and the target size is
    written into it: the call compresses under that ceiling, and so does
    every later call that picks the same level and gives no target size. *)
Theorem smartCompress_target_persists
    (rnd : Q -> Q) (loadImage createImageElement : File -> Outcome Image)
    (canvasToBlob : Canvas -> string -> Q -> option Blob)
    (fuel : nat) (levels : ImageCompressor.Levels) (file1 file2 : File)
    (info1 info2 : ImageUtils.ImageInfo)
    (name : ImageCompressor.LevelName) (targetSize : Z) :
  ImageUtils.getImageInfo loadImage file1 = Returned info1 ->
  ImageUtils.getImageInfo loadImage file2 = Returned info2 ->
  ImageCompressor.chooseOptions rnd info1 = ImageCompressor.Shared name ->
  ImageCompressor.chooseOptions rnd info2 = ImageCompressor.Shared name ->
  targetSize <> 0 ->
  let first :=
    ImageCompressor.smartCompress rnd loadImage createImageElement canvasToBlob
      fuel levels file1 (Some targetSize) in
  let second :=
    ImageCompressor.smartCompress rnd loadImage createImageElement canvasToBlob
      fuel (fst first) file2 None in
  let underTarget :=
    ImageCompressor.mkOptions
      (ImageCompressor.level_quality (ImageCompressor.getLevel levels name))
      (Some (ImageCompressor.level_maxWidth (ImageCompressor.getLevel levels name)))
      (Some (ImageCompressor.level_maxHeight (ImageCompressor.getLevel levels name)))
      targetSize true in
  snd first
  = ImageCompressor.compressImage rnd createImageElement canvasToBlob fuel file1
      underTarget /\
  ImageCompressor.level_maxFileSize (ImageCompressor.getLevel (fst first) name)
  = Some targetSize /\
  snd second
  = ImageCompressor.compressImage rnd createImageElement canvasToBlob fuel file2
      underTarget /\
  fst second = fst first.
Proof.
  intros L1 L2 C1 C2 Ht first second underTarget.
  subst first second underTarget.
  unfold ImageCompressor.smartCompress. rewrite L1, L2, C1, C2.
  rewrite (truthy_Some targetSize Ht).
  cbn [truthy ImageCompressor.assignMaxFileSize fst snd ImageCompressor.deref].
  rewrite getLevel_setLevel.
  cbn [ImageCompressor.level_maxFileSize ImageCompressor.destructure
       ImageCompressor.level_quality ImageCompressor.level_maxWidth
       ImageCompressor.level_maxHeight].
  repeat split.
Qed.

(** Two photographs of 6 and 7 MiB pick the level [high]; the first is
    compressed to at most 500 KiB, and so is the second, for which no target
    size is given. *)
Lemma smartCompress_target_persists_witness :
  let first :=
    ImageCompressor.smartCompress binary64 loadPicture loadPicture byQuality
      11 (ImageCompressor.compressionLevels binary64) sixMegabytes (Some 500) in
  let second :=
    ImageCompressor.smartCompress binary64 loadPicture loadPicture byQuality
      11 (fst first) sevenMegabytes None in
  let underTarget :=
    ImageCompressor.mkOptions
      (ImageCompressor.level_quality
         (ImageCompressor.getLevel (ImageCompressor.compressionLevels binary64)
            ImageCompressor.High))
      (Some (ImageCompressor.level_maxWidth
               (ImageCompressor.getLevel (ImageCompressor.compressionLevels binary64)
                  ImageCompressor.High)))
      (Some (ImageCompressor.level_maxHeight
               (ImageCompressor.getLevel (ImageCompressor.compressionLevels binary64)
                  ImageCompressor.High)))
      500 true in
  snd first
  = ImageCompressor.compressImage binary64 loadPicture byQuality 11 sixMegabytes
      underTarget /\
  ImageCompressor.level_maxFileSize
    (ImageCompressor.getLevel (fst first) ImageCompressor.High) = Some 500 /\
  snd second
  = ImageCompressor.compressImage binary64 loadPicture byQuality 11 sevenMegabytes
      underTarget /\
  fst second = fst first.
Proof.
  apply (smartCompress_target_persists binary64 loadPicture loadPicture byQuality 11
           (ImageCompressor.compressionLevels binary64) sixMegabytes sevenMegabytes
           (ImageUtils.mkImageInfo 1000 1000 6291456 "image/jpeg" "first.jpg")
           (ImageUtils.mkImageInfo 1000 1000 7340032 "image/jpeg" "second.jpg")
           ImageCompressor.High 500).
  - reflexivity.
  - reflexivity.
  - reflexivity.
  - reflexivity.
  - discriminate.
Defined.

(** The second photograph comes back with 131249 bytes, under the 512000
    the first call asked for; on fresh levels it comes back as encoded at
    quality 0.6, with 599999 bytes. *)
Example smartCompress_second_call :
  option_map ImageCompressor.newSize
    (match snd (ImageCompressor.smartCompress binary64 loadPicture loadPicture byQuality 11
                  (fst (ImageCompressor.smartCompress binary64 loadPicture loadPicture
                          byQuality 11 (ImageCompressor.compressionLevels binary64)
                          sixMegabytes (Some 500)))
                  sevenMegabytes None) with
     | Returned r => Some r
     | _ => None
     end) = Some 131249 /\
  option_map ImageCompressor.newSize
    (match snd (ImageCompressor.smartCompress binary64 loadPicture loadPicture byQuality 11
                  (ImageCompressor.compressionLevels binary64) sevenMegabytes None) with
     | Returned r => Some r
     | _ => None
     end) = Some 599999.
Proof. split; vm_compute; reflexivity. Qed.

(** X11.  The suggestion of [getCompressionSuggestion] is monotone in the
    file size: for every use case, known or not, a larger file is never
    given a higher quality nor a smaller maximal width than a smaller
    file. *)
Theorem getCompressionSuggestion_monotone (fileSize1 fileSize2 : Z) (useCase : string) :
  fileSize1 <= fileSize2 ->
  (ImageCompressor.suggested_quality
     (ImageCompressor.getCompressionSuggestion fileSize2 useCase)
   <= ImageCompressor.suggested_quality
        (ImageCompressor.getCompressionSuggestion fileSize1 useCase))%Q /\
  ImageCompressor.suggested_maxWidth
    (ImageCompressor.getCompressionSuggestion fileSize1 useCase)
  <= ImageCompressor.suggested_maxWidth
       (ImageCompressor.getCompressionSuggestion fileSize2 useCase).
Proof.
  intro Hle. unfold ImageCompressor.getCompressionSuggestion, ImageCompressor.suggestions.
  destruct (fileSize1 <? 1024 * 1024) eqn:A1;
  destruct (fileSize2 <? 1024 * 1024) eqn:A2;
  destruct (fileSize1 <? 5 * 1024 * 1024) eqn:B1;
  destruct (fileSize2 <? 5 * 1024 * 1024) eqn:B2;
  try (apply Z.ltb_lt in A1); try (apply Z.ltb_ge in A1);
  try (apply Z.ltb_lt in A2); try (apply Z.ltb_ge in A2);
  try (apply Z.ltb_lt in B1); try (apply Z.ltb_ge in B1);
  try (apply Z.ltb_lt in B2); try (apply Z.ltb_ge in B2);
  try lia;
  destruct (String.eqb useCase "web");
  try (split; [apply Qle_bool_iff; reflexivity|cbn; lia]);
  destruct (String.eqb useCase "mobile");
  try (split; [apply Qle_bool_iff; reflexivity|cbn; lia]);
  destruct (String.eqb useCase "print");
  split; try (apply Qle_bool_iff; reflexivity); cbn; lia.
Qed.

(** A file of 800 KiB and one of 3 MiB, for print. *)
Lemma getCompressionSuggestion_monotone_witness :
  (ImageCompressor.suggested_quality
     (ImageCompressor.getCompressionSuggestion 3145728 "print")
   <= ImageCompressor.suggested_quality
        (ImageCompressor.getCompressionSuggestion 819200 "print"))%Q /\
  ImageCompressor.suggested_maxWidth
    (ImageCompressor.getCompressionSuggestion 819200 "print")
  <= ImageCompressor.suggested_maxWidth
       (ImageCompressor.getCompressionSuggestion 3145728 "print").
Proof.
  apply (getCompressionSuggestion_monotone 819200 3145728 "print"). lia.
Defined.

(** ** Watermarks *)




Lemma ceilDiv_spec (a b : Z) :
  0 < b -> 0 <= a ->
  0 <= ceilDiv a b /\ a <= ceilDiv a b * b /\ (ceilDiv a b - 1) * b < a + Z.b2z (a =? 0).
Proof.
  intros Hb Ha. unfold ceilDiv.
  pose proof (Z.div_mod (a + b - 1) b ltac:(lia)) as D.
  pose proof (Z.mod_pos_bound (a + b - 1) b Hb) as M.
  assert (0 <= (a + b - 1) / b) by (apply Z.div_pos; lia).
  destruct (a =? 0) eqn:E; cbn [Z.b2z]; repeat split; nia.
Qed.

Lemma ceilDiv_le (a b : Z) : 0 < b -> 0 <= a -> ceilDiv a b <= a.
Proof.
  intros Hb Ha. destruct (ceilDiv_spec a b Hb Ha) as (K0 & K1 & K2).
  destruct (Z.eq_dec a 0) as [->|Hne].
  - unfold ceilDiv. rewrite Z.div_small by lia. lia.
  - replace (a =? 0) with false in K2 by (symmetry; now apply Z.eqb_neq).
    cbn [Z.b2z] in K2. nia.
Qed.

Lemma rowPoints_length (n : nat) (spacing y : Z) :
  List.length (rowPoints n spacing y) = n.
Proof. unfold rowPoints. now rewrite length_map, length_seq. Qed.

Lemma gridPoints_length (columns rows : nat) (spacing : Z) :
  List.length (gridPoints columns rows spacing) = (rows * columns)%nat.
Proof.
  unfold gridPoints. generalize 0%nat as start.
  induction rows as [|rows IH]; intro start; [reflexivity|].
  cbn [seq flat_map]. rewrite length_app, rowPoints_length, IH. lia.
Qed.

(** The inner loop from column [i] on, with [n] columns to go. *)
Lemma stampRow_run (canvasWidth spacing y : Z) (n : nat) :
  0 < spacing ->
  forall fuel i stamps,
    (n <= fuel)%nat ->
    canvasWidth <= Z.of_nat (i + n) * spacing ->
    ((0 < n)%nat -> Z.of_nat (i + n - 1) * spacing < canvasWidth) ->
    WatermarkProcessor.stampRow fuel canvasWidth spacing (Z.of_nat i * spacing) y stamps
    = Returned (stamps ++ map (fun k => (Z.of_nat k * spacing, y)) (seq i n)).
Proof.
  intro Hs. induction n as [|n IH]; intros fuel i stamps Hfuel Hup Hlo.
  - replace (i + 0)%nat with i in Hup by lia.
    destruct fuel; cbn [WatermarkProcessor.stampRow seq map];
      replace (Z.of_nat i * spacing <? canvasWidth) with false
        by (symmetry; apply Z.ltb_ge; lia);
      now rewrite app_nil_r.
  - destruct fuel as [|fuel]; [lia|].
    cbn [WatermarkProcessor.stampRow seq map].
    replace (Z.of_nat i * spacing <? canvasWidth) with true
      by (symmetry; apply Z.ltb_lt; specialize (Hlo ltac:(lia)); nia).
    replace (Z.of_nat i * spacing + spacing) with (Z.of_nat (S i) * spacing) by lia.
    rewrite IH.
    + now rewrite <- app_assoc.
    + lia.
    + replace (S i + n)%nat with (i + S n)%nat by lia. exact Hup.
    + intro Hn. replace (S i + n - 1)%nat with (i + S n - 1)%nat by lia.
      apply Hlo. lia.
Qed.

(** The outer loop from row [j] on, with [m] rows to go. *)
Lemma stampRows_run (canvasWidth canvasHeight spacing : Z) (columns : nat) (m : nat) :
  0 < spacing ->
  canvasWidth <= Z.of_nat columns * spacing ->
  ((0 < columns)%nat -> Z.of_nat (columns - 1) * spacing < canvasWidth) ->
  forall fuel rowFuel j stamps,
    (m <= fuel)%nat -> (columns <= rowFuel)%nat ->
    canvasHeight <= Z.of_nat (j + m) * spacing ->
    ((0 < m)%nat -> Z.of_nat (j + m - 1) * spacing < canvasHeight) ->
    WatermarkProcessor.stampRows fuel rowFuel canvasWidth canvasHeight spacing
      (Z.of_nat j * spacing) stamps
    = Returned (stamps ++
                flat_map (fun k => rowPoints columns spacing (Z.of_nat k * spacing))
                  (seq j m)).
Proof.
  intros Hs Cup Clo. induction m as [|m IH]; intros fuel rowFuel j stamps Hfuel Hrow Hup Hlo.
  - replace (j + 0)%nat with j in Hup by lia.
    destruct fuel; cbn [WatermarkProcessor.stampRows seq flat_map];
      replace (Z.of_nat j * spacing <? canvasHeight) with false
        by (symmetry; apply Z.ltb_ge; lia);
      now rewrite app_nil_r.
  - destruct fuel as [|fuel]; [lia|].
    cbn [WatermarkProcessor.stampRows seq flat_map].
    replace (Z.of_nat j * spacing <? canvasHeight) with true
      by (symmetry; apply Z.ltb_lt; specialize (Hlo ltac:(lia)); nia).
    change 0 with (Z.of_nat 0 * spacing) at 1.
    rewrite (stampRow_run canvasWidth spacing (Z.of_nat j * spacing) columns Hs
               rowFuel 0%nat stamps Hrow); [|exact Cup|exact Clo].
    cbn [bind].
    replace (Z.of_nat j * spacing + spacing) with (Z.of_nat (S j) * spacing) by lia.
    rewrite IH.
    + unfold rowPoints. now rewrite <- app_assoc.
    + lia.
    + assumption.
    + replace (S j + m)%nat with (j + S m)%nat by lia. exact Hup.
    + intro Hm. replace (S j + m - 1)%nat with (j + S m - 1)%nat by lia.
      apply Hlo. lia.
Qed.

(** With a spacing that is not positive the inner loop never leaves its
    first column. *)
Lemma stampRow_stuck (canvasWidth spacing y : Z) (fuel : nat) :
  spacing <= 0 ->
  forall x stamps,
    x < canvasWidth ->
    WatermarkProcessor.stampRow fuel canvasWidth spacing x y stamps = Pending.
Proof.
  intro Hs. induction fuel as [|fuel IH]; intros x stamps Hx;
    cbn [WatermarkProcessor.stampRow];
    replace (x <? canvasWidth) with true by (symmetry; apply Z.ltb_lt; lia);
    [reflexivity|].
  apply IH. lia.
Qed.

(** X15.  [createRepeatingWatermark] stamps its text on a grid.  With an
    integer spacing s > 0 on a W x H image it stamps at the points
    (i * s, j * s) with i < ceil(W / s) and j < ceil(H / s), row by row:
    ceil(W / s) * ceil(H / s) stamps in all, the first at the origin.  With
    a spacing of 0 or less and an image that is not empty its loop never
    ends, however long it runs. *)
Theorem repeating_watermark_grid (createImageElement : File -> Outcome Image)
    (file : File) (img : Image) (spacing : Z) :
  createImageElement file = Returned img ->
  0 <= naturalWidth img -> 0 <= naturalHeight img ->
  (0 < spacing ->
   forall fuel,
     (Z.to_nat (naturalWidth img) <= fuel)%nat ->
     (Z.to_nat (naturalHeight img) <= fuel)%nat ->
     exists r,
       WatermarkProcessor.createRepeatingWatermark createImageElement fuel file spacing
       = Returned r /\
       WatermarkProcessor.repeating_stamps r
       = gridPoints (Z.to_nat (ceilDiv (naturalWidth img) spacing))
           (Z.to_nat (ceilDiv (naturalHeight img) spacing)) spacing /\
       Z.of_nat (List.length (WatermarkProcessor.repeating_stamps r))
       = ceilDiv (naturalWidth img) spacing * ceilDiv (naturalHeight img) spacing) /\
  (spacing <= 0 -> 0 < naturalWidth img -> 0 < naturalHeight img ->
   forall fuel,
     WatermarkProcessor.createRepeatingWatermark createImageElement fuel file spacing
     = Pending).
Proof.
  intros Hload HW HH. unfold WatermarkProcessor.createRepeatingWatermark.
  rewrite Hload. cbn [bind canvas_width canvas_height]. split.
  - intros Hs fuel Fw Fh.
    destruct (ceilDiv_spec _ _ Hs HW) as (Cw0 & Cw1 & Cw2).
    destruct (ceilDiv_spec _ _ Hs HH) as (Ch0 & Ch1 & Ch2).
    pose proof (ceilDiv_le _ _ Hs HW) as Cw3.
    pose proof (ceilDiv_le _ _ Hs HH) as Ch3.
    set (columns := Z.to_nat (ceilDiv (naturalWidth img) spacing)).
    set (rows := Z.to_nat (ceilDiv (naturalHeight img) spacing)).
    change 0 with (Z.of_nat 0 * spacing) at 1.
    rewrite (stampRows_run (naturalWidth img) (naturalHeight img) spacing columns rows Hs).
    + cbn [bind app]. eexists. split; [reflexivity|].
      cbn [WatermarkProcessor.repeating_stamps]. split; [reflexivity|].
      fold (gridPoints columns rows spacing). rewrite gridPoints_length.
      unfold columns, rows. lia.
    + unfold columns. rewrite Z2Nat.id by lia. exact Cw1.
    + unfold columns. intro Hc.
      assert (Hne : naturalWidth img <> 0).
      { intro E0. rewrite E0 in Hc. unfold ceilDiv in Hc.
        rewrite Z.div_small in Hc by lia. cbn in Hc. lia. }
      replace (naturalWidth img =? 0) with false in Cw2
        by (symmetry; now apply Z.eqb_neq).
      cbn [Z.b2z] in Cw2. rewrite Nat2Z.inj_sub by lia.
      rewrite Z2Nat.id by lia. cbn [Z.of_nat Pos.of_succ_nat]. lia.
    + unfold rows. lia.
    + unfold columns. lia.
    + unfold rows. cbn [Nat.add]. rewrite Z2Nat.id by lia. exact Ch1.
    + unfold rows. cbn [Nat.add]. intro Hr.
      assert (Hne : naturalHeight img <> 0).
      { intro E0. rewrite E0 in Hr. unfold ceilDiv in Hr.
        rewrite Z.div_small in Hr by lia. cbn in Hr. lia. }
      replace (naturalHeight img =? 0) with false in Ch2
        by (symmetry; now apply Z.eqb_neq).
      cbn [Z.b2z] in Ch2. rewrite Nat2Z.inj_sub by lia.
      rewrite Z2Nat.id by lia. cbn [Z.of_nat Pos.of_succ_nat]. lia.
  - intros Hs Wp Hp fuel.
    destruct fuel as [|fuel]; cbn [WatermarkProcessor.stampRows];
      replace (0 <? naturalHeight img) with true by (symmetry; apply Z.ltb_lt; lia);
      [reflexivity|].
    rewrite stampRow_stuck by lia. reflexivity.
Qed.

(** A 250x120 image with the spacing 100: three columns and two rows. *)
Lemma repeating_watermark_grid_witness :
  (0 < 100 ->
   forall fuel,
     (Z.to_nat 250 <= fuel)%nat -> (Z.to_nat 120 <= fuel)%nat ->
     exists r,
       WatermarkProcessor.createRepeatingWatermark
         (fun file => Returned (mkImage file 250 120)) fuel photoFile 100
       = Returned r /\
       WatermarkProcessor.repeating_stamps r
       = gridPoints (Z.to_nat (ceilDiv 250 100)) (Z.to_nat (ceilDiv 120 100)) 100 /\
       Z.of_nat (List.length (WatermarkProcessor.repeating_stamps r))
       = ceilDiv 250 100 * ceilDiv 120 100) /\
  (100 <= 0 -> 0 < 250 -> 0 < 120 ->
   forall fuel,
     WatermarkProcessor.createRepeatingWatermark
       (fun file => Returned (mkImage file 250 120)) fuel photoFile 100
     = Pending).
Proof.
  apply (repeating_watermark_grid (fun file => Returned (mkImage file 250 120))
           photoFile (mkImage photoFile 250 120) 100).
  - reflexivity.
  - cbn. lia.
  - cbn. lia.
Defined.

Example repeating_watermark_stamps :
  gridPoints (Z.to_nat (ceilDiv 250 100)) (Z.to_nat (ceilDiv 120 100)) 100
  = [(0, 0); (100, 0); (200, 0); (0, 100); (100, 100); (200, 100)].
Proof. reflexivity. Qed.

(** ** The frames of a sprite sheet *)

Lemma sliceFrames_nth canvasToBlob (img : Image) (quality : Q) (n : nat) :
  forall i k,
    (k < n)%nat ->
    nth_error (GIFProcessor.sliceFrames canvasToBlob n img quality i) k
    = Some (GIFProcessor.mkFrame
              (canvasToBlob
                 (DrawRegion img 0 ((i + Z.of_nat k) * naturalWidth img)
                    (naturalWidth img) (naturalWidth img)
                    (naturalWidth img) (naturalWidth img))
                 "image/png"%string quality)
              ("frame_" ++ GIFProcessor.decimal (i + Z.of_nat k + 1) ++ ".png")%string
              (i + Z.of_nat k + 1)).
Proof.
  induction n as [|n IH]; intros i k Hk; [lia|].
  cbn [GIFProcessor.sliceFrames].
  destruct k as [|k]; cbn [nth_error].
  - cbn [Z.of_nat]. now rewrite !Z.add_0_r.
  - rewrite IH by lia.
    replace (i + 1 + Z.of_nat k) with (i + Z.of_nat (S k)) by lia.
    reflexivity.
Qed.

(** X16.  The frames [extractFrames] returns are the squares of a vertical
    sprite sheet, top to bottom: frame k (counted from 0) is the W x W
    square at y = k * W encoded as PNG, it is numbered k + 1 and named
    frame_(k+1).png.  Every square but the last lies inside the image; the
    last one does only when W divides H, and reaches below the image
    otherwise. *)
Theorem extractFrames_slices (loadImage : File -> Outcome Image)
    (canvasToBlob : Canvas -> string -> Q -> option Blob)
    (file : File) (quality : Q) (img : Image) :
  loadImage file = Returned img ->
  0 < naturalWidth img -> 0 < naturalHeight img ->
  exists frames,
    GIFProcessor.extractFrames loadImage canvasToBlob file quality = Returned frames /\
    forall k,
      0 <= k < GIFProcessor.frameCountOf img ->
      nth_error frames (Z.to_nat k)
      = Some (GIFProcessor.mkFrame
                (canvasToBlob
                   (DrawRegion img 0 (k * naturalWidth img)
                      (naturalWidth img) (naturalWidth img)
                      (naturalWidth img) (naturalWidth img))
                   "image/png"%string quality)
                ("frame_" ++ GIFProcessor.decimal (k + 1) ++ ".png")%string
                (k + 1)) /\
      ((k + 1) * naturalWidth img <= naturalHeight img <->
       k + 1 < GIFProcessor.frameCountOf img \/
       naturalHeight img = GIFProcessor.frameCountOf img * naturalWidth img).
Proof.
  intros Hload HW HH.
  pose proof (frameCountOf_spec img HW HH) as [Hn Hb]. cbv zeta in *.
  unfold GIFProcessor.extractFrames. rewrite Hload. cbn [bind].
  set (n := GIFProcessor.frameCountOf img) in *.
  rewrite deliver_all.
  - eexists. split; [reflexivity|]. cbn [app].
    intros k Hk. split.
    + rewrite sliceFrames_nth by lia.
      rewrite Z2Nat.id by lia. cbn [Z.add]. reflexivity.
    + split.
      * intro Hin. destruct (Z_lt_le_dec (k + 1) n) as [L|L]; [now left|right; nia].
      * intros [L|E]; nia.
  - destruct (Z.to_nat n) eqn:E; [lia|discriminate].
  - rewrite sliceFrames_length. cbn [List.length]. lia.
Qed.

(** A 100x250 sheet: three frames, the third reaching 50 rows below the
    image. *)
Lemma extractFrames_slices_witness :
  exists frames,
    GIFProcessor.extractFrames (fun file => Returned (mkImage file 100 250)) byQuality
      spriteFile (3 # 4) = Returned frames /\
    forall k,
      0 <= k < GIFProcessor.frameCountOf (mkImage spriteFile 100 250) ->
      nth_error frames (Z.to_nat k)
      = Some (GIFProcessor.mkFrame
                (byQuality
                   (DrawRegion (mkImage spriteFile 100 250) 0
                      (k * naturalWidth (mkImage spriteFile 100 250))
                      (naturalWidth (mkImage spriteFile 100 250))
                      (naturalWidth (mkImage spriteFile 100 250))
                      (naturalWidth (mkImage spriteFile 100 250))
                      (naturalWidth (mkImage spriteFile 100 250)))
                   "image/png"%string (3 # 4))
                ("frame_" ++ GIFProcessor.decimal (k + 1) ++ ".png")%string
                (k + 1)) /\
      ((k + 1) * naturalWidth (mkImage spriteFile 100 250)
       <= naturalHeight (mkImage spriteFile 100 250) <->
       k + 1 < GIFProcessor.frameCountOf (mkImage spriteFile 100 250) \/
       naturalHeight (mkImage spriteFile 100 250)
       = GIFProcessor.frameCountOf (mkImage spriteFile 100 250)
         * naturalWidth (mkImage spriteFile 100 250)).
Proof.
  apply (extractFrames_slices (fun file => Returned (mkImage file 100 250)) byQuality
           spriteFile (3 # 4) (mkImage spriteFile 100 250)); reflexivity.
Defined.

Example frame_names :
  match GIFProcessor.extractFrames (fun file => Returned (mkImage file 100 250)) byQuality
          spriteFile (3 # 4) with
  | Returned frames =>
      map (fun f => (GIFProcessor.frame_filename f, GIFProcessor.frame_number f)) frames
  | _ => []
  end = [("frame_1.png", 1); ("frame_2.png", 2); ("frame_3.png", 3)]%string.
Proof. reflexivity. Qed.

(** ** The selection of the application *)

Lemma passes_true (file : File) :
  ImageProcessorApp.passes file = true <-> ImageUtils.validateFile file = Returned true.
Proof.
  unfold ImageProcessorApp.passes.
  destruct (validateFile_cases file) as [[E _]|[[E _]|[E _]]]; rewrite E;
    split; congruence.
Qed.

Lemma splice1_In {A : Type} (index : nat) :
  forall (l : list A) (x : A),
    In x (ImageProcessorApp.splice1 l index) -> In x l.
Proof.
  unfold ImageProcessorApp.splice1.
  induction index as [|index IH]; intros [|a l] x H; cbn in *; try tauto.
  destruct H as [H|H]; [now left|right]. now apply IH.
Qed.

Lemma act_selectionValid (app : ImageProcessorApp.App) (a : ImageProcessorApp.Action) :
  selectionValid app -> selectionValid (ImageProcessorApp.act app a).
Proof.
  intros [V M]. destruct a as [files|index|]; cbn [ImageProcessorApp.act].
  - unfold ImageProcessorApp.handleFileSelection.
    destruct (List.length files =? 0)%nat; [now split|].
    destruct (List.length (filter ImageProcessorApp.passes files) =? 0)%nat; [now split|].
    split; cbn [ImageProcessorApp.selectedFiles ImageProcessorApp.windowSelectedFiles].
    + intros file Hin. apply filter_In in Hin. now apply passes_true.
    + now left.
  - unfold ImageProcessorApp.removeFile.
    split; cbn [ImageProcessorApp.selectedFiles ImageProcessorApp.windowSelectedFiles].
    + intros file Hin. apply V. eapply splice1_In. exact Hin.
    + now left.
  - split; cbn; [intros file []|now left].
Qed.

(** X17.  The application only ever holds valid files.  After any
    sequence of choosing files, removing an entry and clearing the list,
    every selected file passes [validateFile] (a supported type, at most
    50 MiB), so [validateFile] cannot fail for it in a later conversion or
    compression; and [window.selectedFiles], which the processing functions
    read, holds the same files as the application's own list.  A choice
    without a single valid file leaves the selection as it was. *)
Theorem selection_holds_valid_files (actions : list ImageProcessorApp.Action) :
  let app := appSession actions in
  (forall file, In file (ImageProcessorApp.selectedFiles app) ->
     ImageUtils.validateFile file = Returned true /\
     In (file_type file) ImageUtils.supportedFormats /\
     file_size file <= ImageUtils.maxFileSize) /\
  (ImageProcessorApp.windowSelectedFiles app
   = Some (ImageProcessorApp.selectedFiles app) \/
   ImageProcessorApp.windowSelectedFiles app = None /\
   ImageProcessorApp.selectedFiles app = []) /\
  (forall files,
     (forall file, In file files -> ImageUtils.validateFile file <> Returned true) ->
     ImageProcessorApp.handleFileSelection app files = app).
Proof.
  intro app. subst app. unfold appSession.
  assert (S0 : selectionValid ImageProcessorApp.newApp).
  { split; [intros file []|right; now split]. }
  revert S0. generalize ImageProcessorApp.newApp.
  induction actions as [|a rest IH]; intros app0 S0; cbn [fold_left].
  - destruct S0 as [V M]. split; [|split; [exact M|]].
    + intros file Hin. specialize (V file Hin). split; [exact V|].
      destruct (validateFile_cases file) as [[E H]|[[E _]|[E _]]]; [exact H| |];
        congruence.
    + intros files Hbad. unfold ImageProcessorApp.handleFileSelection.
      destruct (List.length files =? 0)%nat; [reflexivity|].
      replace (filter ImageProcessorApp.passes files) with (@nil File); [reflexivity|].
      symmetry. clear -Hbad. induction files as [|f fs IHf]; [reflexivity|].
      cbn [filter]. destruct (ImageProcessorApp.passes f) eqn:P.
      * apply passes_true in P. exfalso. apply (Hbad f); [now left|exact P].
      * apply IHf. intros file Hin. apply Hbad. now right.
  - apply IH. now apply act_selectionValid.
Qed.

Example selection_after_actions :
  map file_name
    (ImageProcessorApp.selectedFiles
       (appSession [ImageProcessorApp.ChooseFiles fiveFiles;
                    ImageProcessorApp.RemoveEntry 1;
                    ImageProcessorApp.ChooseFiles [mkFile "notes.txt" "text/plain" 10]]))
  = ["one.jpg"; "four.webp"; "five.gif"]%string.
Proof. reflexivity. Qed.

(** ** Format recommendations *)

(** X18.  For every supported format and every use case, known or not,
    the format [recommendFormat] recommends is again a supported format and
    is its own recommendation (asking twice changes nothing); the use case
    'archive' keeps every format; and a recommendation that differs from
    the original is WebP or PNG. *)
Theorem recommendFormat_stable (originalFormat useCase : string) :
  In originalFormat ImageUtils.supportedFormats ->
  let recommended := ImageConverter.recommendFormat originalFormat useCase in
  In recommended ImageUtils.supportedFormats /\
  ImageConverter.recommendFormat recommended useCase = recommended /\
  ImageConverter.recommendFormat originalFormat "archive" = originalFormat /\
  (recommended <> originalFormat ->
   recommended = "image/webp"%string \/ recommended = "image/png"%string).
Proof.
  intros Hin recommended. subst recommended.
  unfold ImageUtils.supportedFormats in *. cbn [In] in Hin.
  unfold ImageConverter.recommendFormat, ImageConverter.recommendations.
  destruct (String.eqb useCase "web"); destruct (String.eqb useCase "print");
    destruct (String.eqb useCase "archive");
    destruct Hin as [<-|[<-|[<-|[<-|[<-|[]]]]]]; cbn;
    repeat split; auto 10; intro H; try (now contradiction H); auto.
Qed.

(** A JPEG for the web: WebP, and WebP again. *)
Lemma recommendFormat_stable_witness :
  let recommended := ImageConverter.recommendFormat "image/jpeg" "web" in
  In recommended ImageUtils.supportedFormats /\
  ImageConverter.recommendFormat recommended "web" = recommended /\
  ImageConverter.recommendFormat "image/jpeg" "archive" = "image/jpeg"%string /\
  (recommended <> "image/jpeg"%string ->
   recommended = "image/webp"%string \/ recommended = "image/png"%string).
Proof.
  apply (recommendFormat_stable "image/jpeg" "web"). cbn. auto.
Defined.

(** ** Where a text watermark sits *)


Example text_watermark_margins_default :
  WatermarkProcessor.calculatePosition 800 600 120 24 "middle" 20
  = WatermarkProcessor.calculatePosition 800 600 120 24 "bottom-right" 20.
Proof. reflexivity. Qed.

(** ** The qualities the search tries *)

Section TriedQualities.

Variable rnd : Q -> Q.
Hypothesis rnd_error : forall x, (Qabs (rnd x - x) <= eps64 * Qabs x)%Q.
Variable canvasToBlob : Canvas -> string -> Q -> option Blob.
Variables (canvas : Canvas) (format : string) (targetSize : Z).

(** Every quality the loop encodes at lies between the bounds it started
    from, and the candidate it ends with is the one it started with or one
    it encoded. *)
Lemma searchLoop_range (fuel : nat) :
  forall s s',
    (0 <= ImageCompressor.minQuality s)%Q ->
    (ImageCompressor.maxQuality s <= 2)%Q ->
    ImageCompressor.searchLoop rnd canvasToBlob fuel canvas format targetSize s
    = Returned s' ->
    (ImageCompressor.minQuality s <= ImageCompressor.minQuality s')%Q /\
    (ImageCompressor.maxQuality s' <= ImageCompressor.maxQuality s)%Q /\
    exists new,
      ImageCompressor.tried s' = ImageCompressor.tried s ++ new /\
      (forall q, In q new ->
         (ImageCompressor.minQuality s <= q <= ImageCompressor.maxQuality s)%Q) /\
      (ImageCompressor.bestQuality s' = ImageCompressor.bestQuality s /\
       ImageCompressor.bestBlob s' = ImageCompressor.bestBlob s \/
       In (ImageCompressor.bestQuality s') new /\
       ImageCompressor.bestBlob s'
       = canvasToBlob canvas format (ImageCompressor.bestQuality s')).
Proof.
  induction fuel as [|fuel IH]; intros s s' Hlo Hhi Hrun;
    cbn [ImageCompressor.searchLoop] in Hrun;
    destruct (Qgtb (ImageCompressor.sub rnd (ImageCompressor.maxQuality s)
                      (ImageCompressor.minQuality s))
                   (ImageCompressor.lit rnd (1 # 20))) eqn:Hg;
    try discriminate;
    try (injection Hrun as <-; split; [lra|]; split; [lra|];
         exists []; split; [now rewrite app_nil_r|]; split; [intros q []|now left]).
  apply (guard_true rnd rnd_error) in Hg.
  pose proof (midpoint_bounds rnd rnd_error _ _ Hlo Hhi Hg) as (Q1 & Q2 & _ & _).
  cbv zeta in Q1, Q2.
  set (q := ImageCompressor.div rnd
              (ImageCompressor.add rnd (ImageCompressor.minQuality s)
                 (ImageCompressor.maxQuality s)) 2) in *.
  destruct (canvasToBlob canvas format q) as [b|] eqn:Eb;
    cbn [sizeOf bind] in Hrun; [|discriminate].
  destruct (blob_size b <=? targetSize) eqn:Efit.
  - apply IH in Hrun; cbn [ImageCompressor.minQuality ImageCompressor.maxQuality
                           ImageCompressor.bestQuality ImageCompressor.bestBlob
                           ImageCompressor.tried] in *;
      try assumption; try lra.
    destruct Hrun as (M1 & M2 & new & T & F & B).
    split; [lra|]. split; [lra|].
    exists (q :: new). split; [now rewrite T, <- app_assoc|]. split.
    + intros q' [<-|Hin]; [lra|]. specialize (F q' Hin). lra.
    + right. destruct B as [[B1 B2]|[B1 B2]].
      * rewrite B1, B2. split; [now left|]. now rewrite Eb.
      * split; [now right|exact B2].
  - apply IH in Hrun; cbn [ImageCompressor.minQuality ImageCompressor.maxQuality
                           ImageCompressor.bestQuality ImageCompressor.bestBlob
                           ImageCompressor.tried] in *;
      try assumption; try lra.
    destruct Hrun as (M1 & M2 & new & T & F & B).
    split; [lra|]. split; [lra|].
    exists (q :: new). split; [now rewrite T, <- app_assoc|]. split.
    + intros q' [<-|Hin]; [lra|]. specialize (F q' Hin). lra.
    + destruct B as [B|[B1 B2]]; [now left|right].
      split; [now right|exact B2].
Qed.

End TriedQualities.

(** X23.  The quality search stays in range.  Started by
    [iterateCompression] from an initial quality of at most 1, the loop
    only ever encodes at qualities between 0.1 (as a double) and the
    initial quality, and the candidate it ends with is either the initial
    blob at the initial quality or the encoding at one of the qualities it
    tried. *)
Theorem search_qualities_in_range
    (rnd : Q -> Q) (canvasToBlob : Canvas -> string -> Q -> option Blob)
    (fuel : nat) (canvas : Canvas) (format : string) (targetSize : Z)
    (blob : option Blob) (initialQuality : Q) (s : ImageCompressor.Search) :
  (forall x, (Qabs (rnd x - x) <= eps64 * Qabs x)%Q) ->
  (initialQuality <= 1)%Q ->
  ImageCompressor.searchLoop rnd canvasToBlob fuel canvas format targetSize
    (ImageCompressor.searchStart rnd blob initialQuality) = Returned s ->
  (forall q, In q (ImageCompressor.tried s) ->
     (ImageCompressor.lit rnd (1 # 10) <= q <= initialQuality)%Q) /\
  (ImageCompressor.bestQuality s = initialQuality /\
   ImageCompressor.bestBlob s = blob \/
   In (ImageCompressor.bestQuality s) (ImageCompressor.tried s) /\
   ImageCompressor.bestBlob s
   = canvasToBlob canvas format (ImageCompressor.bestQuality s)).
Proof.
  intros Hrnd Hq Hrun.
  assert (H10 : (0 <= 1 # 10)%Q) by lra.
  pose proof (rnd_nonneg rnd Hrnd _ H10) as [Hc1 Hc2].
  apply (searchLoop_range rnd Hrnd) in Hrun;
    cbn [ImageCompressor.searchStart ImageCompressor.minQuality
         ImageCompressor.maxQuality ImageCompressor.tried
         ImageCompressor.bestQuality ImageCompressor.bestBlob] in *.
  - destruct Hrun as (_ & _ & new & T & F & B). cbn [app] in T. rewrite T.
    split; [exact F|exact B].
  - unfold ImageCompressor.lit. unfold eps64 in *. lra.
  - lra.
Qed.

Lemma search_qualities_in_range_witness :
  (forall q,
     In q [8106479329266893 # 18014398509481984;
           2476979795053773 # 9007199254740992;
           3 # 16;
           2589569785738035 # 18014398509481984] ->
     (ImageCompressor.lit binary64 (1 # 10) <= q <= binary64 (8 # 10))%Q) /\
  (2589569785738035 # 18014398509481984 = binary64 (8 # 10) /\
   Some (mkBlob 143749 "image/jpeg")
   = byQuality pictureCanvas "image/jpeg" (binary64 (8 # 10)) \/
   In (2589569785738035 # 18014398509481984)
      [8106479329266893 # 18014398509481984;
       2476979795053773 # 9007199254740992;
       3 # 16;
       2589569785738035 # 18014398509481984] /\
   Some (mkBlob 143749 "image/jpeg")
   = byQuality pictureCanvas "image/jpeg" (2589569785738035 # 18014398509481984)).
Proof.
  apply (search_qualities_in_range binary64 byQuality 5 pictureCanvas "image/jpeg" 512000
           (byQuality pictureCanvas "image/jpeg" (binary64 (8 # 10)))
           (binary64 (8 # 10))
           (ImageCompressor.mkSearch
              (binary64 (1 # 10))
              (2589569785738035 # 18014398509481984)
              (Some (mkBlob 143749 "image/jpeg"))
              (2589569785738035 # 18014398509481984)
              [8106479329266893 # 18014398509481984;
               2476979795053773 # 9007199254740992;
               3 # 16;
               2589569785738035 # 18014398509481984])).
  - exact binary64_error.
  - apply Qle_bool_iff. reflexivity.
  - vm_compute. reflexivity.
Defined.

(** ** Selecting the whole image *)



(** ** Numbers and doubles *)

Lemma gtb_finite (x y : Q) : Number.gtb (Finite x) (Finite y) = Qgtb x y.
Proof.
  unfold Number.gtb, Number.ltb, Number.leb, Qgtb.
  destruct (Qle_bool x y) eqn:E; cbn [negb]; [apply andb_false_r|].
  apply Qle_bool_false in E. rewrite andb_true_r.
  apply Qle_bool_iff. lra.
Qed.

Lemma geb_finite (x y : Q) : Number.geb (Finite x) (Finite y) = Qle_bool y x.
Proof. reflexivity. Qed.

Lemma Qeq_bool_false (x : Q) : ~ (x == 0)%Q -> Qeq_bool x 0 = false.
Proof.
  intro H. destruct (Qeq_bool x 0) eqn:E; [|reflexivity].
  apply Qeq_bool_iff in E. contradiction.
Qed.

Lemma div_finite (rnd : Q -> Q) (x y : Q) :
  ~ (y == 0)%Q -> Number.div rnd (Finite x) (Finite y) = Finite (rnd (x / y)%Q).
Proof. intro H. unfold Number.div. now rewrite Qeq_bool_false. Qed.

Lemma round_int (n : Z) : Number.round (Number.int n) = Number.int n.
Proof. unfold Number.round, Number.int. now rewrite jsRound_inject_Z. Qed.

Section Doubles.

Variable rnd : Q -> Q.
Hypothesis rnd_error : forall x, (Qabs (rnd x - x) <= eps64 * Qabs x)%Q.

Lemma rnd_neg (x : Q) :
  (x <= 0 -> (1 + eps64) * x <= rnd x /\ rnd x <= (1 - eps64) * x)%Q.
Proof.
  intro Hx. pose proof (rnd_error x) as H.
  apply Qabs_Qle_condition in H. rewrite (Qabs_neg x Hx) in H. split; lra.
Qed.

Lemma rnd_pos (x : Q) : (0 < x -> 0 < rnd x)%Q.
Proof.
  intro Hx. assert (H0 : (0 <= x)%Q) by lra.
  pose proof (rnd_nonneg rnd rnd_error x H0) as [H _]. unfold eps64 in H. lra.
Qed.

End Doubles.

Section RoundedBounds.

Variable rnd : Q -> Q.
Hypothesis rnd_error : forall x, (Qabs (rnd x - x) <= eps64 * Qabs x)%Q.

(** Rounding a number below [c] gives a number below [c] up to the
    rounding of [c]. *)
Lemma rnd_le (x c b : Q) :
  (x <= c -> - b <= c -> c <= b -> rnd x <= c + eps64 * b)%Q.
Proof.
  intros Hx Hc1 Hc2.
  destruct (Qlt_le_dec x 0) as [Hneg|Hpos].
  - assert (Hle : (x <= 0)%Q) by lra.
    pose proof (rnd_neg rnd rnd_error x Hle) as [_ H].
    unfold eps64 in *. lra.
  - pose proof (rnd_nonneg rnd rnd_error x Hpos) as [_ H].
    unfold eps64 in *. lra.
Qed.

Lemma rnd_ge (x c b : Q) :
  (c <= x -> - b <= c -> c <= b -> c - eps64 * b <= rnd x)%Q.
Proof.
  intros Hx Hc1 Hc2.
  destruct (Qlt_le_dec x 0) as [Hneg|Hpos].
  - assert (Hle : (x <= 0)%Q) by lra.
    pose proof (rnd_neg rnd rnd_error x Hle) as [H _].
    unfold eps64 in *. lra.
  - pose proof (rnd_nonneg rnd rnd_error x Hpos) as [H _].
    unfold eps64 in *. lra.
Qed.

End RoundedBounds.

Lemma inject_Z_nonzero (n : Z) : n <> 0 -> ~ (inject_Z n == 0)%Q.
Proof.
  intros Hn E. apply Hn. change 0%Q with (inject_Z 0) in E.
  now apply inject_Z_injective.
Qed.

Lemma maxSide_bound (n : Z) :
  Z.abs n < maxSide -> (- (2147483648) <= inject_Z n /\ inject_Z n <= 2147483648)%Q.
Proof.
  unfold maxSide. change (2 ^ 31) with 2147483648. intro H.
  change 2147483648%Q with (inject_Z 2147483648).
  rewrite <- inject_Z_opp, <- !Zle_Qle. lia.
Qed.

(** [jsRound z <= n] as soon as [z] is below [n + 1/2]. *)
Lemma jsRound_below (z : Q) (n : Z) : (z < inject_Z n + (1 # 2))%Q -> jsRound z <= n.
Proof.
  intro H. pose proof (jsRound_upper z) as U.
  assert (L : (inject_Z (jsRound z) < inject_Z (n + 1))%Q).
  { rewrite inject_Z_plus. change (inject_Z 1) with 1%Q. lra. }
  rewrite <- Zlt_Qlt in L. lia.
Qed.

(** [n <= jsRound z] as soon as [z] is not below [n - 1/2]. *)
Lemma jsRound_above (z : Q) (n : Z) : (inject_Z n - (1 # 2) <= z)%Q -> n <= jsRound z.
Proof.
  intro H. pose proof (jsRound_lower z) as L.
  assert (B : (inject_Z (n - 1) < inject_Z (jsRound z))%Q).
  { unfold Z.sub. rewrite inject_Z_plus, inject_Z_opp. change (inject_Z 1) with 1%Q. lra. }
  rewrite <- Zlt_Qlt in B. lia.
Qed.

(** [Math.round(z) <= floor((a + 11) / 20)] for [z] up to a twentieth
    above [a / 20]. *)
Lemma jsRound_twentieth (z : Q) (a : Z) :
  (20 * z <= inject_Z a + 1)%Q -> jsRound z <= (a + 11) / 20.
Proof.
  intro H. apply jsRound_below.
  assert (B : a + 1 <= 20 * ((a + 11) / 20) + 9).
  { pose proof (Z.div_mod (a + 11) 20 ltac:(lia)) as D.
    pose proof (Z.mod_pos_bound (a + 11) 20 ltac:(lia)) as M. lia. }
  rewrite Zle_Qle in B. rewrite !inject_Z_plus, inject_Z_mult in B.
  change (inject_Z 1) with 1%Q in B. change (inject_Z 20) with 20%Q in B.
  change (inject_Z 9) with 9%Q in B. lra.
Qed.

(** A fifth and four fifths of [n], each rounded with a twentieth to
    spare, are [n] at most. *)
Lemma fifths (n : Z) : (4 * n + 11) / 20 + (16 * n + 11) / 20 <= n.
Proof.
  pose proof (Z.div_mod n 5 ltac:(lia)) as D.
  pose proof (Z.mod_pos_bound n 5 ltac:(lia)) as M.
  generalize dependent (n / 5). generalize dependent (n mod 5). intros r M q D.
  assert (C : r = 0 \/ r = 1 \/ r = 2 \/ r = 3 \/ r = 4) by lia.
  destruct C as [C|[C|[C|[C|C]]]]; subst r n; clear;
    Z.div_mod_to_equations; lia.
Qed.

Lemma Qle_bool_true (x y : Q) : Qle_bool x y = true -> (x <= y)%Q.
Proof. apply Qle_bool_iff. Qed.

(** ** The two-pass clamp on doubles *)

Section Clamp.

Variable rnd : Q -> Q.
Hypothesis rnd_error : forall x, (Qabs (rnd x - x) <= eps64 * Qabs x)%Q.

Variables W H : Z.
Hypothesis HW : 0 < W.
Hypothesis HH : 0 < H.

Local Abbreviation wq := (inject_Z W).
Local Abbreviation hq := (inject_Z H).
Local Abbreviation r := ((wq / hq)%Q).
Local Abbreviation a := (rnd r).

Lemma ratio_pos : (0 < r)%Q.
Proof.
  pose proof (inject_Z_pos _ HW). pose proof (inject_Z_pos _ HH).
  apply Qlt_shift_div_l; lra.
Qed.

Lemma ratio_eq : (r * hq == wq)%Q.
Proof. pose proof (inject_Z_pos _ HH). field. lra. Qed.

Lemma rounded_ratio : ((1 - eps64) * r <= a /\ a <= (1 + eps64) * r /\ 0 < a)%Q.
Proof.
  pose proof ratio_pos as Hr.
  assert (H0 : (0 <= r)%Q) by lra.
  pose proof (rnd_nonneg rnd rnd_error r H0) as [H1 H2].
  unfold eps64 in *. repeat split; lra.
Qed.

(** The aspect ratio the code computes. *)
Lemma aspectRatio_finite :
  Number.div rnd (Number.int W) (Number.int H) = Finite a.
Proof.
  unfold Number.int. rewrite div_finite; [reflexivity|].
  apply inject_Z_nonzero. lia.
Qed.

(** [m / aspectRatio], for a bound [m] below 2^31 in size: times the
    true ratio it is [m] up to 2^-20. *)
Lemma clamped_height (m : Z) :
  Z.abs m < maxSide ->
  let y := rnd (inject_Z m / a) in
  Number.div rnd (Number.int m) (Finite a) = Finite y /\
  (y * a <= inject_Z m + eps64 * 2147483648 /\
   inject_Z m - eps64 * 2147483648 <= y * a /\
   y * r <= inject_Z m + (1 # 1048576) /\
   inject_Z m - (1 # 1048576) <= y * r)%Q.
Proof.
  intros Hm y. destruct rounded_ratio as (A1 & A2 & A0).
  pose proof ratio_pos as Hr.
  destruct (maxSide_bound m Hm) as [M1 M2].
  split.
  { unfold Number.int. rewrite div_finite; [reflexivity|lra]. }
  set (M := inject_Z m) in *.
  assert (Et : (M / a * a == M)%Q) by (field; lra).
  set (t := (M / a)%Q) in *.
  assert (Y : (y * a <= M + eps64 * 2147483648 /\ M - eps64 * 2147483648 <= y * a)%Q).
  { destruct (Qlt_le_dec t 0) as [Hneg|Hpos].
    - assert (Hle : (t <= 0)%Q) by lra.
      pose proof (rnd_neg rnd rnd_error t Hle) as [Y1 Y2]. fold y in Y1, Y2.
      unfold eps64 in *. split; nra.
    - pose proof (rnd_nonneg rnd rnd_error t Hpos) as [Y1 Y2]. fold y in Y1, Y2.
      unfold eps64 in *. split; nra. }
  destruct Y as [Y1 Y2]. split; [exact Y1|]. split; [exact Y2|].
  assert (Ybound : (- (2147483649) <= y * a /\ y * a <= 2147483649)%Q).
  { unfold eps64 in *. split; lra. }
  destruct (Qlt_le_dec y 0) as [Yneg|Ypos].
  - unfold eps64 in *. split; nra.
  - unfold eps64 in *. split; nra.
Qed.

(** [m * aspectRatio], for a bound [m] below 2^31 in size: it is the
    true product up to 2^-20 of the ratio. *)
Lemma clamped_width (m : Z) :
  Z.abs m < maxSide ->
  let z := rnd (inject_Z m * a) in
  Number.mul rnd (Number.int m) (Finite a) = Finite z /\
  (z <= inject_Z m * r + r * (1 # 1048576) /\
   inject_Z m * r - r * (1 # 1048576) <= z)%Q.
Proof.
  intros Hm z. destruct rounded_ratio as (A1 & A2 & A0).
  pose proof ratio_pos as Hr.
  destruct (maxSide_bound m Hm) as [M1 M2].
  split; [reflexivity|].
  set (M := inject_Z m) in *.
  destruct (Qlt_le_dec M 0) as [Mneg|Mpos].
  - assert (Hle : (M * a <= 0)%Q) by nra.
    pose proof (rnd_neg rnd rnd_error _ Hle) as [Z1 Z2]. fold z in Z1, Z2.
    unfold eps64 in *. split; nra.
  - assert (Hge : (0 <= M * a)%Q) by nra.
    pose proof (rnd_nonneg rnd rnd_error _ Hge) as [Z1 Z2]. fold z in Z1, Z2.
    unfold eps64 in *. split; nra.
Qed.

End Clamp.

(** A side [p] that is the rounding of [x], where [x * W] is [q * H] up
    to [H / 2^20], keeps the ratio [W : H] against the side [q] to within
    a pixel. *)
Lemma aspect_from_bounds (W H p q : Z) (x : Q) :
  0 < W -> 0 < H ->
  p = jsRound x ->
  (x * inject_Z W <= inject_Z q * inject_Z H + inject_Z H * (1 # 1048576))%Q ->
  (inject_Z q * inject_Z H - inject_Z H * (1 # 1048576) <= x * inject_Z W)%Q ->
  Z.abs (p * W - q * H) <= W \/ Z.abs (q * H - p * W) <= H.
Proof.
  intros HW HH -> U L.
  pose proof (jsRound_lower x) as Lo. pose proof (jsRound_upper x) as Up.
  pose proof (inject_Z_pos _ HW) as Hw. pose proof (inject_Z_pos _ HH) as Hh.
  set (p := jsRound x) in *.
  assert (B1 : (inject_Z (p * W - q * H)
                <= inject_Z W * (1 # 2) + inject_Z H * (1 # 1048576))%Q).
  { push_inject. nra. }
  assert (B2 : (- (inject_Z W * (1 # 2) + inject_Z H * (1 # 1048576))
                <= inject_Z (p * W - q * H))%Q).
  { push_inject. nra. }
  destruct (Z_le_gt_dec H W) as [C|C].
  - left.
    assert (C' : (inject_Z H <= inject_Z W)%Q) by now rewrite <- Zle_Qle.
    assert (B3 : (inject_Z (p * W - q * H) <= inject_Z W)%Q) by lra.
    assert (B4 : (inject_Z (- W) <= inject_Z (p * W - q * H))%Q).
    { rewrite inject_Z_opp. lra. }
    rewrite <- Zle_Qle in B3, B4. lia.
  - right.
    assert (C' : (inject_Z W <= inject_Z H)%Q) by (rewrite <- Zle_Qle; lia).
    assert (B3 : (inject_Z (p * W - q * H) <= inject_Z H)%Q) by lra.
    assert (B4 : (inject_Z (- H) <= inject_Z (p * W - q * H))%Q).
    { rewrite inject_Z_opp. lra. }
    rewrite <- Zle_Qle in B3, B4. lia.
Qed.

(** C3.  With the aspect ratio locked and both maxima set, the two-pass
    clamp, computed on doubles, returns whole dimensions that exceed
    neither maximum and keep the original ratio to within one pixel; a
    2000x1000 image with both maxima 1000 gives exactly 1000x500.  This
    holds for every rounding of the quotient and the product within 2^-53,
    for positive W and H and maxima that are not 0 (a maximum of 0 is "not
    set") and below 2^31 in size. *)
Theorem two_pass_clamp (rnd : Q -> Q) (W H maxWidth maxHeight : Z) :
  (forall x, (Qabs (rnd x - x) <= eps64 * Qabs x)%Q) ->
  0 < W -> 0 < H -> maxWidth <> 0 -> maxHeight <> 0 ->
  Z.abs maxWidth < maxSide -> Z.abs maxHeight < maxSide ->
  (exists w h,
     Rounded.calculateResizedDimensions rnd W H (Some maxWidth) (Some maxHeight) true
     = Rounded.mkSize (Number.int w) (Number.int h) /\
     w <= maxWidth /\ h <= maxHeight /\ aspectPreserved W H (mkDimensions w h)) /\
  Rounded.calculateResizedDimensions binary64 2000 1000 (Some 1000) (Some 1000) true
  = Rounded.mkSize (Number.int 1000) (Number.int 500).
Proof.
  intros Hrnd HW HH Hmw Hmh Bw Bh.
  split; [|vm_compute; reflexivity].
  unfold Rounded.calculateResizedDimensions.
  rewrite !truthy_Some by assumption. cbn [negb andb Rounded.bound].
  rewrite (aspectRatio_finite rnd W H HH).
  destruct (rounded_ratio rnd Hrnd W H HW HH) as (A1 & A2 & A0).
  pose proof (ratio_pos W H HW HH) as Hr.
  pose proof (ratio_eq W H HH) as Er.
  pose proof (inject_Z_pos _ HW) as Hw. pose proof (inject_Z_pos _ HH) as Hh.
  destruct (maxSide_bound _ Bw) as [Mw1 Mw2].
  destruct (maxSide_bound _ Bh) as [Mh1 Mh2].
  destruct (clamped_height rnd Hrnd W H HW HH maxWidth Bw) as (Ey & Y1 & Y2 & Y3 & Y4).
  destruct (clamped_width rnd Hrnd W H HW HH maxHeight Bh) as (Ez & Z1 & Z2).
  set (r := (inject_Z W / inject_Z H)%Q) in *.
  set (a := rnd r) in *.
  set (y := rnd (inject_Z maxWidth / a)%Q) in *.
  set (z := rnd (inject_Z maxHeight * a)%Q) in *.
  unfold Number.int at 1 2. rewrite gtb_finite, Qgtb_inject.
  destruct (maxWidth <? W) eqn:E1.
  - apply Z.ltb_lt in E1. rewrite Ey.
    unfold Number.int at 1. rewrite gtb_finite.
    destruct (Qgtb y (inject_Z maxHeight)) eqn:E2.
    + apply Qgtb_true in E2. rewrite Ez.
      exists (jsRound z), maxHeight. rewrite round_int.
      split; [reflexivity|]. split; [|split; [lia|]].
      * apply jsRound_below.
        assert (Hc : (inject_Z maxHeight * a <= inject_Z maxWidth + eps64 * 2147483648)%Q)
          by nra.
        assert (Hz : (z <= inject_Z maxWidth + eps64 * 2147483648 + eps64 * 2147483649)%Q).
        { apply (rnd_le rnd Hrnd); [exact Hc| |]; unfold eps64; lra. }
        unfold eps64 in Hz. lra.
      * unfold aspectPreserved. cbn [width height].
        destruct (aspect_from_bounds H W (jsRound z) maxHeight z HH HW eq_refl) as [D|D].
        -- nra.
        -- nra.
        -- right. exact D.
        -- left. exact D.
    + apply Qgtb_false in E2.
      exists maxWidth, (jsRound y). rewrite round_int.
      split; [reflexivity|]. split; [lia|]. split; [now apply jsRound_le_Z|].
      unfold aspectPreserved. cbn [width height].
      apply (aspect_from_bounds W H (jsRound y) maxWidth y HW HH eq_refl); nra.
  - apply Z.ltb_ge in E1.
    unfold Number.int at 1 2. rewrite gtb_finite, Qgtb_inject.
    destruct (maxHeight <? H) eqn:E2.
    + apply Z.ltb_lt in E2. rewrite Ez.
      exists (jsRound z), maxHeight. rewrite round_int.
      split; [reflexivity|]. split; [|split; [lia|]].
      * apply jsRound_below.
        assert (E1' : (inject_Z W <= inject_Z maxWidth)%Q) by now rewrite <- Zle_Qle.
        assert (E2' : (inject_Z maxHeight <= inject_Z H)%Q) by (rewrite <- Zle_Qle; lia).
        assert (Hc : (inject_Z maxHeight * a <= (1 + eps64) * inject_Z maxWidth)%Q).
        { destruct (Qlt_le_dec (inject_Z maxHeight) 0) as [Hn|Hp].
          - unfold eps64 in *. nra.
          - assert (T : (inject_Z maxHeight * r <= inject_Z W)%Q) by nra.
            unfold eps64 in *. nra. }
        assert (Hz : (z <= (1 + eps64) * inject_Z maxWidth + eps64 * 2147483649)%Q).
        { apply (rnd_le rnd Hrnd); [exact Hc| |]; unfold eps64; lra. }
        unfold eps64 in Hz. lra.
      * unfold aspectPreserved. cbn [width height].
        destruct (aspect_from_bounds H W (jsRound z) maxHeight z HH HW eq_refl) as [D|D].
        -- nra.
        -- nra.
        -- right. exact D.
        -- left. exact D.
    + apply Z.ltb_ge in E2.
      exists W, H. rewrite !round_int.
      split; [reflexivity|]. split; [lia|]. split; [lia|].
      unfold aspectPreserved. cbn [width height]. left. lia.
Qed.

(** A 4096x1680 picture into 1920x1080. *)
Lemma two_pass_clamp_witness :
  (exists w h,
     Rounded.calculateResizedDimensions binary64 4096 1680 (Some 1920) (Some 1080) true
     = Rounded.mkSize (Number.int w) (Number.int h) /\
     w <= 1920 /\ h <= 1080 /\ aspectPreserved 4096 1680 (mkDimensions w h)) /\
  Rounded.calculateResizedDimensions binary64 2000 1000 (Some 1000) (Some 1000) true
  = Rounded.mkSize (Number.int 1000) (Number.int 500).
Proof.
  apply (two_pass_clamp binary64 4096 1680 1920 1080).
  - exact binary64_error.
  - lia.
  - lia.
  - lia.
  - lia.
  - vm_compute. reflexivity.
  - vm_compute. reflexivity.
Defined.

(** 4096 / 1680 is not a double, and 1920 divided by the double nearest to
    it is just below 787.5: the height is 787, where the exact quotient
    787.5 would round to 788. *)
Example resize_4096_by_1680 :
  Rounded.calculateResizedDimensions binary64 4096 1680 (Some 1920) (Some 1080) true
  = Rounded.mkSize (Number.int 1920) (Number.int 787) /\
  ImageUtils.calculateResizedDimensions 4096 1680 (Some 1920) (Some 1080) true
  = mkDimensions 1920 788.
Proof. vm_compute. split; reflexivity. Qed.

(** ** Resizing on doubles: what the result is *)

Section Scaling.

Variable rnd : Q -> Q.
Hypothesis rnd_error : forall x, (Qabs (rnd x - x) <= eps64 * Qabs x)%Q.

Variables W H : Z.
Hypothesis HW : 0 < W.
Hypothesis HH : 0 < H.

Local Abbreviation r := ((inject_Z W / inject_Z H)%Q).
Local Abbreviation a := (rnd r).

(** [m / aspectRatio] for a positive bound [m]: times the true ratio it is
    [m] up to three roundings. *)
Lemma scaled_height (m : Z) :
  0 < m ->
  let y := rnd (inject_Z m / a) in
  Number.div rnd (Number.int m) (Finite a) = Finite y /\
  ((1 - 3 * eps64) * inject_Z m <= y * r /\ y * r <= (1 + 3 * eps64) * inject_Z m)%Q.
Proof.
  intros Hm y. destruct (rounded_ratio rnd rnd_error W H HW HH) as (A1 & A2 & A0).
  pose proof (ratio_pos W H HW HH) as Hr.
  pose proof (inject_Z_pos _ Hm) as M0.
  split.
  { unfold Number.int. rewrite div_finite; [reflexivity|lra]. }
  subst y.
  set (r0 := (inject_Z W / inject_Z H)%Q) in *. set (a0 := rnd r0) in *.
  set (y := rnd (inject_Z m / a0)) in *.
  set (M := inject_Z m) in *.
  assert (Et : (M / a0 * a0 == M)%Q) by (field; lra).
  assert (Ht : (0 <= M / a0)%Q) by (apply Qle_shift_div_l; lra).
  set (t := (M / a0)%Q) in *.
  pose proof (rnd_nonneg rnd rnd_error t Ht) as [Y1 Y2]. fold y in Y1, Y2.
  assert (Y0 : (0 <= y)%Q) by (unfold eps64 in *; lra).
  assert (T1 : (t * r0 <= (1 + 2 * eps64) * M)%Q) by (unfold eps64 in *; nra).
  assert (T2 : ((1 - eps64) * M <= t * r0)%Q) by (unfold eps64 in *; nra).
  unfold eps64 in *. split; nra.
Qed.

(** [m * aspectRatio] for a positive bound [m]. *)
Lemma scaled_width (m : Z) :
  0 < m ->
  let z := rnd (inject_Z m * a) in
  Number.mul rnd (Number.int m) (Finite a) = Finite z /\
  ((1 - 3 * eps64) * (inject_Z m * r) <= z /\ z <= (1 + 3 * eps64) * (inject_Z m * r))%Q.
Proof.
  intros Hm z. destruct (rounded_ratio rnd rnd_error W H HW HH) as (A1 & A2 & A0).
  pose proof (ratio_pos W H HW HH) as Hr.
  pose proof (inject_Z_pos _ Hm) as M0.
  split; [reflexivity|].
  subst z.
  set (r0 := (inject_Z W / inject_Z H)%Q) in *. set (a0 := rnd r0) in *.
  set (z := rnd (inject_Z m * a0)) in *.
  set (M := inject_Z m) in *.
  assert (Hge : (0 <= M * a0)%Q) by nra.
  pose proof (rnd_nonneg rnd rnd_error _ Hge) as [Z1 Z2]. fold z in Z1, Z2.
  unfold eps64 in *. split; nra.
Qed.

End Scaling.

(** Rounding [x] gives [k / d] to within half a unit when [x * d] is [k]
    up to three roundings and [k] is below 2^50. *)
Lemma half_pixel (p d k : Z) (x : Q) :
  0 < d -> 0 <= k -> k < 2 ^ 50 ->
  p = jsRound x ->
  ((1 - 3 * eps64) * inject_Z k <= x * inject_Z d)%Q ->
  (x * inject_Z d <= (1 + 3 * eps64) * inject_Z k)%Q ->
  2 * Z.abs (p * d - k) <= d.
Proof.
  intros Hd Hk0 Hk -> L U.
  pose proof (jsRound_lower x) as Lo. pose proof (jsRound_upper x) as Up.
  pose proof (inject_Z_pos _ Hd) as Hdq.
  set (p := jsRound x) in *.
  assert (K0 : (0 <= inject_Z k)%Q).
  { change 0%Q with (inject_Z 0). now rewrite <- Zle_Qle. }
  assert (K1 : (inject_Z k < 1125899906842624)%Q).
  { change 1125899906842624%Q with (inject_Z (2 ^ 50)). now rewrite <- Zlt_Qlt. }
  assert (B1 : (inject_Z (2 * (p * d - k)) < inject_Z (d + 1))%Q).
  { push_inject. change (inject_Z 2) with 2%Q. change (inject_Z 1) with 1%Q.
    unfold eps64 in *. nra. }
  assert (B2 : (inject_Z (- (d + 1)) < inject_Z (2 * (p * d - k)))%Q).
  { rewrite inject_Z_opp. push_inject.
    change (inject_Z 2) with 2%Q. change (inject_Z 1) with 1%Q.
    unfold eps64 in *. nra. }
  rewrite <- Zlt_Qlt in B1, B2. lia.
Qed.

(** Comparing [m / aspectRatio] with an integer bound, for pixel counts
    whose products stay below 2^50: the rounding does not change the side
    the quotient falls on, unless the two are equal. *)
Lemma height_against_bound (rnd : Q -> Q) (W H m n : Z) :
  (forall x, (Qabs (rnd x - x) <= eps64 * Qabs x)%Q) ->
  0 < W -> 0 < H -> 0 < m -> 0 < n -> m * H < 2 ^ 50 ->
  let y := rnd (inject_Z m / rnd (inject_Z W / inject_Z H))%Q in
  (Qgtb y (inject_Z n) = true -> n * W <= m * H) /\
  (Qgtb y (inject_Z n) = false -> m * H <= n * W).
Proof.
  intros Hrnd HW HH Hm Hn Hp y.
  destruct (scaled_height rnd Hrnd W H HW HH m Hm) as (_ & Y1 & Y2).
  fold y in Y1, Y2.
  pose proof (ratio_eq W H HH) as Er.
  pose proof (ratio_pos W H HW HH) as Hr.
  set (r := (inject_Z W / inject_Z H)%Q) in *.
  pose proof (inject_Z_pos _ HW) as Hw. pose proof (inject_Z_pos _ HH) as Hh.
  pose proof (inject_Z_pos _ Hm) as Hmq. pose proof (inject_Z_pos _ Hn) as Hnq.
  assert (K1 : (inject_Z m * inject_Z H < 1125899906842624)%Q).
  { rewrite <- inject_Z_mult.
    change 1125899906842624%Q with (inject_Z (2 ^ 50)). now rewrite <- Zlt_Qlt. }
  split; intro G.
  - apply Qgtb_true in G.
    assert (B : (inject_Z (n * W) < inject_Z (m * H + 1))%Q).
    { push_inject. change (inject_Z 1) with 1%Q.
      assert (T : (inject_Z n * r < y * r)%Q) by nra.
      unfold eps64 in *. nra. }
    rewrite <- Zlt_Qlt in B. lia.
  - apply Qgtb_false in G.
    assert (B : (inject_Z (m * H) < inject_Z (n * W + 1))%Q).
    { push_inject. change (inject_Z 1) with 1%Q.
      assert (T : (y * r <= inject_Z n * r)%Q) by nra.
      unfold eps64 in *. nra. }
    rewrite <- Zlt_Qlt in B. lia.
Qed.

(** X5.  With the aspect ratio locked and both maxima set, an image that
    does not fit is scaled to touch the tighter bound: when
    maxWidth * H <= maxHeight * W the width is exactly maxWidth and the
    height is within half a pixel of maxWidth * H / W, otherwise the height
    is exactly maxHeight and the width is within half a pixel of
    maxHeight * W / H.  An image that fits is returned as it is.  On
    doubles, for every rounding within 2^-53, positive sides and maxima,
    and W * H below 2^50. *)
Theorem resize_scales_to_tighter_bound (rnd : Q -> Q) (W H maxWidth maxHeight : Z) :
  (forall x, (Qabs (rnd x - x) <= eps64 * Qabs x)%Q) ->
  0 < W -> 0 < H -> 0 < maxWidth -> 0 < maxHeight -> W * H < 2 ^ 50 ->
  exists w h,
    Rounded.calculateResizedDimensions rnd W H (Some maxWidth) (Some maxHeight) true
    = Rounded.mkSize (Number.int w) (Number.int h) /\
    (W <= maxWidth -> H <= maxHeight -> w = W /\ h = H) /\
    (maxWidth < W \/ maxHeight < H -> maxWidth * H <= maxHeight * W ->
     w = maxWidth /\ 2 * Z.abs (h * W - maxWidth * H) <= W) /\
    (maxWidth < W \/ maxHeight < H -> maxHeight * W < maxWidth * H ->
     h = maxHeight /\ 2 * Z.abs (w * H - maxHeight * W) <= H).
Proof.
  intros Hrnd HW HH Hmw Hmh Hp.
  unfold Rounded.calculateResizedDimensions.
  rewrite !truthy_Some by lia. cbn [negb andb Rounded.bound].
  rewrite (aspectRatio_finite rnd W H HH).
  pose proof (ratio_pos W H HW HH) as Hr.
  pose proof (ratio_eq W H HH) as Er.
  pose proof (inject_Z_pos _ HW) as Hw. pose proof (inject_Z_pos _ HH) as Hh.
  pose proof (inject_Z_pos _ Hmw) as Hmwq. pose proof (inject_Z_pos _ Hmh) as Hmhq.
  destruct (scaled_height rnd Hrnd W H HW HH maxWidth Hmw) as (Ey & Y1 & Y2).
  destruct (scaled_width rnd Hrnd W H HW HH maxHeight Hmh) as (Ez & Z1 & Z2).
  pose proof (fun Hb => height_against_bound rnd W H maxWidth maxHeight Hrnd HW HH Hmw Hmh Hb)
    as Side.
  cbv zeta in Side.
  set (r := (inject_Z W / inject_Z H)%Q) in *.
  set (a := rnd r) in *.
  set (y := rnd (inject_Z maxWidth / a)%Q) in *.
  set (z := rnd (inject_Z maxHeight * a)%Q) in *.
  assert (Hz : forall k, k = maxHeight * W -> k < 2 ^ 50 ->
               2 * Z.abs (jsRound z * H - k) <= H).
  { intros k -> Hk. apply (half_pixel (jsRound z) H (maxHeight * W) z); try lia;
      try reflexivity; rewrite inject_Z_mult; unfold eps64 in *; nra. }
  assert (Hy : forall k, k = maxWidth * H -> k < 2 ^ 50 ->
               2 * Z.abs (jsRound y * W - k) <= W).
  { intros k -> Hk. apply (half_pixel (jsRound y) W (maxWidth * H) y); try lia;
      try reflexivity; rewrite inject_Z_mult; unfold eps64 in *; nra. }
  unfold Number.int at 1 2. rewrite gtb_finite, Qgtb_inject.
  destruct (maxWidth <? W) eqn:E1.
  - apply Z.ltb_lt in E1. rewrite Ey.
    assert (Hb : maxWidth * H < 2 ^ 50) by nia.
    destruct (Side Hb) as [S1 S2].
    unfold Number.int at 1. rewrite gtb_finite.
    destruct (Qgtb y (inject_Z maxHeight)) eqn:E2.
    + specialize (S1 eq_refl). rewrite Ez.
      exists (jsRound z), maxHeight. rewrite round_int.
      split; [reflexivity|]. split; [lia|]. split.
      * intros _ Hle. assert (Eq : maxHeight * W = maxWidth * H) by lia.
        assert (Ew : jsRound z = maxWidth).
        { pose proof (Hz (maxHeight * W) eq_refl ltac:(lia)) as Hh2.
          rewrite Eq in Hh2. nia. }
        rewrite Ew. split; [reflexivity|]. lia.
      * intros _ Hlt. split; [reflexivity|]. apply Hz; [reflexivity|lia].
    + specialize (S2 eq_refl).
      exists maxWidth, (jsRound y). rewrite round_int.
      split; [reflexivity|]. split; [lia|]. split.
      * intros _ _. split; [reflexivity|]. apply Hy; [reflexivity|lia].
      * intros _ Hlt. lia.
  - apply Z.ltb_ge in E1.
    unfold Number.int at 1 2. rewrite gtb_finite, Qgtb_inject.
    destruct (maxHeight <? H) eqn:E2.
    + apply Z.ltb_lt in E2. rewrite Ez.
      exists (jsRound z), maxHeight. rewrite round_int.
      split; [reflexivity|]. split; [lia|]. split.
      * intros _ Hle. nia.
      * intros _ _. split; [reflexivity|]. apply Hz; [reflexivity|nia].
    + apply Z.ltb_ge in E2.
      exists W, H. rewrite !round_int.
      split; [reflexivity|]. split; [lia|]. split; intros; lia.
Qed.

(** A 4096x1680 picture into 1920x1080: the width bound is the tighter
    one. *)
Lemma resize_scales_to_tighter_bound_witness :
  exists w h,
    Rounded.calculateResizedDimensions binary64 4096 1680 (Some 1920) (Some 1080) true
    = Rounded.mkSize (Number.int w) (Number.int h) /\
    (4096 <= 1920 -> 1680 <= 1080 -> w = 4096 /\ h = 1680) /\
    (1920 < 4096 \/ 1080 < 1680 -> 1920 * 1680 <= 1080 * 4096 ->
     w = 1920 /\ 2 * Z.abs (h * 4096 - 1920 * 1680) <= 4096) /\
    (1920 < 4096 \/ 1080 < 1680 -> 1080 * 4096 < 1920 * 1680 ->
     h = 1080 /\ 2 * Z.abs (w * 1680 - 1080 * 4096) <= 1680).
Proof.
  apply (resize_scales_to_tighter_bound binary64 4096 1680 1920 1080).
  - exact binary64_error.
  - lia.
  - lia.
  - lia.
  - lia.
  - vm_compute. reflexivity.
Defined.

(** X6.  With the aspect ratio locked and one maximum set, only that side
    is bounded: an image wider than maxWidth gets exactly that width and a
    height within half a pixel of maxWidth * H / W, whatever that height
    is, and likewise for maxHeight alone; an image inside the one bound is
    returned as it is.  On doubles, for every rounding within 2^-53,
    positive sides and maximum, and W * H below 2^50. *)
Theorem resize_single_bound (rnd : Q -> Q) (W H m : Z) :
  (forall x, (Qabs (rnd x - x) <= eps64 * Qabs x)%Q) ->
  0 < W -> 0 < H -> 0 < m -> W * H < 2 ^ 50 ->
  (exists w h,
     Rounded.calculateResizedDimensions rnd W H (Some m) None true
     = Rounded.mkSize (Number.int w) (Number.int h) /\
     (W <= m -> w = W /\ h = H) /\
     (m < W -> w = m /\ 2 * Z.abs (h * W - m * H) <= W)) /\
  (exists w h,
     Rounded.calculateResizedDimensions rnd W H None (Some m) true
     = Rounded.mkSize (Number.int w) (Number.int h) /\
     (H <= m -> w = W /\ h = H) /\
     (m < H -> h = m /\ 2 * Z.abs (w * H - m * W) <= H)).
Proof.
  intros Hrnd HW HH Hm Hp.
  unfold Rounded.calculateResizedDimensions.
  rewrite !truthy_Some by lia. cbn [truthy negb andb Rounded.bound].
  rewrite (aspectRatio_finite rnd W H HH).
  pose proof (ratio_pos W H HW HH) as Hr.
  pose proof (ratio_eq W H HH) as Er.
  pose proof (inject_Z_pos _ HW) as Hw. pose proof (inject_Z_pos _ HH) as Hh.
  pose proof (inject_Z_pos _ Hm) as Hmq.
  destruct (scaled_height rnd Hrnd W H HW HH m Hm) as (Ey & Y1 & Y2).
  destruct (scaled_width rnd Hrnd W H HW HH m Hm) as (Ez & Z1 & Z2).
  set (r := (inject_Z W / inject_Z H)%Q) in *.
  set (a := rnd r) in *.
  set (y := rnd (inject_Z m / a)%Q) in *.
  set (z := rnd (inject_Z m * a)%Q) in *.
  split.
  - unfold Number.int at 1 2. rewrite gtb_finite, Qgtb_inject.
    destruct (m <? W) eqn:E1.
    + apply Z.ltb_lt in E1. rewrite Ey.
      exists m, (jsRound y). rewrite round_int.
      split; [reflexivity|]. split; [lia|]. intros _. split; [reflexivity|].
      apply (half_pixel (jsRound y) W (m * H) y); try nia;
        try reflexivity; rewrite inject_Z_mult; unfold eps64 in *; nra.
    + apply Z.ltb_ge in E1. exists W, H. rewrite !round_int.
      split; [reflexivity|]. split; [auto|lia].
  - unfold Number.int at 1 2. rewrite gtb_finite, Qgtb_inject.
    destruct (m <? H) eqn:E1.
    + apply Z.ltb_lt in E1. rewrite Ez.
      exists (jsRound z), m. rewrite round_int.
      split; [reflexivity|]. split; [lia|]. intros _. split; [reflexivity|].
      apply (half_pixel (jsRound z) H (m * W) z); try nia;
        try reflexivity; rewrite inject_Z_mult; unfold eps64 in *; nra.
    + apply Z.ltb_ge in E1. exists W, H. rewrite !round_int.
      split; [reflexivity|]. split; [auto|lia].
Qed.

(** The same picture with one bound of 1920. *)
Lemma resize_single_bound_witness :
  (exists w h,
     Rounded.calculateResizedDimensions binary64 4096 1680 (Some 1920) None true
     = Rounded.mkSize (Number.int w) (Number.int h) /\
     (4096 <= 1920 -> w = 4096 /\ h = 1680) /\
     (1920 < 4096 -> w = 1920 /\ 2 * Z.abs (h * 4096 - 1920 * 1680) <= 4096)) /\
  (exists w h,
     Rounded.calculateResizedDimensions binary64 4096 1680 None (Some 1920) true
     = Rounded.mkSize (Number.int w) (Number.int h) /\
     (1680 <= 1920 -> w = 4096 /\ h = 1680) /\
     (1920 < 1680 -> h = 1920 /\ 2 * Z.abs (w * 1680 - 1920 * 4096) <= 1680)).
Proof.
  apply (resize_single_bound binary64 4096 1680 1920).
  - exact binary64_error.
  - lia.
  - lia.
  - lia.
  - vm_compute. reflexivity.
Defined.

(** ** Batch loops *)

Lemma nth_error_skipn {A : Type} (l : list A) (i : nat) (x : A) :
  nth_error l i = Some x -> skipn i l = x :: skipn (S i) l.
Proof.
  revert i. induction l as [|y l IH]; intros [|i] E; cbn in *; try discriminate.
  - now injection E as ->.
  - now apply IH.
Qed.

Lemma nth_error_skipn_None {A : Type} (l : list A) (i : nat) :
  nth_error l i = None -> skipn i l = [].
Proof.
  intro E. apply nth_error_None in E. now apply skipn_all2.
Qed.

(** A batch that nobody disturbs goes through the files one by one. *)
Lemma batchLoop_undisturbed {R : Type} (rnd : Q -> Q) (process : File -> Outcome R)
    (fuel : nat) :
  forall files i results errors shown,
    (forall file, In file (skipn i files) -> process file <> Pending) ->
    (List.length files <= i + fuel)%nat ->
    batchLoop rnd process undisturbed fuel (mkBatchState files results errors shown) i
    = Returned
        (mkBatchState files
           (results ++ successes process (skipn i files))
           (errors ++ failures process (skipn i files))
           (shownAfter rnd process (skipn i files) (Z.of_nat i)
              (Z.of_nat (List.length files)) shown)).
Proof.
  induction fuel as [|fuel IH]; intros files i results errors shown Hsettle Hfuel.
  - cbn [batchLoop state_files].
    destruct (nth_error files i) as [file|] eqn:E.
    + exfalso. assert (nth_error files i <> None) by congruence.
      apply nth_error_Some in H. lia.
    + rewrite (nth_error_skipn_None _ _ E). cbn. now rewrite !app_nil_r.
  - cbn [batchLoop state_files state_results state_errors state_shown].
    destruct (nth_error files i) as [file|] eqn:E.
    + rewrite (nth_error_skipn _ _ _ E) in *.
      assert (Hrest : forall f, In f (skipn (S i) files) -> process f <> Pending).
      { intros f Hf. apply Hsettle. now right. }
      cbn [successes failures shownAfter].
      unfold undisturbed, spliced. cbn [fold_left].
      destruct (process file) eqn:P.
      * rewrite IH by (assumption || lia).
        rewrite <- app_assoc. cbn [app].
        replace (Z.of_nat (S i)) with (Z.of_nat i + 1) by lia. reflexivity.
      * rewrite E. rewrite IH by (assumption || lia).
        rewrite <- app_assoc. cbn [app].
        replace (Z.of_nat (S i)) with (Z.of_nat i + 1) by lia. reflexivity.
      * exfalso. apply (Hsettle file); [now left|assumption].
    + rewrite (nth_error_skipn_None _ _ E). cbn. now rewrite !app_nil_r.
Qed.

Lemma successes_failures_length {R : Type} (process : File -> Outcome R)
    (files : list File) :
  (forall file, In file files -> process file <> Pending) ->
  (List.length (successes process files) + List.length (failures process files)
   = List.length files)%nat.
Proof.
  induction files as [|file rest IH]; intro Hsettle; [reflexivity|].
  assert (Hrest : forall f, In f rest -> process f <> Pending).
  { intros f Hf. apply Hsettle. now right. }
  specialize (IH Hrest). cbn [successes failures].
  destruct (process file) eqn:E; cbn [List.length]; try lia.
  exfalso. apply (Hsettle file); [now left|assumption].
Qed.

Lemma successes_failures_perm {R : Type} (process : File -> Outcome R)
    (files : list File) :
  (forall file, In file files -> process file <> Pending) ->
  Permutation
    (map Some (map inl (successes process files) ++ map inr (failures process files)))
    (map (recorded process) files).
Proof.
  induction files as [|file rest IH]; intro Hsettle; [constructor|].
  assert (Hrest : forall f, In f rest -> process f <> Pending).
  { intros f Hf. apply Hsettle. now right. }
  specialize (IH Hrest). cbn [successes failures map].
  assert (Hrec : recorded process file =
                 match process file with
                 | Returned result => Some (inl result)
                 | Threw error => Some (inr (mkErrorEntry (file_name file) error))
                 | Pending => None
                 end) by reflexivity.
  rewrite Hrec. clear Hrec.
  destruct (process file) eqn:E.
  - cbn [app map]. apply perm_skip. exact IH.
  - rewrite map_app. cbn [map].
    apply Permutation_sym. apply Permutation_cons_app. apply Permutation_sym.
    rewrite <- map_app. exact IH.
  - exfalso. apply (Hsettle file); [now left|assumption].
Qed.

Lemma runBatch_undisturbed {R : Type} (rnd : Q -> Q) (process : File -> Outcome R)
    (files : list File) :
  (forall file, In file files -> process file <> Pending) ->
  runBatch rnd process undisturbed files
  = Returned
      (mkBatchState files (successes process files) (failures process files)
         (shownAfter rnd process files 0 (Z.of_nat (List.length files)) None)).
Proof.
  intro Hsettle. unfold runBatch.
  rewrite batchLoop_undisturbed; [reflexivity| |lia].
  exact Hsettle.
Qed.

Lemma processBatch_invariant {R : Type} (rnd : Q -> Q) (process : File -> Outcome R)
    (files : list File) :
  (forall file, In file files -> process file <> Pending) ->
  exists r,
    processBatch rnd process undisturbed files = Returned r /\
    batchInvariant process files r.
Proof.
  intro Hsettle. unfold processBatch.
  rewrite (runBatch_undisturbed rnd process files Hsettle).
  cbn [bind state_files state_results state_errors].
  eexists. split; [reflexivity|].
  pose proof (successes_failures_length process files Hsettle).
  unfold batchInvariant. cbn [total success failed results errors].
  repeat split; try lia.
  now apply successes_failures_perm.
Qed.

(** C5, as amended.  A batch call over a list of files from which no file
    is removed while the batch runs, and whose per-file calls all settle,
    returns counts with success + failed = total = the number of input
    files; the results are those of the calls that returned and the errors
    those of the calls that threw, both in input order, so every input file
    is recorded in exactly one of the two lists.  Proved for
    [compressImages] and [convertImages], whatever the per-file calls
    do. *)
Theorem batch_counts_add_up :
  (forall rnd createImageElement canvasToBlob fuel files options,
     (forall file, In file files ->
        ImageCompressor.compressImage rnd createImageElement canvasToBlob
          fuel file options <> Pending) ->
     exists r,
       ImageCompressor.compressImages rnd createImageElement canvasToBlob
         fuel undisturbed files options = Returned r /\
       batchInvariant
         (fun file => ImageCompressor.compressImage rnd createImageElement
                        canvasToBlob fuel file options) files r) /\
  (forall rnd createImageElement canvasToBlob files targetFormat options,
     (forall file, In file files ->
        ImageConverter.convertImage createImageElement canvasToBlob
          file targetFormat options <> Pending) ->
     exists r,
       ImageConverter.convertImages rnd createImageElement canvasToBlob
         undisturbed files targetFormat options = Returned r /\
       batchInvariant
         (fun file => ImageConverter.convertImage createImageElement
                        canvasToBlob file targetFormat options) files r).
Proof.
  split; intros; now apply processBatch_invariant.
Qed.

(** Five files, of which the PDF is refused. *)
Lemma batch_counts_add_up_witness :
  exists r,
    ImageConverter.convertImages binary64 loadSquare byQuality undisturbed fiveFiles
      "image/png" plainOptions = Returned r /\
    batchInvariant
      (fun file => ImageConverter.convertImage loadSquare byQuality file
                     "image/png" plainOptions) fiveFiles r.
Proof.
  apply (proj2 batch_counts_add_up binary64 loadSquare byQuality fiveFiles
           "image/png"%string plainOptions).
  intros file Hin. cbn [fiveFiles In] in Hin.
  destruct Hin as [<-|[<-|[<-|[<-|[<-|[]]]]]]; vm_compute; discriminate.
Defined.

(** C5 fails as stated.  The callers hand the batch the array
    [window.selectedFiles], and a file removed from the list during the
    batch is spliced out of that array.  Of four files that all convert,
    with the second removed while the first is converted and the two at
    the top removed while the last is, the batch returns three results, no
    error and a total of 1: the counts do not add up, the total is not the
    number of input files, and the second file is in neither list. *)
Lemma batch_counts_disagree :
  exists r,
    ImageConverter.convertImages binary64 loadSquare byQuality removals fourFiles
      "image/png" plainOptions = Returned r /\
    success r = 3 /\ failed r = 0 /\ total r = 1 /\
    success r + failed r <> total r /\
    total r <> Z.of_nat (List.length fourFiles) /\
    map ImageConverter.filename (results r)
    = ["one_converted.png"; "four_converted.png"; "five_converted.png"]%string /\
    errors r = [].
Proof.
  eexists. split; [vm_compute; reflexivity|].
  cbn [success failed total results errors map ImageConverter.filename].
  repeat split; discriminate.
Qed.

Example batch_of_five :
  exists r,
    ImageConverter.convertImages binary64 loadSquare byQuality undisturbed fiveFiles
      "image/png" plainOptions = Returned r /\
    success r = 4 /\ failed r = 1 /\ total r = 5 /\
    errors r = [mkErrorEntry "three.pdf"
                  (ConvertFailed (UnsupportedFormat "application/pdf"))].
Proof. eexists. split; [vm_compute; reflexivity|]. repeat split. Qed.

(** ** Batches that stall or reject *)

Lemma spliced_nil (files : list File) : spliced files [] = files.
Proof. reflexivity. Qed.

(** The only error a batch throws is the read of [files[i].name] in
    [catch], and only after a removal. *)
Lemma batchLoop_threw {R : Type} (rnd : Q -> Q) (process : File -> Outcome R)
    (interference : Interference) (fuel : nat) :
  forall s i e,
    batchLoop rnd process interference fuel s i = Threw e ->
    e = NameOfUndefined /\ exists j, interference j <> [].
Proof.
  induction fuel as [|fuel IH]; intros s i e Hrun; cbn [batchLoop] in Hrun.
  - destruct (nth_error (state_files s) i); discriminate.
  - destruct (nth_error (state_files s) i) as [file|] eqn:E; [|discriminate].
    destruct (process file) eqn:P; [now apply IH in Hrun| |discriminate].
    destruct (nth_error (spliced (state_files s) (interference i)) i) eqn:E2.
    + now apply IH in Hrun.
    + injection Hrun as <-. split; [reflexivity|].
      exists i. intro Hnil. rewrite Hnil, spliced_nil in E2. congruence.
Qed.

Lemma batchLoop_stalls {R : Type} (rnd : Q -> Q) (process : File -> Outcome R)
    (fuel : nat) :
  forall files i results errors shown,
    (List.length files <= i + fuel)%nat ->
    (batchLoop rnd process undisturbed fuel (mkBatchState files results errors shown) i
     = Pending <->
     exists file, In file (skipn i files) /\ process file = Pending).
Proof.
  induction fuel as [|fuel IH]; intros files i results errors shown Hfuel;
    cbn [batchLoop state_files state_results state_errors state_shown].
  - destruct (nth_error files i) as [file|] eqn:E.
    + exfalso. assert (nth_error files i <> None) by congruence.
      apply nth_error_Some in H. lia.
    + rewrite (nth_error_skipn_None _ _ E). split; [discriminate|].
      intros (f & [] & _).
  - destruct (nth_error files i) as [file|] eqn:E.
    + rewrite (nth_error_skipn _ _ _ E).
      unfold undisturbed, spliced. cbn [fold_left].
      destruct (process file) eqn:P.
      * rewrite IH by lia. split.
        -- intros (f & Hin & Hf). exists f. split; [now right|exact Hf].
        -- intros (f & [<-|Hin] & Hf); [congruence|]. now exists f.
      * rewrite E. rewrite IH by lia. split.
        -- intros (f & Hin & Hf). exists f. split; [now right|exact Hf].
        -- intros (f & [<-|Hin] & Hf); [congruence|]. now exists f.
      * split; [|reflexivity]. intros _. exists file. split; [now left|exact P].
    + rewrite (nth_error_skipn_None _ _ E). split; [discriminate|].
      intros (f & [] & _).
Qed.

Lemma splice1_length {A : Type} (l : list A) (index : nat) :
  (List.length (ImageProcessorApp.splice1 l index) <= List.length l)%nat.
Proof.
  unfold ImageProcessorApp.splice1.
  rewrite length_app, length_firstn, length_skipn. lia.
Qed.

(** Removals only shorten the array, and leave in it nothing that was
    not there. *)
Lemma spliced_shrinks (indices : list nat) :
  forall files,
    (List.length (spliced files indices) <= List.length files)%nat /\
    forall file, In file (spliced files indices) -> In file files.
Proof.
  unfold spliced.
  induction indices as [|index rest IH]; intro files; cbn [fold_left].
  - split; [lia|auto].
  - destruct (IH (ImageProcessorApp.splice1 files index)) as [L I].
    pose proof (splice1_length files index). split; [lia|].
    intros file Hin. eapply splice1_In. apply I. exact Hin.
Qed.

(** The loop is never short of fuel: it stalls only in a call that never
    settles, whatever is removed meanwhile. *)
Lemma batchLoop_pending {R : Type} (rnd : Q -> Q) (process : File -> Outcome R)
    (interference : Interference) (fuel : nat) :
  forall s i,
    (List.length (state_files s) <= i + fuel)%nat ->
    batchLoop rnd process interference fuel s i = Pending ->
    exists file, In file (state_files s) /\ process file = Pending.
Proof.
  induction fuel as [|fuel IH]; intros s i Hfuel Hrun; cbn [batchLoop] in Hrun.
  - destruct (nth_error (state_files s) i) as [file|] eqn:E; [|discriminate].
    exfalso. assert (N : nth_error (state_files s) i <> None) by congruence.
    apply nth_error_Some in N. lia.
  - destruct (nth_error (state_files s) i) as [file|] eqn:E; [|discriminate].
    destruct (spliced_shrinks (interference i) (state_files s)) as [L I].
    destruct (process file) eqn:P.
    + apply IH in Hrun; [|cbn [state_files]; lia].
      destruct Hrun as (found & Hin & Hf). exists found. split; [now apply I|exact Hf].
    + destruct (nth_error (spliced (state_files s) (interference i)) i); [|discriminate].
      apply IH in Hrun; [|cbn [state_files]; lia].
      destruct Hrun as (found & Hin & Hf). exists found. split; [now apply I|exact Hf].
    + exists file. split; [|exact P]. eapply nth_error_In. exact E.
Qed.

(** X20.  A batch from which no file is removed while it runs never
    throws: the errors of the per-file calls are collected, and the batch
    returns unless one of the calls never settles; it stalls exactly when
    one does.  With removals the batch can throw, and then only the error
    of reading the name of [files[i]] in [catch] after the array has
    become too short; it still stalls only in a per-file call that never
    settles.  Two files, the second of which fails to load while the first
    is removed: the batch rejects. *)
Theorem batch_never_throws :
  (forall (R : Type) (rnd : Q -> Q) (process : File -> Outcome R) (files : list File),
     (forall e, processBatch rnd process undisturbed files <> Threw e) /\
     (processBatch rnd process undisturbed files = Pending <->
      exists file, In file files /\ process file = Pending)) /\
  (forall (R : Type) (rnd : Q -> Q) (process : File -> Outcome R)
          (interference : Interference) (files : list File),
     (forall e, processBatch rnd process interference files = Threw e ->
        e = NameOfUndefined /\ exists i, interference i <> []) /\
     (processBatch rnd process interference files = Pending ->
      exists file, In file files /\ process file = Pending)) /\
  ImageConverter.convertImages binary64 loadUnlessBroken byQuality
    (fun i => match i with 1%nat => [0%nat] | _ => [] end)
    [mkFile "one.jpg" "image/jpeg" 1000; mkFile "broken.png" "image/png" 2000]
    "image/webp" plainOptions
  = Threw NameOfUndefined.
Proof.
  assert (G : forall (R : Type) (rnd : Q -> Q) (process : File -> Outcome R)
                     (interference : Interference) (files : list File) (e : Error),
            processBatch rnd process interference files = Threw e ->
            e = NameOfUndefined /\ exists i, interference i <> []).
  { intros R rnd process interference files e Hrun.
    unfold processBatch, runBatch in Hrun.
    destruct (batchLoop rnd process interference (List.length files)
                (mkBatchState files [] [] None) 0) eqn:E;
      cbn [bind] in Hrun; try discriminate.
    injection Hrun as ->. now apply batchLoop_threw in E. }
  split; [|split; [|vm_compute; reflexivity]].
  - intros R rnd process files. split.
    + intros e Hrun. apply G in Hrun. destruct Hrun as (_ & i & Hi). now apply Hi.
    + unfold processBatch, runBatch.
      pose proof (batchLoop_stalls rnd process (List.length files) files 0 [] [] None
                    ltac:(lia)) as St.
      cbn [skipn] in St. rewrite <- St.
      destruct (batchLoop rnd process undisturbed (List.length files)
                  (mkBatchState files [] [] None) 0); cbn [bind];
        split; intro; (reflexivity || discriminate).
  - intros R rnd process interference files. split; [apply G|].
    intro Hrun. unfold processBatch, runBatch in Hrun.
    destruct (batchLoop rnd process interference (List.length files)
                (mkBatchState files [] [] None) 0) eqn:E;
      cbn [bind] in Hrun; try discriminate.
    apply batchLoop_pending in E; [exact E|cbn [state_files]; lia].
Qed.

Example batch_of_failures :
  exists r,
    ImageConverter.convertImages binary64 (fun _ => Threw ImageLoadFailed) byQuality
      undisturbed fiveFiles "image/png" plainOptions = Returned r /\
    success r = 0 /\ failed r = 5 /\ total r = 5.
Proof. eexists. split; [vm_compute; reflexivity|]. repeat split. Qed.

(** ** The progress display *)

Section Percent.

Variable rnd : Q -> Q.
Hypothesis rnd_error : forall x, (Qabs (rnd x - x) <= eps64 * Qabs x)%Q.

(** The percentage is an integer between 0 and 100: 100 at the last
    position, and less below it in a batch of fewer than 200 files. *)
Lemma progressPercent_value (current total : Z) :
  0 < total -> 0 <= current <= total ->
  exists p,
    progressPercent rnd current total = Number.int p /\
    0 <= p <= 100 /\
    (current = total -> p = 100) /\
    (current < total -> total < 200 -> p < 100).
Proof.
  intros Ht [H0 H1].
  pose proof (inject_Z_pos _ Ht) as Htq.
  unfold progressPercent, Number.int.
  rewrite div_finite by lra.
  cbn [Number.mul Number.round]. unfold Number.int.
  eexists. split; [reflexivity|].
  rewrite Zle_Qle in H0, H1. change (inject_Z 0) with 0%Q in H0.
  assert (E : (inject_Z current / inject_Z total * inject_Z total
               == inject_Z current)%Q) by (field; lra).
  set (x := (inject_Z current / inject_Z total)%Q) in *.
  assert (X0 : (0 <= x)%Q) by nra.
  assert (X1 : (x <= 1)%Q) by nra.
  pose proof (rnd_nonneg rnd rnd_error x X0) as [Q1 Q2].
  set (q := rnd x) in *.
  assert (P0 : (0 <= q * inject_Z 100)%Q).
  { change (inject_Z 100) with 100%Q. unfold eps64 in *. lra. }
  pose proof (rnd_nonneg rnd rnd_error _ P0) as [R1 R2].
  set (y := rnd (q * inject_Z 100)) in *.
  change (inject_Z 100) with 100%Q in *.
  split; [split|split].
  - apply jsRound_ge_Z. change (inject_Z 0) with 0%Q. unfold eps64 in *. lra.
  - apply jsRound_below. change (inject_Z 100) with 100%Q. unfold eps64 in *. lra.
  - intros ->.
    assert (Ex : (x == 1)%Q) by nra.
    assert (L : 100 <= jsRound y).
    { apply jsRound_above. change (inject_Z 100) with 100%Q. unfold eps64 in *. lra. }
    assert (U : jsRound y <= 100).
    { apply jsRound_below. change (inject_Z 100) with 100%Q. unfold eps64 in *. lra. }
    lia.
  - intros Hlt Hsmall.
    assert (H1' : current + 1 <= total) by lia.
    rewrite Zle_Qle, inject_Z_plus in H1'. change (inject_Z 1) with 1%Q in H1'.
    assert (Hsmall' : total <= 199) by lia.
    rewrite Zle_Qle in Hsmall'. change (inject_Z 199) with 199%Q in Hsmall'.
    assert (X2 : (x * 199 <= 198)%Q).
    { destruct (Qlt_le_dec 198 (x * 199)) as [Hgt|Hle]; [exfalso|exact Hle].
      assert (T : (0 < (x * 199 - 198) * inject_Z total)%Q)
        by (apply Qmult_lt_0_compat; lra).
      lra. }
    assert (U : jsRound y <= 99).
    { apply jsRound_below. change (inject_Z 99) with 99%Q. unfold eps64 in *. lra. }
    lia.
Qed.

End Percent.

(** The display after an undisturbed run through [rest] shows the last
    success. *)
Lemma shownAfter_lastSuccess {R : Type} (rnd : Q -> Q) (process : File -> Outcome R)
    (rest : list File) :
  forall i total shown,
    shownAfter rnd process rest i total shown
    = (if lastSuccess process rest i i =? i then shown
       else updateProgress rnd (lastSuccess process rest i i) total) /\
    i <= lastSuccess process rest i i <= i + Z.of_nat (List.length rest).
Proof.
  assert (G : forall i last total shown,
            last <= i ->
            shownAfter rnd process rest i total shown
            = (if lastSuccess process rest i last =? last then shown
               else updateProgress rnd (lastSuccess process rest i last) total) /\
            (lastSuccess process rest i last = last \/
             i < lastSuccess process rest i last <= i + Z.of_nat (List.length rest))).
  { induction rest as [|file rest IH]; intros i last total shown Hle.
    - cbn [shownAfter lastSuccess List.length]. rewrite Z.eqb_refl. split; auto.
    - cbn [shownAfter lastSuccess List.length].
      destruct (process file) eqn:E.
      + destruct (IH (i + 1) (i + 1) total (updateProgress rnd (i + 1) total)
                    ltac:(lia)) as [Run Pos].
        rewrite Run. split.
        * destruct (lastSuccess process rest (i + 1) (i + 1) =? i + 1) eqn:A;
          destruct (lastSuccess process rest (i + 1) (i + 1) =? last) eqn:B;
            try reflexivity.
          -- apply Z.eqb_eq in A. apply Z.eqb_eq in B. lia.
          -- apply Z.eqb_eq in A. now rewrite A.
          -- apply Z.eqb_eq in B. destruct Pos as [P|P]; lia.
        * right. destruct Pos as [P|P]; lia.
      + destruct (IH (i + 1) last total shown ltac:(lia)) as [Run Pos].
        rewrite Run. split; [reflexivity|]. destruct Pos as [P|P]; [now left|right; lia].
      + destruct (IH (i + 1) last total shown ltac:(lia)) as [Run Pos].
        rewrite Run. split; [reflexivity|]. destruct Pos as [P|P]; [now left|right; lia]. }
  intros i total shown. destruct (G i i total shown ltac:(lia)) as [Run Pos].
  split; [exact Run|]. destruct Pos as [P|P]; lia.
Qed.

(** X19.  The progress display follows the successes, not the files.  In
    a batch from which no file is removed and whose calls settle, the
    display ends on the position of the last file that succeeded, or shows
    nothing when none did.  The percentage, computed on doubles, is a
    whole number from 0 to 100: 100 when the last file succeeded, and less
    than 100 when it failed in a batch of fewer than 200 files. *)
Theorem progress_shows_last_success {R : Type} (rnd : Q -> Q)
    (process : File -> Outcome R) (files : list File) :
  (forall x, (Qabs (rnd x - x) <= eps64 * Qabs x)%Q) ->
  (forall file, In file files -> process file <> Pending) ->
  let total := Z.of_nat (List.length files) in
  let position := lastSuccess process files 0 0 in
  0 <= position <= total /\
  batchProgress rnd process undisturbed files
  = Returned (if position =? 0 then None
              else Some (mkProgress position total (progressPercent rnd position total))) /\
  (0 < total ->
   exists percent,
     progressPercent rnd position total = Number.int percent /\
     0 <= percent <= 100 /\
     (position = total -> percent = 100) /\
     (position < total -> total < 200 -> percent < 100)).
Proof.
  intros Hrnd Hsettle total position.
  destruct (shownAfter_lastSuccess rnd process files 0 total None) as [Run Pos].
  fold position in Run, Pos. cbn [Z.add] in Pos. fold total in Pos.
  split; [exact Pos|]. split.
  - unfold batchProgress. rewrite (runBatch_undisturbed rnd process files Hsettle).
    cbn [bind state_shown]. fold total. now rewrite Run.
  - intro Ht. now apply progressPercent_value.
Qed.

(** Five files, the last one a PDF. *)
Lemma progress_shows_last_success_witness :
  let process := fun file =>
    ImageConverter.convertImage loadSquare byQuality file "image/png" plainOptions in
  let files := [mkFile "one.jpg" "image/jpeg" 1000; mkFile "two.png" "image/png" 2000;
                mkFile "four.webp" "image/webp" 4000; mkFile "five.gif" "image/gif" 5000;
                mkFile "three.pdf" "application/pdf" 3000] in
  let total := Z.of_nat (List.length files) in
  let position := lastSuccess process files 0 0 in
  0 <= position <= total /\
  batchProgress binary64 process undisturbed files
  = Returned (if position =? 0 then None
              else Some (mkProgress position total
                           (progressPercent binary64 position total))) /\
  (0 < total ->
   exists percent,
     progressPercent binary64 position total = Number.int percent /\
     0 <= percent <= 100 /\
     (position = total -> percent = 100) /\
     (position < total -> total < 200 -> percent < 100)).
Proof.
  apply (progress_shows_last_success binary64
           (fun file =>
              ImageConverter.convertImage loadSquare byQuality file "image/png"
                plainOptions)
           [mkFile "one.jpg" "image/jpeg" 1000; mkFile "two.png" "image/png" 2000;
            mkFile "four.webp" "image/webp" 4000; mkFile "five.gif" "image/gif" 5000;
            mkFile "three.pdf" "application/pdf" 3000]).
  - exact binary64_error.
  - intros file Hin. cbn [In] in Hin.
    destruct Hin as [<-|[<-|[<-|[<-|[<-|[]]]]]]; vm_compute; discriminate.
Defined.

Example progress_stops_at_80 :
  batchProgress binary64
    (fun file =>
       ImageConverter.convertImage loadSquare byQuality file "image/png" plainOptions)
    undisturbed
    [mkFile "one.jpg" "image/jpeg" 1000; mkFile "two.png" "image/png" 2000;
     mkFile "four.webp" "image/webp" 4000; mkFile "five.gif" "image/gif" 5000;
     mkFile "three.pdf" "application/pdf" 3000]
  = Returned (Some (mkProgress 4 5 (Number.int 80))).
Proof. vm_compute. reflexivity. Qed.

(** 23 of 40 is 57.49999999999999 on doubles: 57%, not 58%. *)
Example progress_23_of_40 : progressPercent binary64 23 40 = Number.int 57.
Proof. vm_compute. reflexivity. Qed.

(** When the list is emptied while the only file is converted, the
    display divides by a length of 0. *)
Example progress_of_emptied_list :
  batchProgress binary64
    (fun file =>
       ImageConverter.convertImage loadSquare byQuality file "image/png" plainOptions)
    (fun _ => [0%nat]) [mkFile "one.jpg" "image/jpeg" 1000]
  = Returned (Some (mkProgress 1 0 PlusInfinity)).
Proof. vm_compute. reflexivity. Qed.

(** ** One axis of the crop computation *)

Section Axis.

Variable rnd : Q -> Q.
Hypothesis rnd_error : forall x, (Qabs (rnd x - x) <= eps64 * Qabs x)%Q.

(** A side of the source, of [n] pixels, shown on a canvas side of [m]
    pixels. *)
Variables n m : Z.
Hypothesis Hn : 0 < n < maxNatural.
Hypothesis Hm : 0 < m.

Local Abbreviation s := (rnd (inject_Z n / inject_Z m)).

Lemma source_side_bound : (0 < inject_Z n /\ inject_Z n <= 4294967296)%Q.
Proof.
  split; [apply inject_Z_pos; lia|].
  assert (B : n <= 4294967296).
  { unfold maxNatural in Hn. change (2 ^ 32) with 4294967296 in Hn. lia. }
  rewrite Zle_Qle in B. exact B.
Qed.

Lemma scale_finite :
  Number.div rnd (Number.int n) (Number.int m) = Finite s.
Proof.
  unfold Number.int. rewrite div_finite; [reflexivity|].
  apply inject_Z_nonzero. lia.
Qed.

Lemma scale_bounds :
  (0 <= s /\
   (1 - eps64) * inject_Z n <= s * inject_Z m /\
   s * inject_Z m <= (1 + eps64) * inject_Z n)%Q.
Proof.
  pose proof source_side_bound as [Hnq _].
  pose proof (inject_Z_pos _ Hm) as Hmq.
  assert (E : (inject_Z n / inject_Z m * inject_Z m == inject_Z n)%Q)
    by (field; lra).
  assert (R0 : (0 <= inject_Z n / inject_Z m)%Q).
  { apply Qle_shift_div_l; lra. }
  pose proof (rnd_nonneg rnd rnd_error _ R0) as [L U].
  set (r := (inject_Z n / inject_Z m)%Q) in *.
  assert (L' : ((1 - eps64) * r * inject_Z m <= rnd r * inject_Z m)%Q)
    by (apply Qmult_le_compat_r; lra).
  assert (U' : (rnd r * inject_Z m <= (1 + eps64) * r * inject_Z m)%Q)
    by (apply Qmult_le_compat_r; lra).
  split; [unfold eps64 in *; lra|].
  split; unfold eps64 in *; lra.
Qed.

Lemma scaled_upper (x c : Q) :
  (0 <= x -> 0 <= c -> x <= c * inject_Z m ->
   0 <= rnd (x * s) /\
   rnd (x * s) <= (1 + eps64) * ((1 + eps64) * (c * inject_Z n)))%Q.
Proof.
  intros Hx Hc Hxc.
  destruct scale_bounds as (S0 & SL & SU).
  assert (P0 : (0 <= x * s)%Q) by (apply Qmult_le_0_compat; assumption).
  pose proof (rnd_nonneg rnd rnd_error _ P0) as [L U].
  assert (A : (x * s <= c * inject_Z m * s)%Q)
    by (apply Qmult_le_compat_r; assumption).
  assert (B : (c * (s * inject_Z m) <= c * ((1 + eps64) * inject_Z n))%Q).
  { rewrite !(Qmult_comm c). apply Qmult_le_compat_r; assumption. }
  split; unfold eps64 in *; lra.
Qed.

Lemma scaled_lower (x c : Q) :
  (0 <= c -> c * inject_Z m <= x ->
   (1 - eps64) * ((1 - eps64) * (c * inject_Z n)) <= rnd (x * s))%Q.
Proof.
  intros Hc Hxc.
  destruct scale_bounds as (S0 & SL & SU).
  pose proof (inject_Z_pos _ Hm) as Hmq.
  assert (Hx : (0 <= x)%Q).
  { assert (T : (0 <= c * inject_Z m)%Q) by (apply Qmult_le_0_compat; lra). lra. }
  assert (P0 : (0 <= x * s)%Q) by (apply Qmult_le_0_compat; assumption).
  pose proof (rnd_nonneg rnd rnd_error _ P0) as [L U].
  assert (A : (c * inject_Z m * s <= x * s)%Q)
    by (apply Qmult_le_compat_r; assumption).
  assert (B : (c * ((1 - eps64) * inject_Z n) <= c * (s * inject_Z m))%Q).
  { rewrite !(Qmult_comm c). apply Qmult_le_compat_r; assumption. }
  unfold eps64 in *; lra.
Qed.

(** Whatever the box, a rectangle inside the canvas up to rounding maps to
    a rectangle that leaves the source by one pixel at most. *)
Lemma axis_within (x w : Q) :
  (0 <= x)%Q -> (0 <= w)%Q -> (x + w <= inject_Z m * (1 + ulp64))%Q ->
  0 <= jsRound (rnd (x * s)) /\
  jsRound (rnd (x * s)) + jsRound (rnd (w * s)) <= n + 1.
Proof.
  intros Hx Hw Hsum.
  destruct scale_bounds as (S0 & SL & SU).
  pose proof source_side_bound as [Hnq Hnb].
  assert (PX : (0 <= x * s)%Q) by (apply Qmult_le_0_compat; assumption).
  assert (PW : (0 <= w * s)%Q) by (apply Qmult_le_0_compat; assumption).
  pose proof (rnd_nonneg rnd rnd_error _ PX) as [LX UX].
  pose proof (rnd_nonneg rnd rnd_error _ PW) as [LW UW].
  assert (A : ((x + w) * s <= inject_Z m * (1 + ulp64) * s)%Q)
    by (apply Qmult_le_compat_r; assumption).
  pose proof (jsRound_upper (rnd (x * s))) as JX.
  pose proof (jsRound_upper (rnd (w * s))) as JW.
  split.
  - apply jsRound_ge_Z. change (inject_Z 0) with 0%Q. unfold eps64 in *. lra.
  - assert (B : (inject_Z (jsRound (rnd (x * s)) + jsRound (rnd (w * s)))
                 < inject_Z (n + 2))%Q).
    { rewrite !inject_Z_plus. change (inject_Z 2) with 2%Q.
      unfold eps64, ulp64 in *. lra. }
    rewrite <- Zlt_Qlt in B. lia.
Qed.

(** A box of the size [initCropBox] or [selectAll] gives maps to a
    rectangle inside the source. *)
Lemma axis_standard (x w : Q) :
  (0 <= x)%Q -> (x + w <= inject_Z m * (1 + ulp64))%Q ->
  (w = rnd (inject_Z m * rnd (8 # 10)) \/ w = inject_Z m) ->
  0 <= jsRound (rnd (x * s)) /\
  jsRound (rnd (x * s)) + jsRound (rnd (w * s)) <= n.
Proof.
  intros Hx Hsum Hw.
  pose proof source_side_bound as [Hnq Hnb].
  pose proof (inject_Z_pos _ Hm) as Hmq.
  assert (T0 : (0 <= 8 # 10)%Q) by lra.
  pose proof (rnd_nonneg rnd rnd_error _ T0) as [TL TU].
  set (t := rnd (8 # 10)) in *.
  assert (M0 : (0 <= inject_Z m * t)%Q).
  { apply Qmult_le_0_compat; [lra|unfold eps64 in *; lra]. }
  pose proof (rnd_nonneg rnd rnd_error _ M0) as [WL WU].
  assert (ML : (inject_Z m * ((1 - eps64) * (8 # 10)) <= inject_Z m * t)%Q).
  { rewrite !(Qmult_comm (inject_Z m)). apply Qmult_le_compat_r; lra. }
  assert (MU : (inject_Z m * t <= inject_Z m * ((1 + eps64) * (8 # 10)))%Q).
  { rewrite !(Qmult_comm (inject_Z m)). apply Qmult_le_compat_r; lra. }
  destruct Hw as [-> | ->].
  - set (w8 := rnd (inject_Z m * t)) in *.
    set (c1 := (1 + ulp64 - (1 - eps64) * ((1 - eps64) * (8 # 10)))%Q).
    set (c2 := ((1 + eps64) * ((1 + eps64) * (8 # 10)))%Q).
    assert (C1 : (0 <= c1)%Q) by (unfold c1, eps64, ulp64; lra).
    assert (C2 : (0 <= c2)%Q) by (unfold c2, eps64; lra).
    assert (X1 : (x <= c1 * inject_Z m)%Q) by (unfold c1, eps64, ulp64 in *; lra).
    assert (W0 : (0 <= w8)%Q) by (unfold eps64 in *; lra).
    assert (W1 : (w8 <= c2 * inject_Z m)%Q) by (unfold c2, eps64 in *; lra).
    destruct (scaled_upper x c1 Hx C1 X1) as [AX0 AX].
    destruct (scaled_upper w8 c2 W0 C2 W1) as [AW0 AW].
    assert (JX : jsRound (rnd (x * s)) <= (4 * n + 11) / 20).
    { apply jsRound_twentieth. rewrite inject_Z_mult. change (inject_Z 4) with 4%Q.
      unfold c1, eps64, ulp64 in *. clear - AX Hnb Hnq. lra. }
    assert (JW : jsRound (rnd (w8 * s)) <= (16 * n + 11) / 20).
    { apply jsRound_twentieth. rewrite inject_Z_mult. change (inject_Z 16) with 16%Q.
      unfold c2, eps64 in *. clear - AW Hnb Hnq. lra. }
    split; [apply jsRound_ge_Z; exact AX0|]. pose proof (fifths n). lia.
  - assert (X1 : (x <= ulp64 * inject_Z m)%Q) by lra.
    assert (U0 : (0 <= ulp64)%Q) by (unfold ulp64; lra).
    destruct (scaled_upper x ulp64 Hx U0 X1) as [AX0 AX].
    assert (W1 : (inject_Z m <= 1 * inject_Z m)%Q) by lra.
    destruct (scaled_upper (inject_Z m) 1 ltac:(lra) ltac:(lra) W1) as [AW0 AW].
    assert (JX : jsRound (rnd (x * s)) <= 0).
    { apply jsRound_below. change (inject_Z 0) with 0%Q. unfold eps64, ulp64 in *. lra. }
    assert (JW : jsRound (rnd (inject_Z m * s)) <= n).
    { apply jsRound_below. unfold eps64 in *. lra. }
    split; [apply jsRound_ge_Z; exact AX0|]. lia.
Qed.

(** Four fifths of a side, rounded: the tenths of [0.8 * n] are even, so
    the roundings of the doubles cannot reach a half. *)
Lemma central_side :
  jsRound (rnd (rnd (inject_Z m * rnd (8 # 10)) * s)) = (8 * n + 5) / 10.
Proof.
  pose proof source_side_bound as [Hnq Hnb].
  pose proof (inject_Z_pos _ Hm) as Hmq.
  assert (T0 : (0 <= 8 # 10)%Q) by lra.
  pose proof (rnd_nonneg rnd rnd_error _ T0) as [TL TU].
  set (t := rnd (8 # 10)) in *.
  assert (M0 : (0 <= inject_Z m * t)%Q).
  { apply Qmult_le_0_compat; [lra|unfold eps64 in *; lra]. }
  pose proof (rnd_nonneg rnd rnd_error _ M0) as [WL WU].
  assert (ML : (inject_Z m * ((1 - eps64) * (8 # 10)) <= inject_Z m * t)%Q).
  { rewrite !(Qmult_comm (inject_Z m)). apply Qmult_le_compat_r; lra. }
  assert (MU : (inject_Z m * t <= inject_Z m * ((1 + eps64) * (8 # 10)))%Q).
  { rewrite !(Qmult_comm (inject_Z m)). apply Qmult_le_compat_r; lra. }
  set (w8 := rnd (inject_Z m * t)) in *.
  set (c2 := ((1 + eps64) * ((1 + eps64) * (8 # 10)))%Q).
  set (c3 := ((1 - eps64) * ((1 - eps64) * (8 # 10)))%Q).
  assert (C2 : (0 <= c2)%Q) by (unfold c2, eps64; lra).
  assert (C3 : (0 <= c3)%Q) by (unfold c3, eps64; lra).
  assert (W0 : (0 <= w8)%Q) by (unfold eps64 in *; lra).
  assert (W1 : (w8 <= c2 * inject_Z m)%Q) by (unfold c2, eps64 in *; lra).
  assert (W2 : (c3 * inject_Z m <= w8)%Q) by (unfold c3, eps64 in *; lra).
  destruct (scaled_upper w8 c2 W0 C2 W1) as [_ AU].
  pose proof (scaled_lower w8 c3 C3 W2) as AL.
  set (k := (8 * n + 5) / 10).
  assert (K : 10 * k + 1 <= 8 * n + 5 <= 10 * k + 9).
  { pose proof (Z.div_mod (8 * n + 5) 10 ltac:(lia)) as D.
    pose proof (Z.mod_pos_bound (8 * n + 5) 10 ltac:(lia)) as M.
    fold k in D. lia. }
  destruct K as [K1 K2].
  rewrite Zle_Qle in K1, K2.
  rewrite !inject_Z_plus, !inject_Z_mult in K1, K2.
  change (inject_Z 10) with 10%Q in *. change (inject_Z 8) with 8%Q in *.
  change (inject_Z 5) with 5%Q in *. change (inject_Z 1) with 1%Q in *.
  change (inject_Z 9) with 9%Q in *.
  assert (U : jsRound (rnd (w8 * s)) <= k).
  { apply jsRound_below. unfold c2, eps64 in *. lra. }
  assert (L : k <= jsRound (rnd (w8 * s))).
  { apply jsRound_above. unfold c3, eps64 in *. lra. }
  lia.
Qed.

End Axis.

(** ** The crop box on the display canvas *)


Section CropBox.

Variable rnd : Q -> Q.
Hypothesis rnd_error : forall x, (Qabs (rnd x - x) <= eps64 * Qabs x)%Q.

(** A tenth and four fifths of a canvas side. *)
Lemma init_axis (m : Z) :
  0 <= m ->
  (0 <= rnd (inject_Z m * rnd (1 # 10)) /\
   0 <= rnd (inject_Z m * rnd (8 # 10)) /\
   rnd (inject_Z m * rnd (1 # 10)) + rnd (inject_Z m * rnd (8 # 10))
   <= inject_Z m * (1 + ulp64))%Q.
Proof.
  intro Hm. rewrite Zle_Qle in Hm. change (inject_Z 0) with 0%Q in Hm.
  assert (A0 : (0 <= 1 # 10)%Q) by lra.
  assert (B0 : (0 <= 8 # 10)%Q) by lra.
  pose proof (rnd_nonneg rnd rnd_error _ A0) as [AL AU].
  pose proof (rnd_nonneg rnd rnd_error _ B0) as [BL BU].
  set (a := rnd (1 # 10)) in *. set (b := rnd (8 # 10)) in *.
  assert (PA : (0 <= inject_Z m * a)%Q).
  { apply Qmult_le_0_compat; [lra|unfold eps64 in *; lra]. }
  assert (PB : (0 <= inject_Z m * b)%Q).
  { apply Qmult_le_0_compat; [lra|unfold eps64 in *; lra]. }
  pose proof (rnd_nonneg rnd rnd_error _ PA) as [XL XU].
  pose proof (rnd_nonneg rnd rnd_error _ PB) as [WL WU].
  assert (MA : (inject_Z m * a <= inject_Z m * ((1 + eps64) * (1 # 10)))%Q).
  { rewrite !(Qmult_comm (inject_Z m)). apply Qmult_le_compat_r; lra. }
  assert (MB : (inject_Z m * b <= inject_Z m * ((1 + eps64) * (8 # 10)))%Q).
  { rewrite !(Qmult_comm (inject_Z m)). apply Qmult_le_compat_r; lra. }
  repeat split; unfold eps64, ulp64 in *; lra.
Qed.

(** What the bounds check of [moveCropBox] keeps, on one axis. *)
Lemma move_axis (x w d : Q) (m : Z) :
  (0 <= x)%Q -> (0 <= w)%Q -> (x + w <= inject_Z m * (1 + ulp64))%Q ->
  let newX := rnd (x + d) in
  let x' :=
    if Qle_bool (inject_Z 0) newX && Qle_bool (rnd (newX + w)) (inject_Z m)
    then newX else x in
  (0 <= x' /\ x' + w <= inject_Z m * (1 + ulp64))%Q.
Proof.
  intros Hx Hw Hsum newX x'. subst x'.
  destruct (Qle_bool (inject_Z 0) newX) eqn:E1; cbn [andb]; [|split; assumption].
  destruct (Qle_bool (rnd (newX + w)) (inject_Z m)) eqn:E2; [|split; assumption].
  apply Qle_bool_true in E1. apply Qle_bool_true in E2.
  change (inject_Z 0) with 0%Q in E1.
  assert (P : (0 <= newX + w)%Q) by lra.
  pose proof (rnd_nonneg rnd rnd_error _ P) as [L U].
  split; [exact E1|]. unfold eps64, ulp64 in *. lra.
Qed.

Lemma initCropBox_standard (c : Rounded.Cropper) :
  0 <= width (Rounded.cropCanvas c) -> 0 <= height (Rounded.cropCanvas c) ->
  standardBox rnd (Rounded.initCropBox rnd c).
Proof.
  intros Hw Hh.
  destruct (init_axis _ Hw) as (X0 & W0 & XW).
  destruct (init_axis _ Hh) as (Y0 & H0 & YH).
  split; [|split; left; reflexivity].
  unfold almostInsideCanvas, insideCanvasUpTo.
  do 4 eexists. split; [reflexivity|].
  cbn [Rounded.initCropBox Rounded.cropCanvas]. repeat split; assumption.
Qed.

Lemma selectAll_standard (c : Rounded.Cropper) :
  0 <= width (Rounded.cropCanvas c) -> 0 <= height (Rounded.cropCanvas c) ->
  standardBox rnd (Rounded.selectAll c).
Proof.
  intros Hw Hh.
  rewrite Zle_Qle in Hw, Hh. change (inject_Z 0) with 0%Q in Hw, Hh.
  split; [|split; right; reflexivity].
  unfold almostInsideCanvas, insideCanvasUpTo.
  do 4 eexists. split; [reflexivity|].
  cbn [Rounded.selectAll Rounded.cropCanvas]. change (inject_Z 0) with 0%Q.
  repeat split; unfold ulp64; lra.
Qed.

(** The same for any distance, finite or not: an infinite or undefined
    position fails the check. *)
Lemma move_axis_number (x w : Q) (d : Number) (m : Z) :
  (0 <= x)%Q -> (0 <= w)%Q -> (x + w <= inject_Z m * (1 + ulp64))%Q ->
  exists x',
    (if Number.geb (Number.add rnd (Finite x) d) (Number.int 0)
        && Number.leb (Number.add rnd (Number.add rnd (Finite x) d) (Finite w))
                      (Number.int m)
     then Number.add rnd (Finite x) d else Finite x) = Finite x' /\
    (0 <= x' /\ x' + w <= inject_Z m * (1 + ulp64))%Q.
Proof.
  intros Hx Hw Hsum.
  destruct d as [d| | |];
    cbn [Number.add Number.geb Number.leb Number.int andb];
    try (exists x; split; [reflexivity|split; assumption]).
  pose proof (move_axis x w d m Hx Hw Hsum) as M. cbv zeta in M.
  destruct (Qle_bool (inject_Z 0) (rnd (x + d))
            && Qle_bool (rnd (rnd (x + d) + w)) (inject_Z m));
    eexists; (split; [reflexivity|exact M]).
Qed.

(** [moveCropBox] keeps a box that is inside the canvas up to rounding
    inside it, and never changes its size. *)
Lemma moveCropBox_inside (c : Rounded.Cropper) (deltaX deltaY : Number) :
  almostInsideCanvas c ->
  almostInsideCanvas (Rounded.moveCropBox rnd c deltaX deltaY).
Proof.
  intros (x & y & w & h & E & X0 & Y0 & W0 & H0 & XW & YH).
  destruct (move_axis_number x w deltaX _ X0 W0 XW) as (x' & Ex & X0' & XW').
  destruct (move_axis_number y h deltaY _ Y0 H0 YH) as (y' & Ey & Y0' & YH').
  unfold almostInsideCanvas, insideCanvasUpTo, Rounded.moveCropBox.
  rewrite E.
  cbn [Rounded.box_x Rounded.box_y Rounded.box_width Rounded.box_height
       Rounded.cropBox Rounded.cropCanvas].
  rewrite Ex, Ey. exists x', y', w, h. split; [reflexivity|].
  repeat split; assumption.
Qed.

Lemma moveCropBox_standard (c : Rounded.Cropper) (deltaX deltaY : Number) :
  standardBox rnd c ->
  standardBox rnd (Rounded.moveCropBox rnd c deltaX deltaY).
Proof.
  intros (Hin & HW & HH). split; [now apply moveCropBox_inside|].
  split; assumption.
Qed.

Lemma perform_frame (c : Rounded.Cropper) (g : Gesture) :
  Rounded.originalImage (perform rnd c g) = Rounded.originalImage c /\
  Rounded.cropCanvas (perform rnd c g) = Rounded.cropCanvas c.
Proof. destruct g; split; reflexivity. Qed.

Lemma perform_standard (c : Rounded.Cropper) (g : Gesture) :
  0 <= width (Rounded.cropCanvas c) -> 0 <= height (Rounded.cropCanvas c) ->
  standardBox rnd c -> standardBox rnd (perform rnd c g).
Proof.
  intros Hw Hh S. destruct g as [| |dx dy]; cbn [perform].
  - now apply initCropBox_standard.
  - now apply selectAll_standard.
  - now apply moveCropBox_standard.
Qed.

Lemma gestures_standard (gestures : list Gesture) :
  forall c,
    0 <= width (Rounded.cropCanvas c) -> 0 <= height (Rounded.cropCanvas c) ->
    standardBox rnd c ->
    standardBox rnd (fold_left (perform rnd) gestures c) /\
    Rounded.originalImage (fold_left (perform rnd) gestures c) = Rounded.originalImage c /\
    Rounded.cropCanvas (fold_left (perform rnd) gestures c) = Rounded.cropCanvas c.
Proof.
  induction gestures as [|g rest IH]; intros c Hw Hh S; cbn [fold_left].
  - split; [exact S|split; reflexivity].
  - destruct (perform_frame c g) as [I C].
    destruct (IH (perform rnd c g)) as (S' & I' & C').
    + now rewrite C.
    + now rewrite C.
    + now apply perform_standard.
    + split; [exact S'|]. split; congruence.
Qed.

(** ** From the display canvas to the source *)

Section Source.

Variable img : Image.
Variable c : Rounded.Cropper.
Hypothesis HW : 0 < naturalWidth img < maxNatural.
Hypothesis HH : 0 < naturalHeight img < maxNatural.
Hypothesis Hcw : 0 < width (Rounded.cropCanvas c).
Hypothesis Hch : 0 < height (Rounded.cropCanvas c).

Lemma cropRegion_finite (x y w h : Q) :
  Rounded.cropBox c = Rounded.mkCropBox (Finite x) (Finite y) (Finite w) (Finite h) ->
  let sx := rnd (inject_Z (naturalWidth img) / inject_Z (width (Rounded.cropCanvas c))) in
  let sy := rnd (inject_Z (naturalHeight img) / inject_Z (height (Rounded.cropCanvas c))) in
  Rounded.cropRegion rnd img c
  = Rounded.mkCropRegion (Number.int (jsRound (rnd (x * sx))))
      (Number.int (jsRound (rnd (y * sy))))
      (Number.int (jsRound (rnd (w * sx))))
      (Number.int (jsRound (rnd (h * sy)))).
Proof.
  intros E sx sy. unfold Rounded.cropRegion.
  rewrite (scale_finite rnd _ _ Hcw), (scale_finite rnd _ _ Hch), E.
  reflexivity.
Qed.

Lemma almost_inside_within_source :
  almostInsideCanvas c -> withinSource 1 img (Rounded.cropRegion rnd img c).
Proof.
  intros (x & y & w & h & E & X0 & Y0 & W0 & H0 & XW & YH).
  rewrite (cropRegion_finite x y w h E). cbv zeta.
  destruct (axis_within rnd rnd_error _ _ HW Hcw x w X0 W0 XW) as [A1 A2].
  destruct (axis_within rnd rnd_error _ _ HH Hch y h Y0 H0 YH) as [B1 B2].
  unfold withinSource. do 4 eexists. split; [reflexivity|].
  repeat split; assumption.
Qed.

Lemma inside_almost_inside : insideCanvas c -> almostInsideCanvas c.
Proof.
  intros (x & y & w & h & E & X0 & Y0 & W0 & H0 & XW & YH).
  pose proof (inject_Z_pos _ Hcw). pose proof (inject_Z_pos _ Hch).
  exists x, y, w, h. split; [exact E|].
  repeat split; try assumption; unfold ulp64; lra.
Qed.

Lemma standard_inside_source :
  standardBox rnd c -> insideSource img (Rounded.cropRegion rnd img c).
Proof.
  intros ((x & y & w & h & E & X0 & Y0 & W0 & H0 & XW & YH) & SW & SH).
  rewrite (cropRegion_finite x y w h E). cbv zeta.
  rewrite E in SW, SH.
  cbn [Rounded.box_width Rounded.box_height Number.mul Number.lit Number.int] in SW, SH.
  assert (SW' : w = rnd (inject_Z (width (Rounded.cropCanvas c)) * rnd (8 # 10)) \/
                w = inject_Z (width (Rounded.cropCanvas c))).
  { destruct SW as [SW|SW]; injection SW as ->; [now left|now right]. }
  assert (SH' : h = rnd (inject_Z (height (Rounded.cropCanvas c)) * rnd (8 # 10)) \/
                h = inject_Z (height (Rounded.cropCanvas c))).
  { destruct SH as [SH|SH]; injection SH as ->; [now left|now right]. }
  destruct (axis_standard rnd rnd_error _ _ HW Hcw x w X0 XW SW') as [A1 A2].
  destruct (axis_standard rnd rnd_error _ _ HH Hch y h Y0 YH SH') as [B1 B2].
  unfold insideSource, withinSource. do 4 eexists. split; [reflexivity|].
  repeat split; try assumption; lia.
Qed.

End Source.

End CropBox.

(** [applyCrop] encodes the canvas the region was drawn on and reports the
    width and height of the region. *)
Lemma applyCrop_returns (rnd : Q -> Q)
    (canvasToBlob : Canvas -> string -> Q -> option Blob)
    (img : Image) (c : Rounded.Cropper) :
  Rounded.originalImage c = Some img ->
  let r := Rounded.cropRegion rnd img c in
  Rounded.applyCrop rnd canvasToBlob c =
  Returned
    (Rounded.mkCropResult
       (canvasToBlob (Rounded.croppedCanvas img r) "image/jpeg"%string (rnd (85 # 100)))
       (Rounded.cropWidth r) (Rounded.cropHeight r)).
Proof.
  intros Himg r. unfold Rounded.applyCrop. now rewrite Himg.
Qed.

(** ** The crop rectangle on doubles *)

(** C6, as amended.  On a display canvas whose sides are not 0, for a
    source image whose sides are positive unsigned longs: after
    [initCropBox] and any sequence of drags ([moveCropBox]), resets and
    select-alls, the rectangle [applyCrop] maps to source pixels, computed
    on doubles, lies within the source: cropX >= 0, cropY >= 0,
    cropX + cropWidth <= sourceWidth, cropY + cropHeight <= sourceHeight.
    For any other crop box that lies inside the canvas the rounding of each
    side on its own can overshoot the right and the bottom edge by one
    pixel and no more.  In both cases [applyCrop] returns, and reports
    cropWidth and cropHeight as the size of its raster. *)
Theorem crop_region_inside_source (rnd : Q -> Q) (img : Image) (c : Rounded.Cropper) :
  (forall x, (Qabs (rnd x - x) <= eps64 * Qabs x)%Q) ->
  0 < naturalWidth img < maxNatural -> 0 < naturalHeight img < maxNatural ->
  0 < width (Rounded.cropCanvas c) -> 0 < height (Rounded.cropCanvas c) ->
  Rounded.originalImage c = Some img ->
  (forall gestures,
     let r := Rounded.cropRegion rnd img (session rnd c gestures) in
     insideSource img r /\
     forall canvasToBlob, exists blob,
       Rounded.applyCrop rnd canvasToBlob (session rnd c gestures) =
       Returned (Rounded.mkCropResult blob (Rounded.cropWidth r) (Rounded.cropHeight r))) /\
  (insideCanvas c ->
   let r := Rounded.cropRegion rnd img c in
   withinSource 1 img r /\
   forall canvasToBlob, exists blob,
     Rounded.applyCrop rnd canvasToBlob c =
     Returned (Rounded.mkCropResult blob (Rounded.cropWidth r) (Rounded.cropHeight r))).
Proof.
  intros Hrnd HW HH Hcw Hch Himg. split.
  - intros gestures r. unfold r, session.
    destruct (gestures_standard rnd Hrnd gestures (Rounded.initCropBox rnd c))
      as (S & I & C);
      try (cbn [Rounded.initCropBox Rounded.cropCanvas]; lia).
    { apply initCropBox_standard; [exact Hrnd|lia|lia]. }
    cbn [Rounded.initCropBox Rounded.cropCanvas Rounded.originalImage] in I, C.
    split.
    + apply standard_inside_source; try assumption; rewrite C; assumption.
    + intro canvasToBlob. eexists. apply applyCrop_returns. now rewrite I.
  - intros Hin r. split.
    + apply almost_inside_within_source; try assumption.
      now apply inside_almost_inside.
    + intro canvasToBlob. eexists. now apply applyCrop_returns.
Qed.

(** C6 fails as stated.  Choosing the ratio 1:1 on a 1200x600 photograph
    makes the box 480 high on a canvas 300 high, and the region reaches row
    1020 of 600.  Typing x = 1 and width = 599 for a 900x300 banner leaves
    the box inside the 600x200 canvas, and the region reaches column 901 of
    900.  A sliver of 1x1000 pixels gets a display canvas 0 wide: the
    scale factor is infinite, and the left edge and the width of the region
    are NaN. *)
Lemma crop_region_leaves_source :
  (Rounded.cropCanvas squared = mkDimensions 600 300 /\
   Rounded.cropRegion binary64 photo squared
   = Rounded.mkCropRegion (Number.int 120) (Number.int 60) (Number.int 960)
       (Number.int 960) /\
   ~ insideSource photo (Rounded.cropRegion binary64 photo squared)) /\
  (Rounded.cropCanvas typed = mkDimensions 600 200 /\
   insideCanvas typed /\
   Rounded.cropRegion binary64 banner typed
   = Rounded.mkCropRegion (Number.int 2) (Number.int 30) (Number.int 899)
       (Number.int 240) /\
   ~ insideSource banner (Rounded.cropRegion binary64 banner typed)) /\
  (Rounded.initCrop binary64 (fun _ => Returned sliver) Rounded.newCropper photoFile
   = Returned (displayed sliver) /\
   Rounded.cropCanvas (displayed sliver) = mkDimensions 0 400 /\
   Rounded.cropRegion binary64 sliver (displayed sliver)
   = Rounded.mkCropRegion NaN (Number.int 100) NaN (Number.int 800) /\
   forall overshoot,
     ~ withinSource overshoot sliver (Rounded.cropRegion binary64 sliver (displayed sliver))).
Proof.
  assert (R1 : Rounded.cropRegion binary64 photo squared
               = Rounded.mkCropRegion (Number.int 120) (Number.int 60) (Number.int 960)
                   (Number.int 960)) by (vm_compute; reflexivity).
  assert (R2 : Rounded.cropRegion binary64 banner typed
               = Rounded.mkCropRegion (Number.int 2) (Number.int 30) (Number.int 899)
                   (Number.int 240)) by (vm_compute; reflexivity).
  assert (R3 : Rounded.cropRegion binary64 sliver (displayed sliver)
               = Rounded.mkCropRegion NaN (Number.int 100) NaN (Number.int 800))
    by (vm_compute; reflexivity).
  split; [|split].
  - split; [vm_compute; reflexivity|]. split; [exact R1|].
    rewrite R1. intros (x & y & w & h & E & _ & _ & _ & H).
    injection E as <- <- <- <-. vm_compute in H. now apply H.
  - split; [vm_compute; reflexivity|]. split; [|split; [exact R2|]].
    + exists 1%Q, 20%Q, 599%Q, 160%Q. split; [vm_compute; reflexivity|].
      repeat split; apply Qle_bool_iff; vm_compute; reflexivity.
    + rewrite R2. intros (x & y & w & h & E & _ & _ & H & _).
      injection E as <- <- <- <-. vm_compute in H. now apply H.
  - split; [vm_compute; reflexivity|]. split; [vm_compute; reflexivity|].
    split; [exact R3|].
    intro overshoot. rewrite R3. intros (x & y & w & h & E & _). discriminate E.
Qed.

(** The banner on its 600x200 canvas, with the box typed into the inputs. *)
Lemma crop_region_inside_source_witness :
  (forall gestures,
     let r := Rounded.cropRegion binary64 banner (session binary64 typed gestures) in
     insideSource banner r /\
     forall canvasToBlob, exists blob,
       Rounded.applyCrop binary64 canvasToBlob (session binary64 typed gestures) =
       Returned (Rounded.mkCropResult blob (Rounded.cropWidth r) (Rounded.cropHeight r))) /\
  (insideCanvas typed ->
   let r := Rounded.cropRegion binary64 banner typed in
   withinSource 1 banner r /\
   forall canvasToBlob, exists blob,
     Rounded.applyCrop binary64 canvasToBlob typed =
     Returned (Rounded.mkCropResult blob (Rounded.cropWidth r) (Rounded.cropHeight r))).
Proof.
  apply (crop_region_inside_source binary64 banner typed).
  - exact binary64_error.
  - vm_compute. split; reflexivity.
  - vm_compute. split; reflexivity.
  - vm_compute. reflexivity.
  - vm_compute. reflexivity.
  - vm_compute. reflexivity.
Defined.

Example crop_after_drag :
  Rounded.cropRegion binary64 banner
    (session binary64 (displayed banner)
       [Drag (Number.int 60) (Number.int (-20)); Drag (Number.int 1000) (Number.int 0);
        Drag NaN PlusInfinity])
  = Rounded.mkCropRegion (Number.int 180) (Number.int 0) (Number.int 720)
      (Number.int 240).
Proof. vm_compute. reflexivity. Qed.

(** ** Pointer events on the crop canvas *)

Lemma sameFrame_refl (c : Rounded.Cropper) : sameFrame c c.
Proof. repeat split. Qed.

Lemma sameFrame_trans (a b c : Rounded.Cropper) :
  sameFrame a b -> sameFrame b c -> sameFrame a c.
Proof.
  intros (I1 & C1 & A1 & W1 & H1) (I2 & C2 & A2 & W2 & H2).
  repeat split; congruence.
Qed.

(** No pointer handler touches the image, the canvas, the chosen ratio or
    the size of the box. *)
Lemma dispatch_sameFrame (rnd : Q -> Q) (c : Rounded.Cropper) (e : Rounded.PointerEvent) :
  sameFrame c (Rounded.dispatch rnd c e).
Proof.
  destruct e as [x y|x y| |touches|touches|]; cbn [Rounded.dispatch].
  - repeat split.
  - unfold Rounded.onMouseMove. destruct (Rounded.isDragging c); repeat split.
  - repeat split.
  - unfold Rounded.onTouchStart. destruct touches as [|t [|t' rest]]; repeat split.
  - unfold Rounded.onTouchMove.
    destruct (Rounded.isDragging c); cbn [negb]; [|repeat split].
    destruct touches as [|[x y] [|t' rest]]; repeat split.
  - repeat split.
Qed.

Lemma events_sameFrame (rnd : Q -> Q) (events : list Rounded.PointerEvent) :
  forall c, sameFrame c (fold_left (Rounded.dispatch rnd) events c).
Proof.
  induction events as [|e rest IH]; intro c; cbn [fold_left]; [apply sameFrame_refl|].
  eapply sameFrame_trans; [apply dispatch_sameFrame|apply IH].
Qed.

Section Pointer.

Variable rnd : Q -> Q.
Hypothesis rnd_error : forall x, (Qabs (rnd x - x) <= eps64 * Qabs x)%Q.

Lemma dragTo_standard (c : Rounded.Cropper) (x y : Q) :
  standardBox rnd c -> standardBox rnd (Rounded.dragTo rnd c x y).
Proof.
  intro S. unfold Rounded.dragTo.
  exact (moveCropBox_standard rnd rnd_error c _ _ S).
Qed.

Lemma dispatch_standard (c : Rounded.Cropper) (e : Rounded.PointerEvent) :
  standardBox rnd c -> standardBox rnd (Rounded.dispatch rnd c e).
Proof.
  intro S. destruct e as [x y|x y| |touches|touches|]; cbn [Rounded.dispatch].
  - exact S.
  - unfold Rounded.onMouseMove. destruct (Rounded.isDragging c); cbn [negb];
      [now apply dragTo_standard|exact S].
  - exact S.
  - unfold Rounded.onTouchStart. destruct touches as [|t [|t' rest]]; exact S.
  - unfold Rounded.onTouchMove. destruct (Rounded.isDragging c); cbn [negb]; [|exact S].
    destruct touches as [|[x y] [|t' rest]]; try exact S.
    now apply dragTo_standard.
  - exact S.
Qed.

Lemma events_standard (events : list Rounded.PointerEvent) :
  forall c, standardBox rnd c -> standardBox rnd (fold_left (Rounded.dispatch rnd) events c).
Proof.
  induction events as [|e rest IH]; intros c S; cbn [fold_left]; [exact S|].
  apply IH. now apply dispatch_standard.
Qed.

End Pointer.

(** While no drag is in progress, events without a press leave the
    cropper alone. *)
Lemma dispatch_idle (rnd : Q -> Q) (events : list Rounded.PointerEvent) :
  forall c,
    Rounded.isDragging c = false ->
    (forall e, In e events -> pressed e = false) ->
    fold_left (Rounded.dispatch rnd) events c = c.
Proof.
  induction events as [|e rest IH]; intros c Hidle Hno; [reflexivity|].
  cbn [fold_left].
  assert (He : pressed e = false) by (apply Hno; now left).
  assert (Hrest : forall e', In e' rest -> pressed e' = false)
    by (intros e' Hin; apply Hno; now right).
  assert (Step : Rounded.dispatch rnd c e = c).
  { destruct c as [img canvas box ratio dragging start].
    cbn [Rounded.isDragging] in Hidle. subst dragging.
    destruct e as [x y|x y| |touches|touches|]; cbn [pressed] in He;
      try discriminate He; try reflexivity.
    destruct touches as [|t [|t' rest']]; try discriminate He; reflexivity. }
  rewrite Step. now apply IH.
Qed.

(** X12.  The pointer handlers of the crop canvas keep the crop in range,
    on a display canvas whose sides are not 0 and for a source image whose
    sides are positive unsigned longs.  After [initCropBox] and any
    sequence of mouse and touch events the crop box lies inside the
    display canvas, up to the rounding of the sum the bounds check
    computes, and still has the size [initCropBox] gave it, and the
    rectangle [applyCrop] would cut lies inside the source image.  When no
    drag is in progress at the start, events that come without a press (a
    mouse-down, or a touch-start of one finger) do not move the box at
    all. *)
Theorem pointer_events_keep_crop_in_range (rnd : Q -> Q) (img : Image)
    (c : Rounded.Cropper) (events : list Rounded.PointerEvent) :
  (forall x, (Qabs (rnd x - x) <= eps64 * Qabs x)%Q) ->
  0 < naturalWidth img < maxNatural -> 0 < naturalHeight img < maxNatural ->
  0 < width (Rounded.cropCanvas c) -> 0 < height (Rounded.cropCanvas c) ->
  let after := pointerSession rnd c events in
  almostInsideCanvas after /\
  Rounded.box_width (Rounded.cropBox after)
  = Rounded.box_width (Rounded.cropBox (Rounded.initCropBox rnd c)) /\
  Rounded.box_height (Rounded.cropBox after)
  = Rounded.box_height (Rounded.cropBox (Rounded.initCropBox rnd c)) /\
  insideSource img (Rounded.cropRegion rnd img after) /\
  (Rounded.isDragging c = false ->
   (forall e, In e events -> pressed e = false) ->
   after = Rounded.initCropBox rnd c).
Proof.
  intros Hrnd HW HH Hcw Hch after. subst after. unfold pointerSession.
  set (c0 := Rounded.initCropBox rnd c).
  assert (S0 : standardBox rnd c0) by (apply initCropBox_standard; [exact Hrnd|lia|lia]).
  pose proof (events_standard rnd Hrnd events c0 S0) as S.
  destruct (events_sameFrame rnd events c0) as (I & C & A & Wd & Ht).
  split; [apply S|]. split; [exact Wd|]. split; [exact Ht|]. split.
  - apply standard_inside_source; try assumption; rewrite C; assumption.
  - intros Hidle Hno. now apply dispatch_idle.
Qed.

(** The banner on its 600x200 canvas: a drag to the right and far down,
    then a move after the button is released. *)
Lemma pointer_events_keep_crop_in_range_witness :
  let events :=
    [Rounded.MouseDown 100 50; Rounded.MouseMove 130 400; Rounded.MouseUp;
     Rounded.MouseMove 0 0] in
  let after := pointerSession binary64 (displayed banner) events in
  almostInsideCanvas after /\
  Rounded.box_width (Rounded.cropBox after)
  = Rounded.box_width (Rounded.cropBox (Rounded.initCropBox binary64 (displayed banner))) /\
  Rounded.box_height (Rounded.cropBox after)
  = Rounded.box_height (Rounded.cropBox (Rounded.initCropBox binary64 (displayed banner))) /\
  insideSource banner (Rounded.cropRegion binary64 banner after) /\
  (Rounded.isDragging (displayed banner) = false ->
   (forall e, In e events -> pressed e = false) ->
   after = Rounded.initCropBox binary64 (displayed banner)).
Proof.
  apply (pointer_events_keep_crop_in_range binary64 banner (displayed banner)
           [Rounded.MouseDown 100 50; Rounded.MouseMove 130 400; Rounded.MouseUp;
            Rounded.MouseMove 0 0]).
  - exact binary64_error.
  - vm_compute. split; reflexivity.
  - vm_compute. split; reflexivity.
  - vm_compute. reflexivity.
  - vm_compute. reflexivity.
Defined.

Example drag_right_and_down :
  Rounded.cropRegion binary64 banner
    (pointerSession binary64 (displayed banner)
       [Rounded.MouseDown 100 50; Rounded.MouseMove 130 400; Rounded.MouseUp;
        Rounded.MouseMove 0 0])
  = Rounded.mkCropRegion (Number.int 135) (Number.int 30) (Number.int 720)
      (Number.int 240).
Proof. vm_compute. reflexivity. Qed.

(** [resetCrop] does not end a drag: after a press, a reset and a move
    without a new press the box has moved. *)
Example drag_survives_reset :
  let pressedOnce := Rounded.dispatch binary64 (displayed banner) (Rounded.MouseDown 100 50) in
  Rounded.isDragging (Rounded.resetCrop binary64 pressedOnce) = true /\
  Rounded.box_x (Rounded.cropBox (pointerSession binary64 pressedOnce [Rounded.MouseMove 130 50]))
  = Number.int 90.
Proof. vm_compute. split; reflexivity. Qed.

(** X13.  Cropping right after [initCrop], as [processCrop] does, cuts the
    middle of the image: when the display canvas [initCrop] sets up has no
    side of 0, the raster [applyCrop] returns is round(0.8 * W) wide and
    round(0.8 * H) high for a W x H source (W and H positive unsigned
    longs), and the rectangle it is cut from lies inside the source.  On doubles, for
    every rounding within 2^-53. *)
Theorem crop_after_init_cuts_central_region (rnd : Q -> Q)
    (createImageElement : File -> Outcome Image)
    (canvasToBlob : Canvas -> string -> Q -> option Blob)
    (before c : Rounded.Cropper) (file : File) (img : Image) :
  (forall x, (Qabs (rnd x - x) <= eps64 * Qabs x)%Q) ->
  createImageElement file = Returned img ->
  Rounded.initCrop rnd createImageElement before file = Returned c ->
  0 < naturalWidth img < maxNatural -> 0 < naturalHeight img < maxNatural ->
  0 < width (Rounded.cropCanvas c) -> 0 < height (Rounded.cropCanvas c) ->
  insideSource img (Rounded.cropRegion rnd img c) /\
  exists blob,
    Rounded.applyCrop rnd canvasToBlob c
    = Returned (Rounded.mkCropResult blob
                  (Number.int ((8 * naturalWidth img + 5) / 10))
                  (Number.int ((8 * naturalHeight img + 5) / 10))).
Proof.
  intros Hrnd Hload Hinit HW HH Hcw Hch.
  unfold Rounded.initCrop in Hinit. rewrite Hload in Hinit.
  destruct (ImageUtils.validateFile file); cbn [bind rethrow] in Hinit; try discriminate.
  injection Hinit as <-.
  set (size := Rounded.calculateResizedDimensions rnd _ _ _ _ _) in *.
  set (c1 := Rounded.mkCropper (Some img) _ (Rounded.cropBox before)
               (Rounded.aspectRatio before) (Rounded.isDragging before)
               (Rounded.dragStart before)) in *.
  assert (Ecanvas : Rounded.cropCanvas (Rounded.initCropBox rnd c1) = Rounded.cropCanvas c1)
    by reflexivity.
  rewrite Ecanvas in Hcw, Hch.
  split.
  - apply standard_inside_source; try assumption.
    apply initCropBox_standard; [exact Hrnd|lia|lia].
  - eexists.
    rewrite (applyCrop_returns rnd canvasToBlob img (Rounded.initCropBox rnd c1) eq_refl).
    cbv zeta.
    rewrite (cropRegion_finite rnd img (Rounded.initCropBox rnd c1) Hcw Hch _ _ _ _ eq_refl).
    cbv zeta. cbn [Rounded.cropWidth Rounded.cropHeight].
    rewrite Ecanvas.
    rewrite (central_side rnd Hrnd _ _ HW Hcw), (central_side rnd Hrnd _ _ HH Hch).
    reflexivity.
Qed.

(** The 900x300 banner: 720x240, whatever was selected before. *)
Lemma crop_after_init_cuts_central_region_witness :
  insideSource banner (Rounded.cropRegion binary64 banner (displayed banner)) /\
  exists blob,
    Rounded.applyCrop binary64 byQuality (displayed banner)
    = Returned (Rounded.mkCropResult blob
                  (Number.int ((8 * naturalWidth banner + 5) / 10))
                  (Number.int ((8 * naturalHeight banner + 5) / 10))).
Proof.
  apply (crop_after_init_cuts_central_region binary64 (fun _ => Returned banner) byQuality
           Rounded.newCropper (displayed banner) photoFile banner).
  - exact binary64_error.
  - reflexivity.
  - vm_compute. reflexivity.
  - vm_compute. split; reflexivity.
  - vm_compute. split; reflexivity.
  - vm_compute. reflexivity.
  - vm_compute. reflexivity.
Defined.

(** A 615x410 picture: the left edge of the cut is column 61, since 60
    times the double 1.025 is just below 61.5. *)
Example crop_of_615_wide :
  Rounded.cropRegion binary64 (mkImage photoFile 615 410)
    (displayed (mkImage photoFile 615 410))
  = Rounded.mkCropRegion (Number.int 61) (Number.int 41) (Number.int 492)
      (Number.int 328).
Proof. vm_compute. reflexivity. Qed.

(** For the sliver [initCrop] returns, and [applyCrop] returns a raster
    whose width is NaN. *)
Example crop_of_sliver :
  exists blob,
    Rounded.applyCrop binary64 byQuality (displayed sliver)
    = Returned (Rounded.mkCropResult blob NaN (Number.int 800)).
Proof. eexists. vm_compute. reflexivity. Qed.

(** ** The aspect ratio of the crop box *)

Section Ratio.

Variable rnd : Q -> Q.
Hypothesis rnd_error : forall x, (Qabs (rnd x - x) <= eps64 * Qabs x)%Q.

(** Dividing the width by the double nearest to a ratio gives a height
    that has that ratio to the width, to three parts in 2^53. *)
Lemma ratio_kept (r t w : Q) :
  (0 < r)%Q -> (Qabs (t - r) <= eps64 * r)%Q ->
  (Qabs (r * rnd (w / t) - w) <= 3 * eps64 * Qabs w)%Q.
Proof.
  intros Hr Ht. apply Qabs_Qle_condition in Ht.
  assert (Tpos : (0 < t)%Q) by (unfold eps64 in *; lra).
  assert (E : (w / t * t == w)%Q) by (field; lra).
  set (q := (w / t)%Q) in *.
  pose proof (rnd_error q) as Hq.
  set (h := rnd q) in *.
  destruct (Qlt_le_dec q 0) as [Neg|Pos].
  - assert (Wneg : (w <= 0)%Q).
    { assert (T : (0 <= (- q) * t)%Q) by (apply Qmult_le_0_compat; lra). lra. }
    rewrite (Qabs_neg q) in Hq by lra. rewrite (Qabs_neg w) by exact Wneg.
    apply Qabs_Qle_condition in Hq.
    assert (A1 : ((- q) * (r * (1 - eps64)) <= (- q) * t)%Q).
    { rewrite !(Qmult_comm (- q)). apply Qmult_le_compat_r; lra. }
    assert (A2 : ((- q) * t <= (- q) * (r * (1 + eps64)))%Q).
    { rewrite !(Qmult_comm (- q)). apply Qmult_le_compat_r; lra. }
    assert (A3 : (r * (q - eps64 * - q) <= r * h)%Q).
    { rewrite !(Qmult_comm r). apply Qmult_le_compat_r; lra. }
    assert (A4 : (r * h <= r * (q + eps64 * - q))%Q).
    { rewrite !(Qmult_comm r). apply Qmult_le_compat_r; lra. }
    apply Qabs_Qle_condition. unfold eps64 in *. split; lra.
  - assert (Wpos : (0 <= w)%Q).
    { assert (T : (0 <= q * t)%Q) by (apply Qmult_le_0_compat; lra). lra. }
    rewrite (Qabs_pos q) in Hq by lra. rewrite (Qabs_pos w) by exact Wpos.
    apply Qabs_Qle_condition in Hq.
    assert (A1 : (q * (r * (1 - eps64)) <= q * t)%Q).
    { rewrite !(Qmult_comm q). apply Qmult_le_compat_r; lra. }
    assert (A2 : (q * t <= q * (r * (1 + eps64)))%Q).
    { rewrite !(Qmult_comm q). apply Qmult_le_compat_r; lra. }
    assert (A3 : (r * (q - eps64 * q) <= r * h)%Q).
    { rewrite !(Qmult_comm r). apply Qmult_le_compat_r; lra. }
    assert (A4 : (r * h <= r * (q + eps64 * q))%Q).
    { rewrite !(Qmult_comm r). apply Qmult_le_compat_r; lra. }
    apply Qabs_Qle_condition. unfold eps64 in *. split; lra.
Qed.

(** The table entry of a named ratio is a double within 2^-53 of it, and
    truthy. *)
Lemma ratios_named (ratio : string) (r : Q) :
  In (ratio, r) namedRatios ->
  String.eqb ratio "free" = false /\
  (0 < r)%Q /\
  exists t,
    Rounded.ratios rnd ratio = Own (Finite t) /\
    (Qabs (t - r) <= eps64 * r)%Q /\ (0 < t)%Q.
Proof.
  assert (Near : forall r', (0 < r')%Q ->
            (Qabs (rnd r' - r') <= eps64 * r')%Q /\ (0 < rnd r')%Q).
  { intros r' Hr'. split.
    - pose proof (rnd_error r') as H. rewrite (Qabs_pos r') in H by lra. exact H.
    - now apply (rnd_pos rnd rnd_error). }
  intro Hin. cbn [In namedRatios] in Hin.
  destruct Hin as [E|[E|[E|[E|[]]]]]; injection E as <- <-;
    (split; [reflexivity|]); (split; [reflexivity|]).
  - exists 1%Q. split; [reflexivity|]. split; [|reflexivity].
    apply Qabs_Qle_condition. unfold eps64. split; lra.
  - exists (rnd (4 # 3)). split; [reflexivity|]. now apply Near.
  - exists (rnd (16 # 9)). split; [reflexivity|]. now apply Near.
  - exists (rnd (3 # 2)). split; [reflexivity|]. now apply Near.
Qed.

End Ratio.

(** A name that is neither in the table nor inherited is not found. *)
Lemma ratios_unknown (rnd : Q -> Q) (ratio : string) :
  ~ In ratio (map fst namedRatios) -> ~ In ratio objectMembers ->
  Rounded.ratios rnd ratio = Undefined.
Proof.
  intros Hnamed Hmember. unfold Rounded.ratios.
  destruct (String.eqb ratio "1:1") eqn:E1.
  { apply String.eqb_eq in E1. subst. exfalso. apply Hnamed. cbn. tauto. }
  destruct (String.eqb ratio "4:3") eqn:E2.
  { apply String.eqb_eq in E2. subst. exfalso. apply Hnamed. cbn. tauto. }
  destruct (String.eqb ratio "16:9") eqn:E3.
  { apply String.eqb_eq in E3. subst. exfalso. apply Hnamed. cbn. tauto. }
  destruct (String.eqb ratio "3:2") eqn:E4.
  { apply String.eqb_eq in E4. subst. exfalso. apply Hnamed. cbn. tauto. }
  destruct (ImageUtils.includes objectMembers ratio) eqn:E5; [|reflexivity].
  exfalso. apply Hmember. now apply includes_In.
Qed.

(** An inherited name is found, and is not a number. *)
Lemma ratios_inherited (rnd : Q -> Q) (ratio : string) :
  In ratio objectMembers -> Rounded.ratios rnd ratio = Inherited.
Proof.
  intro Hin. cbn [In objectMembers] in Hin.
  repeat (destruct Hin as [<-|Hin]; [reflexivity|]). destruct Hin.
Qed.

(** X22.  [setAspectRatio] changes the height of the crop box and nothing
    else, and the mouse and touch events that follow change neither the
    width nor the height.  With one of the four named ratios (1:1, 4:3,
    16:9, 3:2) and a finite width the height becomes the width divided by
    the double of the ratio, so that ratio * height is the width to three
    parts in 2^53.  With the name of a member every object inherits
    (toString, constructor, ...) the height becomes NaN.  Any other name,
    'free' included, leaves the box as it is. *)
Theorem aspect_ratio_survives_drags (rnd : Q -> Q) (c : Rounded.Cropper)
    (ratio : string) (events : list Rounded.PointerEvent) :
  (forall x, (Qabs (rnd x - x) <= eps64 * Qabs x)%Q) ->
  let chosen := Rounded.setAspectRatio rnd c ratio in
  let after := fold_left (Rounded.dispatch rnd) events chosen in
  sameFrame chosen after /\
  Rounded.box_x (Rounded.cropBox chosen) = Rounded.box_x (Rounded.cropBox c) /\
  Rounded.box_y (Rounded.cropBox chosen) = Rounded.box_y (Rounded.cropBox c) /\
  Rounded.box_width (Rounded.cropBox chosen) = Rounded.box_width (Rounded.cropBox c) /\
  (forall r w,
     In (ratio, r) namedRatios ->
     Rounded.box_width (Rounded.cropBox c) = Finite w ->
     exists h,
       Rounded.box_height (Rounded.cropBox chosen) = Finite h /\
       Rounded.box_height (Rounded.cropBox after) = Finite h /\
       (Qabs (r * h - w) <= 3 * eps64 * Qabs w)%Q) /\
  (In ratio objectMembers ->
   Rounded.box_height (Rounded.cropBox chosen) = NaN /\
   Rounded.box_height (Rounded.cropBox after) = NaN) /\
  (~ In ratio (map fst namedRatios) -> ~ In ratio objectMembers ->
   Rounded.cropBox chosen = Rounded.cropBox c).
Proof.
  intros Hrnd chosen after.
  pose proof (events_sameFrame rnd events chosen) as F. fold after in F.
  destruct F as (I & C & A & Wd & Ht).
  split; [repeat split; assumption|].
  assert (Kept : Rounded.box_x (Rounded.cropBox chosen) = Rounded.box_x (Rounded.cropBox c) /\
                 Rounded.box_y (Rounded.cropBox chosen) = Rounded.box_y (Rounded.cropBox c) /\
                 Rounded.box_width (Rounded.cropBox chosen)
                 = Rounded.box_width (Rounded.cropBox c)).
  { unfold chosen, Rounded.setAspectRatio.
    destruct (String.eqb ratio "free"); [repeat split|].
    destruct (Rounded.ratios rnd ratio) as [t| |]; [|repeat split|repeat split].
    destruct (Number.truthy t); repeat split. }
  destruct Kept as (Kx & Ky & Kw).
  split; [exact Kx|]. split; [exact Ky|]. split; [exact Kw|]. split; [|split].
  - intros r w Hin Hw.
    destruct (ratios_named rnd Hrnd ratio r Hin) as (Hfree & Hr & t & Et & Near & Tpos).
    assert (Eh : Rounded.box_height (Rounded.cropBox chosen) = Finite (rnd (w / t)%Q)).
    { unfold chosen, Rounded.setAspectRatio. rewrite Hfree, Et.
      assert (Truthy : Number.truthy (Finite t) = true).
      { cbn [Number.truthy]. rewrite Qeq_bool_false by lra. reflexivity. }
      rewrite Truthy. cbn [Rounded.cropBox Rounded.box_height]. rewrite Hw.
      apply div_finite. lra. }
    exists (rnd (w / t)%Q). split; [exact Eh|]. split; [now rewrite Ht|].
    now apply ratio_kept.
  - intro Hin.
    assert (Eh : Rounded.box_height (Rounded.cropBox chosen) = NaN).
    { unfold chosen, Rounded.setAspectRatio.
      assert (Hfree : String.eqb ratio "free" = false).
      { cbn [In objectMembers] in Hin.
        repeat (destruct Hin as [<-|Hin]; [reflexivity|]). destruct Hin. }
      rewrite Hfree, (ratios_inherited rnd ratio Hin).
      cbn [Rounded.cropBox Rounded.box_height].
      destruct (Rounded.box_width (Rounded.cropBox c)); reflexivity. }
    split; [exact Eh|]. now rewrite Ht.
  - intros Hnamed Hmember. unfold chosen, Rounded.setAspectRatio.
    destruct (String.eqb ratio "free"); [reflexivity|].
    now rewrite (ratios_unknown rnd ratio Hnamed Hmember).
Qed.

(** The ratio 16:9 on the photograph, then a drag to the right and
    down. *)
Lemma aspect_ratio_survives_drags_witness :
  let events := [Rounded.MouseDown 10 10; Rounded.MouseMove 40 25] in
  let chosen := Rounded.setAspectRatio binary64 (displayed photo) "16:9" in
  let after := fold_left (Rounded.dispatch binary64) events chosen in
  sameFrame chosen after /\
  Rounded.box_x (Rounded.cropBox chosen) = Rounded.box_x (Rounded.cropBox (displayed photo)) /\
  Rounded.box_y (Rounded.cropBox chosen) = Rounded.box_y (Rounded.cropBox (displayed photo)) /\
  Rounded.box_width (Rounded.cropBox chosen)
  = Rounded.box_width (Rounded.cropBox (displayed photo)) /\
  (forall r w,
     In ("16:9"%string, r) namedRatios ->
     Rounded.box_width (Rounded.cropBox (displayed photo)) = Finite w ->
     exists h,
       Rounded.box_height (Rounded.cropBox chosen) = Finite h /\
       Rounded.box_height (Rounded.cropBox after) = Finite h /\
       (Qabs (r * h - w) <= 3 * eps64 * Qabs w)%Q) /\
  (In "16:9"%string objectMembers ->
   Rounded.box_height (Rounded.cropBox chosen) = NaN /\
   Rounded.box_height (Rounded.cropBox after) = NaN) /\
  (~ In "16:9"%string (map fst namedRatios) -> ~ In "16:9"%string objectMembers ->
   Rounded.cropBox chosen = Rounded.cropBox (displayed photo)).
Proof.
  apply (aspect_ratio_survives_drags binary64 (displayed photo) "16:9"
           [Rounded.MouseDown 10 10; Rounded.MouseMove 40 25]).
  exact binary64_error.
Defined.

(** The box, now 270 high on a canvas 300 high, moves right but not
    down. *)
Example aspect_ratio_after_drag :
  Rounded.cropBox
    (fold_left (Rounded.dispatch binary64)
       [Rounded.MouseDown 10 10; Rounded.MouseMove 40 25]
       (Rounded.setAspectRatio binary64 (displayed photo) "16:9"))
  = Rounded.mkCropBox (Number.int 90) (Number.int 30) (Number.int 480) (Number.int 270).
Proof. vm_compute. reflexivity. Qed.

(** The name of an inherited member as a ratio: the height is no longer a
    number, and neither are the top and the height of the cut. *)
Example aspect_ratio_toString :
  Rounded.cropBox (Rounded.setAspectRatio binary64 (displayed photo) "toString")
  = Rounded.mkCropBox (Number.int 60) (Number.int 30) (Number.int 480) NaN /\
  Rounded.cropRegion binary64 photo
    (Rounded.setAspectRatio binary64 (displayed photo) "toString")
  = Rounded.mkCropRegion (Number.int 120) (Number.int 60) (Number.int 960) NaN.
Proof. vm_compute. split; reflexivity. Qed.
